(** * canvas-tool: the drawing engine of [drawing.js]

    A shallow embedding of [class DrawingEngine] and of the part of the
    browser platform it drives (canvas bitmaps, the 2D context, DOM events),
    followed by the properties of its gesture state machine and of its
    undo/redo history. *)

From Stdlib Require Import ZArith NArith List Ascii String Bool Lia Floats PeanoNat.
Import ListNotations.

Local Open Scope string_scope.
Local Open Scope list_scope.
Local Open Scope nat_scope.

(** ** JavaScript numbers

    A JS [Number] is an IEEE 754 binary64 value, which is what [float] is. *)
Module JS.

Definition number := float.

(** [Math.min(x, y)]: NaN if either argument is NaN, and -0 is smaller than +0. *)
Definition Math_min (x y : number) : number :=
  match PrimFloat.compare x y with
  | FNotComparable => nan
  | FLt => x
  | FGt => y
  | FEq => if get_sign x then x else y
  end.

(** [Math.max(x, y)]: NaN if either argument is NaN, and +0 is larger than -0. *)
Definition Math_max (x y : number) : number :=
  match PrimFloat.compare x y with
  | FNotComparable => nan
  | FLt => y
  | FGt => x
  | FEq => if get_sign x then y else x
  end.

(** [Math.pow(x, 2)] *)
Definition Math_pow2 (x : number) : number := (x * x)%float.

Definition Math_sqrt (x : number) : number := PrimFloat.sqrt x.

Definition Math_PI : number := 0x1.921fb54442d18p+1%float.

(** [Number.isNaN] *)
Definition isNaN (x : number) : bool := PrimFloat.is_nan x.

(** [Number.isInteger]: finite and without fractional part. *)
Definition isInteger (x : number) : bool :=
  match Prim2SF x with
  | S754_zero _ => true
  | S754_finite _ m e =>
      if (0 <=? e)%Z then true else (Z.pos m mod 2 ^ (- e) =? 0)%Z
  | S754_infinity _ | S754_nan => false
  end.

(** The conversion of an [unsigned long] (a canvas dimension) to a number. *)
Definition ofNat (n : nat) : number := PrimFloat.of_uint63 (Uint63.of_Z (Z.of_nat n)).

(** The exceptions the platform throws at the engine. *)
Inductive Exn : Type :=
| IndexSizeError      (* getImageData with a zero width or height *)
| InvalidStateError   (* drawImage from a canvas with a zero dimension *)
| TypeError.          (* property access on undefined, putImageData(undefined) *)

(** What a call leaves on the console. *)
Inductive ConsoleMsg : Type :=
| console_log (msg : string)
| console_warn (msg : string).

(** [Array.prototype.join] on an array of strings. *)
Fixpoint join (sep : string) (l : list string) : string :=
  match l with
  | [] => ""
  | [x] => x
  | x :: rest => (x ++ sep ++ join sep rest)%string
  end.

(** [Array.prototype.includes] on an array of strings. *)
Fixpoint includes (l : list string) (x : string) : bool :=
  match l with
  | [] => false
  | y :: rest => if String.eqb y x then true else includes rest x
  end.

End JS.

Import JS.

(** ** Bitmaps

    The pixels of a canvas and of an [ImageData]: width, height and the
    pixels in row-major order. *)

Record Pixel : Type := RGBA { red : N; green : N; blue : N; alpha : N }.

(** What a bitmap holds after it was cleared. *)
Definition transparent : Pixel := RGBA 0 0 0 0.

Record Raster : Type := mkRaster {
  width : nat;
  height : nat;
  data : list Pixel
}.

Definition ImageData := Raster.

(** The [w] by [h] bitmap whose pixel at column [x], row [y] is [f x y]. *)
Definition tabulate (w h : nat) (f : nat -> nat -> Pixel) : Raster :=
  mkRaster w h (map (fun i => f (i mod w) (i / w)) (seq 0 (w * h))).

Definition getPixel (r : Raster) (x y : nat) : Pixel :=
  if (x <? width r) && (y <? height r)
  then nth (y * width r + x) (data r) transparent
  else transparent.

(** A bitmap of the given size, cleared. *)
Definition blank (w h : nat) : Raster := mkRaster w h (repeat transparent (w * h)).

(** ** The 2D rendering context *)

Inductive PathCmd : Type :=
| moveTo (x y : number)
| lineTo (x y : number)
| rect (x y w h : number)
| arc (x y radius startAngle endAngle : number).

(** The drawing state of the context: the values last assigned to its style
    attributes, and the calls made on the current path since [beginPath]. *)
Record Context2D : Type := mkContext {
  lineCap : string;
  lineJoin : string;
  strokeStyle : string;
  lineWidth : number;
  fillStyle : string;
  path : list PathCmd
}.

(** The state a context is reset to when a dimension of its canvas is set. *)
Definition defaultContext : Context2D :=
  mkContext "butt" "miter" "#000000" 1%float "#000000" [].

(** The host's rasteriser: how single pixels come out of compositing, filling
    and stroking. The engine never looks at these values; it only moves
    bitmaps around. *)
Record Backend : Type := mkBackend {
  (** source-over compositing of one pixel over another ([drawImage]) *)
  over : Pixel -> Pixel -> Pixel;
  (** a pixel covered by [fillRect] under the given [fillStyle] *)
  fillPixel : string -> Pixel -> Pixel;
  (** the pixel at a column and row after [stroke()] of the context's path *)
  strokePixel : Context2D -> nat -> nat -> Pixel -> Pixel;
  (** [toDataURL] *)
  encode : string -> Raster -> string;
  (** drawing onto a cleared pixel gives the source pixel *)
  over_transparent : forall p, over p transparent = p
}.

(** ** DOM events *)

(** [getBoundingClientRect()] of the canvas when the handler runs. *)
Record DOMRect : Type := mkRect {
  rect_left : number;
  rect_top : number;
  rect_width : number;
  rect_height : number
}.

Record Touch : Type := mkTouch { touch_clientX : number; touch_clientY : number }.

(** A mouse event, or an event whose [type] starts with ['touch']. *)
Inductive Event : Type :=
| MouseEvent (bounds : DOMRect) (clientX clientY : number)
| TouchEvent (bounds : DOMRect) (touches changedTouches : list Touch).

(** ** The engine *)

Record DrawingEngine : Type := mkEngine {
  canvas : Raster;
  ctx : Context2D;
  currentTool : string;
  currentColor : string;
  strokeWidth : number;
  isDrawing : bool;
  startX : number;
  startY : number;
  lastX : number;
  lastY : number;
  undoStack : list ImageData;
  redoStack : list ImageData;
  maxUndoSteps : nat;
  tempCanvas : Raster
}.

Definition set_canvas (v : Raster) (s : DrawingEngine) : DrawingEngine :=
  mkEngine v (ctx s) (currentTool s) (currentColor s) (strokeWidth s) (isDrawing s)
    (startX s) (startY s) (lastX s) (lastY s) (undoStack s) (redoStack s)
    (maxUndoSteps s) (tempCanvas s).

Definition set_ctx (v : Context2D) (s : DrawingEngine) : DrawingEngine :=
  mkEngine (canvas s) v (currentTool s) (currentColor s) (strokeWidth s) (isDrawing s)
    (startX s) (startY s) (lastX s) (lastY s) (undoStack s) (redoStack s)
    (maxUndoSteps s) (tempCanvas s).

Definition set_currentTool (v : string) (s : DrawingEngine) : DrawingEngine :=
  mkEngine (canvas s) (ctx s) v (currentColor s) (strokeWidth s) (isDrawing s)
    (startX s) (startY s) (lastX s) (lastY s) (undoStack s) (redoStack s)
    (maxUndoSteps s) (tempCanvas s).

Definition set_currentColor (v : string) (s : DrawingEngine) : DrawingEngine :=
  mkEngine (canvas s) (ctx s) (currentTool s) v (strokeWidth s) (isDrawing s)
    (startX s) (startY s) (lastX s) (lastY s) (undoStack s) (redoStack s)
    (maxUndoSteps s) (tempCanvas s).

Definition set_strokeWidth (v : number) (s : DrawingEngine) : DrawingEngine :=
  mkEngine (canvas s) (ctx s) (currentTool s) (currentColor s) v (isDrawing s)
    (startX s) (startY s) (lastX s) (lastY s) (undoStack s) (redoStack s)
    (maxUndoSteps s) (tempCanvas s).

Definition set_isDrawing (v : bool) (s : DrawingEngine) : DrawingEngine :=
  mkEngine (canvas s) (ctx s) (currentTool s) (currentColor s) (strokeWidth s) v
    (startX s) (startY s) (lastX s) (lastY s) (undoStack s) (redoStack s)
    (maxUndoSteps s) (tempCanvas s).

Definition set_start (x y : number) (s : DrawingEngine) : DrawingEngine :=
  mkEngine (canvas s) (ctx s) (currentTool s) (currentColor s) (strokeWidth s) (isDrawing s)
    x y (lastX s) (lastY s) (undoStack s) (redoStack s)
    (maxUndoSteps s) (tempCanvas s).

Definition set_last (x y : number) (s : DrawingEngine) : DrawingEngine :=
  mkEngine (canvas s) (ctx s) (currentTool s) (currentColor s) (strokeWidth s) (isDrawing s)
    (startX s) (startY s) x y (undoStack s) (redoStack s)
    (maxUndoSteps s) (tempCanvas s).

Definition set_undoStack (v : list ImageData) (s : DrawingEngine) : DrawingEngine :=
  mkEngine (canvas s) (ctx s) (currentTool s) (currentColor s) (strokeWidth s) (isDrawing s)
    (startX s) (startY s) (lastX s) (lastY s) v (redoStack s)
    (maxUndoSteps s) (tempCanvas s).

Definition set_redoStack (v : list ImageData) (s : DrawingEngine) : DrawingEngine :=
  mkEngine (canvas s) (ctx s) (currentTool s) (currentColor s) (strokeWidth s) (isDrawing s)
    (startX s) (startY s) (lastX s) (lastY s) (undoStack s) v
    (maxUndoSteps s) (tempCanvas s).

Definition set_tempCanvas (v : Raster) (s : DrawingEngine) : DrawingEngine :=
  mkEngine (canvas s) (ctx s) (currentTool s) (currentColor s) (strokeWidth s) (isDrawing s)
    (startX s) (startY s) (lastX s) (lastY s) (undoStack s) (redoStack s)
    (maxUndoSteps s) v.

(** Assignments to the style attributes of [this.ctx]. *)
Definition ctx_set_lineCap (v : string) (c : Context2D) : Context2D :=
  mkContext v (lineJoin c) (strokeStyle c) (lineWidth c) (fillStyle c) (path c).
Definition ctx_set_lineJoin (v : string) (c : Context2D) : Context2D :=
  mkContext (lineCap c) v (strokeStyle c) (lineWidth c) (fillStyle c) (path c).
Definition ctx_set_strokeStyle (v : string) (c : Context2D) : Context2D :=
  mkContext (lineCap c) (lineJoin c) v (lineWidth c) (fillStyle c) (path c).
Definition ctx_set_lineWidth (v : number) (c : Context2D) : Context2D :=
  mkContext (lineCap c) (lineJoin c) (strokeStyle c) v (fillStyle c) (path c).
Definition ctx_set_fillStyle (v : string) (c : Context2D) : Context2D :=
  mkContext (lineCap c) (lineJoin c) (strokeStyle c) (lineWidth c) v (path c).
Definition ctx_set_path (v : list PathCmd) (c : Context2D) : Context2D :=
  mkContext (lineCap c) (lineJoin c) (strokeStyle c) (lineWidth c) (fillStyle c) v.

(** ** Running a method

    A method runs on the engine, may print on the console, and either
    returns or throws. What it assigned before it throws stays assigned. *)

Inductive Completion (A : Type) : Type :=
| Normal (a : A)
| Throw (e : Exn).
Arguments Normal {A} a.
Arguments Throw {A} e.

Record Outcome (A : Type) : Type := mkOutcome {
  final : DrawingEngine;
  printed : list ConsoleMsg;
  completion : Completion A
}.
Arguments mkOutcome {A} _ _ _.
Arguments final {A} _.
Arguments printed {A} _.
Arguments completion {A} _.

Definition M (A : Type) : Type := DrawingEngine -> Outcome A.

Definition ret {A : Type} (a : A) : M A := fun s => mkOutcome s [] (Normal a).

Definition bind {A B : Type} (m : M A) (k : A -> M B) : M B := fun s =>
  match m s with
  | mkOutcome s1 p1 (Normal a) =>
      match k a s1 with
      | mkOutcome s2 p2 c => mkOutcome s2 (p1 ++ p2) c
      end
  | mkOutcome s1 p1 (Throw e) => mkOutcome s1 p1 (Throw e)
  end.

Definition throw {A : Type} (e : Exn) : M A := fun s => mkOutcome s [] (Throw e).

Definition get : M DrawingEngine := fun s => mkOutcome s [] (Normal s).

Definition modify (f : DrawingEngine -> DrawingEngine) : M unit :=
  fun s => mkOutcome (f s) [] (Normal tt).

Definition console (msg : ConsoleMsg) : M unit :=
  fun s => mkOutcome s [msg] (Normal tt).

Declare Scope method_scope.
Delimit Scope method_scope with method.
Notation "x <- m ;; k" := (bind m (fun x => k))
  (at level 61, m at next level, right associativity) : method_scope.
Notation "m ;; k" := (bind m (fun _ => k))
  (at level 61, right associativity) : method_scope.
Local Open Scope method_scope.

(** Whether a method returned (rather than threw). *)
Definition returned {A : Type} (o : Outcome A) : bool :=
  match completion o with Normal _ => true | Throw _ => false end.

(** ** The canvas API, as far as the engine calls it *)

(** The value that the [width] or the [height] attribute of a canvas takes
    when a non-negative integer is assigned to it. The attributes are
    unsigned longs limited to 0 .. 2^31 - 1: the integer is taken modulo
    2^32, and where that lies above 2^31 - 1 the attribute takes its default,
    300 for the width and 150 for the height. A layout size
    ([offsetWidth], [offsetHeight]) is a long that is not negative, which the
    attributes take as it is. *)
Definition unsigned_long (default n : nat) : nat :=
  let v := (Z.of_nat n mod 4294967296)%Z in
  if (v <=? 2147483647)%Z then Z.to_nat v else default.

(** [canvas.width = w], for a value of the attribute: the bitmap is cleared
    and the context is reset. *)
Definition canvas_set_width (w : nat) : M unit :=
  modify (fun s => set_ctx defaultContext (set_canvas (blank w (height (canvas s))) s)).

(** [canvas.height = h] *)
Definition canvas_set_height (h : nat) : M unit :=
  modify (fun s => set_ctx defaultContext (set_canvas (blank (width (canvas s)) h) s)).

(** [tempCanvas.width = w] *)
Definition tempCanvas_set_width (w : nat) : M unit :=
  modify (fun s => set_tempCanvas (blank w (height (tempCanvas s))) s).

(** [tempCanvas.height = h] *)
Definition tempCanvas_set_height (h : nat) : M unit :=
  modify (fun s => set_tempCanvas (blank (width (tempCanvas s)) h) s).

(** A copy of a whole bitmap. *)
Definition snapshot (c : Raster) : ImageData :=
  tabulate (width c) (height c) (getPixel c).

(** [ctx.getImageData(0, 0, canvas.width, canvas.height)]: a copy of the
    whole bitmap; a zero width or height is an IndexSizeError. *)
Definition getImageData : M ImageData :=
  s <- get ;;
  let c := canvas s in
  if (width c =? 0) || (height c =? 0)
  then throw IndexSizeError
  else ret (snapshot c).

(** The bitmap after [putImageData(img, 0, 0)]: the pixels of [img] replace
    those under them, without compositing; the size of the bitmap stays. *)
Definition blit (img : ImageData) (c : Raster) : Raster :=
  tabulate (width c) (height c)
    (fun x y => if (x <? width img) && (y <? height img)
                then getPixel img x y else getPixel c x y).

(** [ctx.putImageData(img, 0, 0)]; [None] is [undefined], a TypeError. *)
Definition putImageData (img : option ImageData) : M unit :=
  match img with
  | Some i => modify (fun s => set_canvas (blit i (canvas s)) s)
  | None => throw TypeError
  end.

(** Assignments [this.ctx.<attribute> = v] and path calls. *)
Definition ctx_assign (f : Context2D -> Context2D) : M unit :=
  modify (fun s => set_ctx (f (ctx s)) s).

Definition beginPath : M unit := ctx_assign (ctx_set_path []).

Definition addToPath (c : PathCmd) : M unit :=
  ctx_assign (fun cx => ctx_set_path (path cx ++ [c]) cx).

Section WithBackend.

Variable B : Backend.

(** [ctx.fillRect(0, 0, canvas.width, canvas.height)] *)
Definition fillRect_canvas : M unit :=
  modify (fun s =>
    let c := canvas s in
    set_canvas (tabulate (width c) (height c)
                  (fun x y => fillPixel B (fillStyle (ctx s)) (getPixel c x y))) s).

(** [ctx.stroke()] *)
Definition stroke : M unit :=
  modify (fun s =>
    let c := canvas s in
    set_canvas (tabulate (width c) (height c)
                  (fun x y => strokePixel B (ctx s) x y (getPixel c x y))) s).

(** [ctx.clearRect(0, 0, canvas.width, canvas.height)] *)
Definition clearRect_canvas : M unit :=
  modify (fun s => set_canvas (blank (width (canvas s)) (height (canvas s))) s).

(** [tempCtx.clearRect(0, 0, tempCanvas.width, tempCanvas.height)] *)
Definition clearRect_temp : M unit :=
  modify (fun s => set_tempCanvas (blank (width (tempCanvas s)) (height (tempCanvas s))) s).

(** The bitmap [dst] after [drawImage(src, 0, 0)]. *)
Definition composite (src dst : Raster) : Raster :=
  tabulate (width dst) (height dst)
    (fun x y => if (x <? width src) && (y <? height src)
                then over B (getPixel src x y) (getPixel dst x y)
                else getPixel dst x y).

(** [tempCtx.drawImage(this.canvas, 0, 0)]: a source canvas with a zero
    dimension is an InvalidStateError. *)
Definition drawImage_canvas_to_temp : M unit :=
  s <- get ;;
  if (width (canvas s) =? 0) || (height (canvas s) =? 0)
  then throw InvalidStateError
  else modify (fun s => set_tempCanvas (composite (canvas s) (tempCanvas s)) s).

(** [ctx.drawImage(this.tempCanvas, 0, 0)] *)
Definition drawImage_temp_to_canvas : M unit :=
  s <- get ;;
  if (width (tempCanvas s) =? 0) || (height (tempCanvas s) =? 0)
  then throw InvalidStateError
  else modify (fun s => set_canvas (composite (tempCanvas s) (canvas s)) s).

(** ** The methods of [DrawingEngine]

    Each method is a sequence of the assignments and calls of its source, in
    their order. *)

(** [_applyContextSettings()], drawing.js 151-156. *)
Definition _applyContextSettings : M unit :=
  ctx_assign (ctx_set_lineCap "round") ;;
  ctx_assign (ctx_set_lineJoin "round") ;;
  s <- get ;;
  ctx_assign (ctx_set_strokeStyle (currentColor s)) ;;
  s <- get ;;
  ctx_assign (ctx_set_lineWidth (strokeWidth s)).

(** [_initializeCanvas()], drawing.js 37-55, for the layout size of the
    canvas, [canvas.offsetWidth] and [canvas.offsetHeight]. *)
Definition _initializeCanvas (offsetWidth offsetHeight : nat) : M unit :=
  canvas_set_width offsetWidth ;;
  canvas_set_height offsetHeight ;;
  s <- get ;;
  tempCanvas_set_width (width (canvas s)) ;;
  s <- get ;;
  tempCanvas_set_height (height (canvas s)) ;;
  ctx_assign (ctx_set_lineCap "round") ;;
  ctx_assign (ctx_set_lineJoin "round") ;;
  s <- get ;;
  ctx_assign (ctx_set_strokeStyle (currentColor s)) ;;
  s <- get ;;
  ctx_assign (ctx_set_lineWidth (strokeWidth s)) ;;
  ctx_assign (ctx_set_fillStyle "#ffffff") ;;
  fillRect_canvas.

(** [e.touches[0] || e.changedTouches[0]] *)
Definition firstTouch (touches changedTouches : list Touch) : option Touch :=
  match touches with
  | t :: _ => Some t
  | [] => match changedTouches with
          | t :: _ => Some t
          | [] => None
          end
  end.

(** [_getCoordinates(e)], drawing.js 74-92. An event of a type that starts
    with ['touch'] has its default prevented, which the engine does not see,
    and gives its first touch, or throws when it has none. *)
Definition _getCoordinates (e : Event) : M (number * number) :=
  s <- get ;;
  match e with
  | TouchEvent bounds touches changedTouches =>
      let scaleX := (ofNat (width (canvas s)) / rect_width bounds)%float in
      let scaleY := (ofNat (height (canvas s)) / rect_height bounds)%float in
      match firstTouch touches changedTouches with
      | Some touch =>
          ret (((touch_clientX touch - rect_left bounds) * scaleX)%float,
               ((touch_clientY touch - rect_top bounds) * scaleY)%float)
      | None => throw TypeError
      end
  | MouseEvent bounds clientX clientY =>
      let scaleX := (ofNat (width (canvas s)) / rect_width bounds)%float in
      let scaleY := (ofNat (height (canvas s)) / rect_height bounds)%float in
      ret (((clientX - rect_left bounds) * scaleX)%float,
           ((clientY - rect_top bounds) * scaleY)%float)
  end.

(** [_saveState()], drawing.js 203-215: push, drop the oldest snapshot when
    that was one too many, empty the redo stack. *)
Definition _saveState : M unit :=
  imageData <- getImageData ;;
  modify (fun s => set_undoStack (undoStack s ++ [imageData]) s) ;;
  s <- get ;;
  (if maxUndoSteps s <? List.length (undoStack s)
   then modify (fun s => set_undoStack (tl (undoStack s)) s)
   else ret tt) ;;
  modify (set_redoStack []).

(** [_restoreState(imageData)], drawing.js 217-220. *)
Definition _restoreState (imageData : option ImageData) : M unit :=
  putImageData imageData ;;
  _applyContextSettings.

(** [_drawShapePath(x1, y1, x2, y2)], drawing.js 185-201; the [switch] does
    nothing for a tool that is no shape. *)
Definition _drawShapePath (x1 y1 x2 y2 : number) : M unit :=
  s <- get ;;
  if String.eqb (currentTool s) "rectangle" then
    addToPath (rect x1 y1 (x2 - x1)%float (y2 - y1)%float)
  else if String.eqb (currentTool s) "circle" then
    let radius := Math_sqrt (Math_pow2 (x2 - x1)%float + Math_pow2 (y2 - y1)%float)%float in
    addToPath (arc x1 y1 radius 0%float (2 * Math_PI)%float)
  else if String.eqb (currentTool s) "line" then
    addToPath (moveTo x1 y1) ;;
    addToPath (lineTo x2 y2)
  else ret tt.

(** [_drawFreehand(x, y)], drawing.js 158-161. *)
Definition _drawFreehand (x y : number) : M unit :=
  addToPath (lineTo x y) ;;
  stroke.

(** [_drawShapePreview(x, y)], drawing.js 163-172. *)
Definition _drawShapePreview (x y : number) : M unit :=
  clearRect_canvas ;;
  drawImage_temp_to_canvas ;;
  beginPath ;;
  s <- get ;;
  _drawShapePath (startX s) (startY s) x y ;;
  stroke.

(** [_drawShape(x, y)], drawing.js 174-183. *)
Definition _drawShape (x y : number) : M unit :=
  clearRect_canvas ;;
  drawImage_temp_to_canvas ;;
  beginPath ;;
  s <- get ;;
  _drawShapePath (startX s) (startY s) x y ;;
  stroke.

(** [_handleStart(e)], drawing.js 94-110. *)
Definition _handleStart (e : Event) : M unit :=
  modify (set_isDrawing true) ;;
  coords <- _getCoordinates e ;;
  modify (set_start (fst coords) (snd coords)) ;;
  modify (set_last (fst coords) (snd coords)) ;;
  s <- get ;;
  if String.eqb (currentTool s) "freehand" then
    beginPath ;;
    addToPath (moveTo (fst coords) (snd coords))
  else
    clearRect_temp ;;
    drawImage_canvas_to_temp.

(** [_handleMove(e)], drawing.js 112-125. *)
Definition _handleMove (e : Event) : M unit :=
  s <- get ;;
  if negb (isDrawing s) then ret tt else
  coords <- _getCoordinates e ;;
  s <- get ;;
  (if String.eqb (currentTool s) "freehand"
   then _drawFreehand (fst coords) (snd coords)
   else _drawShapePreview (fst coords) (snd coords)) ;;
  modify (set_last (fst coords) (snd coords)).

(** [_handleEnd(e)], drawing.js 127-137. *)
Definition _handleEnd (e : Event) : M unit :=
  s <- get ;;
  if negb (isDrawing s) then ret tt else
  (if negb (String.eqb (currentTool s) "freehand")
   then coords <- _getCoordinates e ;; _drawShape (fst coords) (snd coords)
   else ret tt) ;;
  modify (set_isDrawing false) ;;
  _saveState.

(** [_handleResize()], drawing.js 139-149, for the layout size of the canvas
    when the window's resize event arrives. *)
Definition _handleResize (offsetWidth offsetHeight : nat) : M unit :=
  imageData <- getImageData ;;
  canvas_set_width offsetWidth ;;
  canvas_set_height offsetHeight ;;
  s <- get ;;
  tempCanvas_set_width (width (canvas s)) ;;
  s <- get ;;
  tempCanvas_set_height (height (canvas s)) ;;
  putImageData (Some imageData) ;;
  _applyContextSettings.

Definition validTools : list string := ["freehand"; "rectangle"; "circle"; "line"].

(** [setTool(tool)], drawing.js 224-231, for a string. *)
Definition setTool (tool : string) : M unit :=
  if includes validTools tool
  then modify (set_currentTool tool)
  else console (console_warn
         ("Invalid tool: " ++ tool ++ ". Valid tools are: " ++ join ", " validTools)%string).

(** [setColor(color)], drawing.js 233-236. *)
Definition setColor (color : string) : M unit :=
  modify (set_currentColor color) ;;
  ctx_assign (ctx_set_strokeStyle color).

(** [setStrokeWidth(width)], drawing.js 238-241, for a number. *)
Definition setStrokeWidth (w : number) : M unit :=
  modify (set_strokeWidth (Math_max 1%float (Math_min w 50%float))) ;;
  s <- get ;;
  ctx_assign (ctx_set_lineWidth (strokeWidth s)).

(** [this.undoStack.pop()] and [this.redoStack.pop()]: [None] is the
    [undefined] an empty array gives. *)
Definition undoStack_pop : M (option ImageData) :=
  s <- get ;;
  match rev (undoStack s) with
  | [] => ret None
  | x :: _ => modify (set_undoStack (removelast (undoStack s))) ;; ret (Some x)
  end.

Definition redoStack_pop : M (option ImageData) :=
  s <- get ;;
  match rev (redoStack s) with
  | [] => ret None
  | x :: _ => modify (set_redoStack (removelast (redoStack s))) ;; ret (Some x)
  end.

(** [stack.push(v)] of a popped value; the stacks hold snapshots only, and an
    [undefined] on its way into one is taken as the TypeError it ends in. *)
Definition push_popped (setter : list ImageData -> DrawingEngine -> DrawingEngine)
  (getter : DrawingEngine -> list ImageData) (v : option ImageData) : M unit :=
  match v with
  | Some i => modify (fun s => setter (getter s ++ [i]) s)
  | None => throw TypeError
  end.

(** [undo()], drawing.js 243-258. *)
Definition undo : M bool :=
  s <- get ;;
  if List.length (undoStack s) <=? 1 then
    console (console_log "Nothing to undo") ;;
    ret false
  else
    currentState <- undoStack_pop ;;
    push_popped set_redoStack redoStack currentState ;;
    s <- get ;;
    let previousState := nth_error (undoStack s) (List.length (undoStack s) - 1) in
    _restoreState previousState ;;
    ret true.

(** [redo()], drawing.js 260-274. *)
Definition redo : M bool :=
  s <- get ;;
  if List.length (redoStack s) =? 0 then
    console (console_log "Nothing to redo") ;;
    ret false
  else
    state <- redoStack_pop ;;
    push_popped set_undoStack undoStack state ;;
    _restoreState state ;;
    ret true.

(** [clear()], drawing.js 276-281. *)
Definition clear : M unit :=
  ctx_assign (ctx_set_fillStyle "#ffffff") ;;
  fillRect_canvas ;;
  _applyContextSettings ;;
  _saveState.

(** [exportImage(format)], drawing.js 291-293. *)
Definition exportImage (format : string) : M string :=
  s <- get ;;
  ret (encode B format (canvas s)).

(** [resize(width, height)], drawing.js 295-305, for two non-negative
    integers, which the four assignments convert to values of the
    attributes. *)
Definition resize (w h : nat) : M unit :=
  imageData <- getImageData ;;
  canvas_set_width (unsigned_long 300 w) ;;
  canvas_set_height (unsigned_long 150 h) ;;
  tempCanvas_set_width (unsigned_long 300 w) ;;
  tempCanvas_set_height (unsigned_long 150 h) ;;
  putImageData (Some imageData) ;;
  _applyContextSettings.

(** [destroy()], drawing.js 307-322. [removeEventListener] is given functions
    that were never registered (the listeners are fresh [bind] results), so
    it detaches nothing: the handlers stay callable and only the stacks
    change. *)
Definition destroy : M unit :=
  modify (set_undoStack []) ;;
  modify (set_redoStack []).

(** The fields as the constructor assigns them before it calls a method,
    for a canvas element with the given bitmap; [tempCanvas] is a new canvas
    element, 300 by 150. *)
Definition initialFields (element : Raster) : DrawingEngine :=
  mkEngine element defaultContext "freehand" "#000000" 2%float false
    0%float 0%float 0%float 0%float [] [] 50 (blank 300 150).

(** [new DrawingEngine(canvas)], drawing.js 6-35, for a canvas element with
    the given bitmap and layout size; attaching the listeners changes no
    field. *)
Definition constructor (element : Raster) (offsetWidth offsetHeight : nat) : Outcome unit :=
  (_initializeCanvas offsetWidth offsetHeight ;;
   _saveState)
  (initialFields element).

End WithBackend.

(** ** What reaches the engine

    The DOM events its listeners are registered for, and the calls of its
    public methods. *)

Inductive Op : Type :=
| gestureStart (e : Event)          (* mousedown, touchstart *)
| gestureMove (e : Event)           (* mousemove, touchmove *)
| gestureEnd (e : Event)            (* mouseup, mouseleave, touchend, touchcancel *)
| windowResize (offsetWidth offsetHeight : nat)
| callSetTool (tool : string)
| callSetColor (color : string)
| callSetStrokeWidth (w : number)
| callUndo
| callRedo
| callClear
| callExportImage (format : string)
| callResize (w h : nat)
| callDestroy.

Definition perform (B : Backend) (op : Op) : M unit :=
  match op with
  | gestureStart e => _handleStart B e
  | gestureMove e => _handleMove B e
  | gestureEnd e => _handleEnd B e
  | windowResize ow oh => _handleResize ow oh
  | callSetTool tool => setTool tool
  | callSetColor color => setColor color
  | callSetStrokeWidth w => setStrokeWidth w
  | callUndo => _ <- undo ;; ret tt
  | callRedo => _ <- redo ;; ret tt
  | callClear => clear B
  | callExportImage format => _ <- exportImage B format ;; ret tt
  | callResize w h => resize w h
  | callDestroy => destroy
  end.

(** The engine after a sequence of events and calls; one that throws leaves
    the engine as it was when it threw, and the next one runs on that. *)
Fixpoint run (B : Backend) (ops : list Op) (s : DrawingEngine) : DrawingEngine :=
  match ops with
  | [] => s
  | op :: rest => run B rest (final (perform B op s))
  end.

(** The engines a program can hold: [new DrawingEngine(canvas)] returned one,
    and events and calls followed. *)
Inductive reachable (B : Backend) : DrawingEngine -> Prop :=
| reachable_new : forall element offsetWidth offsetHeight,
    returned (constructor B element offsetWidth offsetHeight) = true ->
    reachable B (final (constructor B element offsetWidth offsetHeight))
| reachable_step : forall s op,
    reachable B s -> reachable B (final (perform B op s)).

(** [undo()] and [redo()] called [n] times in a row. *)
Fixpoint undoTimes (n : nat) (s : DrawingEngine) : DrawingEngine :=
  match n with
  | 0 => s
  | S k => undoTimes k (final (undo s))
  end.

Fixpoint redoTimes (n : nat) (s : DrawingEngine) : DrawingEngine :=
  match n with
  | 0 => s
  | S k => redoTimes k (final (redo s))
  end.

(** ** Committed actions *)

(** What a user sets between two actions. *)
Inductive Setting : Type :=
| chooseTool (tool : string)
| chooseColor (color : string)
| chooseStrokeWidth (w : number).

Definition settingOp (x : Setting) : Op :=
  match x with
  | chooseTool tool => callSetTool tool
  | chooseColor color => callSetColor color
  | chooseStrokeWidth w => callSetStrokeWidth w
  end.

(** An action that ends in a commit: a gesture from its start event over its
    move events to its end event, or a call of [clear()]; either after some
    settings. *)
Inductive Action : Type :=
| drawGesture (settings : list Setting) (down : Event) (moves : list Event) (up : Event)
| clearCanvas (settings : list Setting).

(** The engine when the committing event or call of an action arrives. *)
Definition beforeCommit (B : Backend) (a : Action) (s : DrawingEngine) : DrawingEngine :=
  match a with
  | drawGesture settings down moves up =>
      run B (map gestureMove moves)
        (final (_handleStart B down (run B (map settingOp settings) s)))
  | clearCanvas settings => run B (map settingOp settings) s
  end.

Definition commitOp (a : Action) : Op :=
  match a with
  | drawGesture _ _ _ up => gestureEnd up
  | clearCanvas _ => callClear
  end.

Definition performAction (B : Backend) (a : Action) (s : DrawingEngine) : Outcome unit :=
  perform B (commitOp a) (beforeCommit B a s).

(** The engine after a sequence of actions each of which committed, that is,
    whose gesture end or [clear()] returned. *)
Fixpoint performActions (B : Backend) (acts : list Action) (s : DrawingEngine)
  : option DrawingEngine :=
  match acts with
  | [] => Some s
  | a :: rest =>
      if returned (performAction B a s)
      then performActions B rest (final (performAction B a s))
      else None
  end.

(** ** Event listeners

    What [_attachEventListeners()], drawing.js 57-72, and the first part of
    [destroy()], drawing.js 309-317, do to the listeners of the canvas and
    of the window. *)

(** The handler methods of the prototype. *)
Inductive Handler : Type :=
| handleStart
| handleMove
| handleEnd
| handleResize.

(** A function given to [addEventListener] or [removeEventListener]: a
    method as the prototype holds it ([this._handleStart]), or what a call of
    [bind(this)] on it returned. Every call of [bind] returns a new function;
    a serial number tells them apart. *)
Inductive Callback : Type :=
| method (h : Handler)
| bound (h : Handler) (serial : nat).

Definition Handler_eqb (a b : Handler) : bool :=
  match a, b with
  | handleStart, handleStart | handleMove, handleMove
  | handleEnd, handleEnd | handleResize, handleResize => true
  | _, _ => false
  end.

(** Whether two callbacks are the same function object. *)
Definition Callback_eqb (a b : Callback) : bool :=
  match a, b with
  | method h, method h' => Handler_eqb h h'
  | bound h n, bound h' n' => Handler_eqb h h' && (n =? n')
  | _, _ => false
  end.

Record Listener : Type := mkListener {
  listener_type : string;
  listener_callback : Callback
}.

Definition sameListener (type : string) (cb : Callback) (l : Listener) : bool :=
  String.eqb (listener_type l) type && Callback_eqb (listener_callback l) cb.

(** [target.addEventListener(type, callback)] on the listeners of a target:
    the listener is appended unless the target has one of that type with
    that callback. (All listeners here are non-capturing.) *)
Definition addEventListener (type : string) (cb : Callback) (ls : list Listener)
  : list Listener :=
  if existsb (sameListener type cb) ls then ls else ls ++ [mkListener type cb].

(** [target.removeEventListener(type, callback)]: the listener of that type
    with that callback is removed, if there is one. *)
Definition removeEventListener (type : string) (cb : Callback) (ls : list Listener)
  : list Listener :=
  filter (fun l => negb (sameListener type cb l)) ls.

(** An engine together with the listeners of its canvas and of the window,
    and the number of functions [bind] has returned so far. *)
Record Page : Type := mkPage {
  engine : DrawingEngine;
  canvasListeners : list Listener;
  windowListeners : list Listener;
  boundCount : nat
}.

(** [this.canvas.addEventListener(type, this.<h>.bind(this))] *)
Definition canvas_listen (type : string) (h : Handler) (p : Page) : Page :=
  mkPage (engine p)
    (addEventListener type (bound h (boundCount p)) (canvasListeners p))
    (windowListeners p)
    (S (boundCount p)).

(** [window.addEventListener(type, this.<h>.bind(this))] *)
Definition window_listen (type : string) (h : Handler) (p : Page) : Page :=
  mkPage (engine p)
    (canvasListeners p)
    (addEventListener type (bound h (boundCount p)) (windowListeners p))
    (S (boundCount p)).

(** [this.canvas.removeEventListener(type, this.<h>)] *)
Definition canvas_unlisten (type : string) (h : Handler) (p : Page) : Page :=
  mkPage (engine p)
    (removeEventListener type (method h) (canvasListeners p))
    (windowListeners p)
    (boundCount p).

(** [window.removeEventListener(type, this.<h>)] *)
Definition window_unlisten (type : string) (h : Handler) (p : Page) : Page :=
  mkPage (engine p)
    (canvasListeners p)
    (removeEventListener type (method h) (windowListeners p))
    (boundCount p).

(** [_attachEventListeners()], drawing.js 57-72. *)
Definition _attachEventListeners (p : Page) : Page :=
  let p := canvas_listen "mousedown" handleStart p in
  let p := canvas_listen "mousemove" handleMove p in
  let p := canvas_listen "mouseup" handleEnd p in
  let p := canvas_listen "mouseleave" handleEnd p in
  let p := canvas_listen "touchstart" handleStart p in
  let p := canvas_listen "touchmove" handleMove p in
  let p := canvas_listen "touchend" handleEnd p in
  let p := canvas_listen "touchcancel" handleEnd p in
  window_listen "resize" handleResize p.

(** [destroy()], drawing.js 307-322, with its calls of
    [removeEventListener]. *)
Definition Page_destroy (p : Page) : Page :=
  let p := canvas_unlisten "mousedown" handleStart p in
  let p := canvas_unlisten "mousemove" handleMove p in
  let p := canvas_unlisten "mouseup" handleEnd p in
  let p := canvas_unlisten "mouseleave" handleEnd p in
  let p := canvas_unlisten "touchstart" handleStart p in
  let p := canvas_unlisten "touchmove" handleMove p in
  let p := canvas_unlisten "touchend" handleEnd p in
  let p := canvas_unlisten "touchcancel" handleEnd p in
  let p := window_unlisten "resize" handleResize p in
  mkPage (final (destroy (engine p))) (canvasListeners p) (windowListeners p)
    (boundCount p).

(** [new DrawingEngine(canvas)] on a page where neither the canvas nor the
    window has a listener yet: the engine the constructor leaves, returned
    or not, and the listeners it has attached by then. *)
Definition Page_new (B : Backend) (element : Raster) (offsetWidth offsetHeight : nat)
  : Page :=
  _attachEventListeners
    (mkPage (final (constructor B element offsetWidth offsetHeight)) [] [] 0).

(** A DOM event as a handler finds it: its type, what [_getCoordinates]
    reads of it, and the layout size of the canvas at that time, which
    [_handleResize] reads. *)
Record DOMEvent : Type := mkDOMEvent {
  event_type : string;
  event_data : Event;
  layoutWidth : nat;
  layoutHeight : nat
}.

(** The handler methods, called on the engine. *)
Definition handler (B : Backend) (h : Handler) (ev : DOMEvent) : M unit :=
  match h with
  | handleStart => _handleStart B (event_data ev)
  | handleMove => _handleMove B (event_data ev)
  | handleEnd => _handleEnd B (event_data ev)
  | handleResize => _handleResize (layoutWidth ev) (layoutHeight ev)
  end.

(** The engine after a callback was called with an event. A bound method
    runs on the engine, and what it throws is reported and goes no further.
    A method that was not bound would run with the event target as [this]:
    it would not reach the engine. *)
Definition invoke (B : Backend) (cb : Callback) (ev : DOMEvent) (s : DrawingEngine)
  : DrawingEngine :=
  match cb with
  | bound h _ => final (handler B h ev s)
  | method _ => s
  end.

(** The engine after the listeners of a target were called with an event,
    those of its type, in their order. *)
Definition deliver (B : Backend) (ev : DOMEvent) (ls : list Listener) (s : DrawingEngine)
  : DrawingEngine :=
  fold_left
    (fun s l =>
       if String.eqb (listener_type l) (event_type ev)
       then invoke B (listener_callback l) ev s
       else s)
    ls s.

(** The listeners of the canvas called with an event, and those of the
    window. An event that bubbles from the canvas to the window is both, one
    after the other. *)
Definition dispatch_canvas (B : Backend) (ev : DOMEvent) (p : Page) : Page :=
  mkPage (deliver B ev (canvasListeners p) (engine p))
    (canvasListeners p) (windowListeners p) (boundCount p).

Definition dispatch_window (B : Backend) (ev : DOMEvent) (p : Page) : Page :=
  mkPage (deliver B ev (windowListeners p) (engine p))
    (canvasListeners p) (windowListeners p) (boundCount p).

(** What happens on a page: events arrive, methods are called. *)
Inductive PageOp : Type :=
| atCanvas (ev : DOMEvent)
| atWindow (ev : DOMEvent)
| call (op : Op).

Definition Page_perform (B : Backend) (a : PageOp) (p : Page) : Page :=
  match a with
  | atCanvas ev => dispatch_canvas B ev p
  | atWindow ev => dispatch_window B ev p
  | call callDestroy => Page_destroy p
  | call op =>
      mkPage (final (perform B op (engine p)))
        (canvasListeners p) (windowListeners p) (boundCount p)
  end.

Fixpoint Page_run (B : Backend) (acts : list PageOp) (p : Page) : Page :=
  match acts with
  | [] => p
  | a :: rest => Page_run B rest (Page_perform B a p)
  end.

(** ** A small rasteriser to run the engine on

    Opaque [#rrggbb] colours, and a stroke that marks the pixels holding the
    points its path names. *)

Module Demo.

Definition hexDigit (c : Ascii.ascii) : option N :=
  let n := Ascii.N_of_ascii c in
  if ((48 <=? n) && (n <=? 57))%N then Some (n - 48)%N
  else if ((97 <=? n) && (n <=? 102))%N then Some (n - 87)%N
  else if ((65 <=? n) && (n <=? 70))%N then Some (n - 55)%N
  else None.

Definition hexByte (hi lo : Ascii.ascii) : option N :=
  match hexDigit hi, hexDigit lo with
  | Some h, Some l => Some (16 * h + l)%N
  | _, _ => None
  end.

Definition parseColor (c : string) : option Pixel :=
  match c with
  | String "#"%char (String r1 (String r2 (String g1 (String g2 (String b1 (String b2 EmptyString)))))) =>
      match hexByte r1 r2, hexByte g1 g2, hexByte b1 b2 with
      | Some r, Some g, Some b => Some (RGBA r g b 255)
      | _, _, _ => None
      end
  | _ => None
  end.

Definition over (src dst : Pixel) : Pixel :=
  if (alpha dst =? 0)%N then src
  else if (alpha src =? 0)%N then dst
  else src.

Definition fillPixel (style : string) (old : Pixel) : Pixel :=
  match parseColor style with
  | Some p => p
  | None => old
  end.

Definition pathPoints (c : PathCmd) : list (number * number) :=
  match c with
  | moveTo x y => [(x, y)]
  | lineTo x y => [(x, y)]
  | rect x y w h => [(x, y); ((x + w)%float, (y + h)%float)]
  | arc x y radius _ _ => [((x + radius)%float, y)]
  end.

Definition inPixel (x y : nat) (p : number * number) : bool :=
  (ofNat x <=? fst p)%float && (fst p <? ofNat (S x))%float &&
  (ofNat y <=? snd p)%float && (snd p <? ofNat (S y))%float.

Definition strokePixel (cx : Context2D) (x y : nat) (old : Pixel) : Pixel :=
  if existsb (inPixel x y) (flat_map pathPoints (path cx))
  then fillPixel (strokeStyle cx) old
  else old.

Definition encode (format : string) (r : Raster) : string :=
  ("data:" ++ format)%string.

Definition backend : Backend :=
  mkBackend over fillPixel strokePixel encode (fun p => eq_refl).

(** Where the canvas lies on the page in the examples: at the origin, one
    layout pixel per bitmap pixel of a 2 by 2 canvas. *)
Definition bounds2 : DOMRect := mkRect 0%float 0%float 2%float 2%float.

Definition white : Pixel := RGBA 255 255 255 255.
Definition black : Pixel := RGBA 0 0 0 255.

End Demo.

(** ** Engines and gestures to run *)

Module Examples.

Import Demo.

(** A new engine on a canvas laid out 2 by 2. *)
Definition fresh : DrawingEngine := final (constructor backend (blank 0 0) 2 2).

Definition at_ (x y : number) : Event := MouseEvent bounds2 x y.

(** A gesture from the top left pixel to the bottom right one. *)
Definition strokeOps : list Op :=
  [ gestureStart (at_ 0.5%float 0.5%float);
    gestureMove (at_ 1.5%float 1.5%float);
    gestureEnd (at_ 1.5%float 1.5%float) ].

(** That gesture as a freehand stroke, and then [clear()]. *)
Definition strokeThenClear : list Action :=
  [ drawGesture [] (at_ 0.5%float 0.5%float) [at_ 1.5%float 1.5%float]
      (at_ 1.5%float 1.5%float);
    clearCanvas [] ].

(** The engine after the freehand stroke. *)
Definition drawn : DrawingEngine := run backend strokeOps fresh.

(** The stroke and 49 calls of [clear()]: 50 commits. *)
Definition fiftyCommits : list Op := strokeOps ++ repeat callClear 49.

(** The engine after them, its undo stack full, and that engine with the
    mouse button pressed. *)
Definition fullStack : DrawingEngine := run backend fiftyCommits fresh.

Definition fullStackPressed : DrawingEngine :=
  run backend [gestureStart (at_ 0.5%float 0.5%float)] fullStack.

(** The stroke, then an end event that finds no gesture active, [undo()]
    and [redo()]: one commit. *)
Definition strokeAndMore : list Op :=
  strokeOps ++ [gestureEnd (at_ 1.5%float 1.5%float); callUndo; callRedo].

(** The new engine's canvas made 3 wide, and then a freehand stroke down
    its new column, with the canvas laid out 3 by 2. *)
Definition bounds3 : DOMRect := mkRect 0%float 0%float 3%float 2%float.

Definition resizedAndDrawn : DrawingEngine :=
  run backend
    [ callResize 3 2;
      gestureStart (MouseEvent bounds3 2.5%float 0.5%float);
      gestureMove (MouseEvent bounds3 2.5%float 1.5%float);
      gestureEnd (MouseEvent bounds3 2.5%float 1.5%float) ]
    fresh.

(** In the middle of a rectangle gesture: pressed at the top left pixel and
    dragged to the bottom right one. *)
Definition previewing : DrawingEngine :=
  run backend
    [ callSetTool "rectangle";
      gestureStart (at_ 0.5%float 0.5%float);
      gestureMove (at_ 1.5%float 1.5%float) ]
    fresh.

End Examples.

(** Further engines and events to run. *)

Module Cases.

Import Demo Examples.

(** The new engine with the rectangle tool chosen. *)
Definition rectangleTool : DrawingEngine := final (setTool "rectangle" fresh).

(** The engine after the freehand stroke was undone. *)
Definition undone : DrawingEngine := undoTimes 1 drawn.

(** The new engine's canvas made 0 wide. *)
Definition withoutPixels : DrawingEngine := run backend [callResize 0 2] fresh.

(** A touch event that has no touch. *)
Definition noTouch : Event := TouchEvent bounds2 [] [].

(** The page of the new engine, and a press of the mouse button on its
    canvas. *)
Definition page : Page := Page_new backend (blank 0 0) 2 2.

Definition mousedown : DOMEvent :=
  mkDOMEvent "mousedown" (at_ 0.5%float 0.5%float) 2 2.

End Cases.

(** * The export utilities of [export.js] *)

Module ExportJs.

(** A canvas element as [toDataURL] sees it: its bitmap, and whether it is
    origin-clean. *)
Record HTMLCanvasElement : Type := mkCanvasElement {
  bitmap : Raster;
  originClean : bool
}.

(** What [toDataURL] throws for a canvas that is not origin-clean. *)
Inductive DOMException : Type :=
| SecurityError.

(** An [a] element with the attributes these functions assign. *)
Record Anchor : Type := mkAnchor {
  href : string;
  download : string
}.

Inductive ConsoleLine : Type :=
| logged (msg : string)
| errored (msg : string) (error : DOMException).

(** The page: the elements [createElement] has made, each known by its
    place in this list; the children of [document.body]; the downloads that
    clicks have begun, each with its URL and its file name; the console. *)
Record Document : Type := mkDocument {
  created : list Anchor;
  bodyChildren : list nat;
  downloads : list (string * string);
  consoleLines : list ConsoleLine
}.

(** [document.createElement('a')] *)
Definition createElement (d : Document) : nat * Document :=
  (List.length (created d),
   mkDocument (created d ++ [mkAnchor "" ""]) (bodyChildren d) (downloads d)
     (consoleLines d)).

Fixpoint update (l : list Anchor) (i : nat) (f : Anchor -> Anchor) : list Anchor :=
  match l, i with
  | [], _ => []
  | a :: rest, 0 => f a :: rest
  | a :: rest, S j => a :: update rest j f
  end.

(** [element.href = url] and [element.download = name] *)
Definition set_href (element : nat) (url : string) (d : Document) : Document :=
  mkDocument (update (created d) element (fun a => mkAnchor url (download a)))
    (bodyChildren d) (downloads d) (consoleLines d).

Definition set_download (element : nat) (name : string) (d : Document) : Document :=
  mkDocument (update (created d) element (fun a => mkAnchor (href a) name))
    (bodyChildren d) (downloads d) (consoleLines d).

(** [document.body.appendChild(element)]: the element becomes the last
    child; it is moved if it was a child already. *)
Definition appendChild (element : nat) (d : Document) : Document :=
  mkDocument (created d)
    (filter (fun c => negb (c =? element)) (bodyChildren d) ++ [element])
    (downloads d) (consoleLines d).

(** [document.body.removeChild(element)], for a child. *)
Definition removeChild (element : nat) (d : Document) : Document :=
  mkDocument (created d)
    (filter (fun c => negb (c =? element)) (bodyChildren d))
    (downloads d) (consoleLines d).

(** [element.click()] on an [a] element that has a [download] attribute: the
    download of its [href] under that name begins. *)
Definition click (element : nat) (d : Document) : Document :=
  match nth_error (created d) element with
  | Some a =>
      mkDocument (created d) (bodyChildren d) (downloads d ++ [(href a, download a)])
        (consoleLines d)
  | None => d
  end.

Definition console_log (msg : string) (d : Document) : Document :=
  mkDocument (created d) (bodyChildren d) (downloads d) (consoleLines d ++ [logged msg]).

Definition console_error (msg : string) (error : DOMException) (d : Document) : Document :=
  mkDocument (created d) (bodyChildren d) (downloads d)
    (consoleLines d ++ [errored msg error]).

Section WithEncoder.

(** The host's encoder: the data URL of a bitmap for a type and, where the
    type has one, a quality. *)
Variable encodeAs : string -> option number -> Raster -> string.

(** [canvas.toDataURL(type, quality)] *)
Definition toDataURL (canvas : HTMLCanvasElement) (type : string) (quality : option number)
  : DOMException + string :=
  if originClean canvas
  then inr (encodeAs type quality (bitmap canvas))
  else inl SecurityError.

(** [exportToPNG(canvas, filename = 'canvas-drawing.png')], export.js 11-32;
    [None] is an argument left out. *)
Definition exportToPNG (canvas : HTMLCanvasElement) (filename : option string)
  (d : Document) : Document * bool :=
  let filename := match filename with Some f => f | None => "canvas-drawing.png" end in
  match toDataURL canvas "image/png" None with
  | inr dataURL =>
      let (downloadLink, d) := createElement d in
      let d := set_href downloadLink dataURL d in
      let d := set_download downloadLink filename d in
      let d := appendChild downloadLink d in
      let d := click downloadLink d in
      let d := removeChild downloadLink d in
      let d := console_log ("Successfully exported: " ++ filename)%string d in
      (d, true)
  | inl error =>
      (console_error "Error exporting to PNG:" error d, false)
  end.

(** [exportToJPEG(canvas, filename = 'canvas-drawing.jpg', quality = 0.9)],
    export.js 40-58. *)
Definition exportToJPEG (canvas : HTMLCanvasElement) (filename : option string)
  (quality : option number) (d : Document) : Document * bool :=
  let filename := match filename with Some f => f | None => "canvas-drawing.jpg" end in
  let quality := match quality with Some q => q | None => 0x1.ccccccccccccdp-1%float end in
  match toDataURL canvas "image/jpeg" (Some quality) with
  | inr dataURL =>
      let (downloadLink, d) := createElement d in
      let d := set_href downloadLink dataURL d in
      let d := set_download downloadLink filename d in
      let d := appendChild downloadLink d in
      let d := click downloadLink d in
      let d := removeChild downloadLink d in
      let d := console_log ("Successfully exported: " ++ filename)%string d in
      (d, true)
  | inl error =>
      (console_error "Error exporting to JPEG:" error d, false)
  end.

(** [getCanvasDataURL(canvas, format = 'image/png', quality = 0.9)],
    export.js 67-74; the result [None] is [null]. *)
Definition getCanvasDataURL (canvas : HTMLCanvasElement) (format : option string)
  (quality : option number) (d : Document) : Document * option string :=
  let format := match format with Some f => f | None => "image/png" end in
  let quality := match quality with Some q => q | None => 0x1.ccccccccccccdp-1%float end in
  match toDataURL canvas format (Some quality) with
  | inr dataURL => (d, Some dataURL)
  | inl error => (console_error "Error getting canvas data URL:" error d, None)
  end.

End WithEncoder.

End ExportJs.

(** * What the properties speak of *)

(** ** Bitmaps *)

(** Two bitmaps of the same size that hold the same pixel everywhere. *)
Definition samePixels (r1 r2 : Raster) : Prop :=
  width r1 = width r2 /\ height r1 = height r2 /\
  forall x y, getPixel r1 x y = getPixel r2 x y.

(** A bitmap that holds exactly the pixels of its width and height, so that
    a copy of it is equal to it. *)
Definition wellFormed (r : Raster) : Prop := snapshot r = r.

Definition canvasWellFormed (s : DrawingEngine) : Prop := wellFormed (canvas s).

(** A snapshot as large as the bitmap. *)
Definition fits (c : Raster) (snap : ImageData) : Prop :=
  width snap = width c /\ height snap = height c.

(** ** Methods *)

(** From a state in [P], the method returns [a] in a state in [Q a], or
    throws in a state in [E]. *)
Definition hoare {A : Type} (P : DrawingEngine -> Prop) (m : M A)
  (Q : A -> DrawingEngine -> Prop) (E : DrawingEngine -> Prop) : Prop :=
  forall s, P s ->
    match completion (m s) with
    | Normal a => Q a (final (m s))
    | Throw _ => E (final (m s))
    end.

(** An invariant of a method: it holds afterwards, returned or thrown. *)
Definition preserves {A : Type} (P : DrawingEngine -> Prop) (m : M A) : Prop :=
  hoare P m (fun _ => P) P.

(** A method that leaves a part of the engine alone. *)
Definition keeps {X A : Type} (part : DrawingEngine -> X) (m : M A) : Prop :=
  forall v, preserves (fun s => part s = v) m.

(** ** The history *)

(** Both stacks and the maximum; all methods but [_saveState], [undo], [redo]
    and [destroy] leave them alone. *)
Definition history (s : DrawingEngine) : list ImageData * list ImageData * nat :=
  (undoStack s, redoStack s, maxUndoSteps s).

(** The two stacks together hold no more snapshots than the maximum. *)
Definition bounded (s : DrawingEngine) : Prop :=
  List.length (undoStack s) + List.length (redoStack s) <= maxUndoSteps s.

(** The history after a commit, given the history [h] before it: the new
    snapshot is on top, the oldest one is dropped when that was one too
    many, and the redo stack is empty. *)
Definition committed (h : list ImageData * list ImageData * nat)
  (s' : DrawingEngine) : Prop :=
  undoStack s' =
    (if snd h <? List.length (fst (fst h) ++ [snapshot (canvas s')])
     then tl (fst (fst h) ++ [snapshot (canvas s')])
     else fst (fst h) ++ [snapshot (canvas s')]) /\
  redoStack s' = [] /\
  maxUndoSteps s' = snd h.

(** The newest snapshot, if there is one, is a copy of the canvas. *)
Definition topIsCurrent (s : DrawingEngine) : Prop :=
  forall rest top, undoStack s = rest ++ [top] -> top = snapshot (canvas s).

(** Every snapshot on the two stacks is as large as the canvas. *)
Definition snapshotsFit (s : DrawingEngine) : Prop :=
  Forall (fits (canvas s)) (undoStack s) /\ Forall (fits (canvas s)) (redoStack s).

(** The history and the size of the canvas. *)
Definition frame (s : DrawingEngine)
  : (list ImageData * list ImageData * nat) * (nat * nat) :=
  (history s, (width (canvas s), height (canvas s))).

(** The undo stack has a snapshot, under a maximum that allows one. *)
Definition hasSnapshot (s : DrawingEngine) : Prop :=
  undoStack s <> [] /\ 0 < maxUndoSteps s.

(** The bottom of the undo stack is [bottom], and the two stacks together
    hold at most [n] snapshots more, under the maximum of 50. *)
Definition bottomIs (bottom : ImageData) (n : nat)
  (h : list ImageData * list ImageData * nat) : Prop :=
  hd_error (fst (fst h)) = Some bottom /\
  List.length (fst (fst h)) + List.length (snd (fst h)) <= S n /\
  snd h = 50.

(** ** Events and calls, by kind *)

(** The events and calls that set the size of the canvas. *)
Definition isResize (op : Op) : bool :=
  match op with
  | windowResize _ _ | callResize _ _ => true
  | _ => false
  end.

(** The events that start a gesture. *)
Definition isStart (op : Op) : bool :=
  match op with
  | gestureStart _ => true
  | _ => false
  end.

(** The events and calls that can commit. *)
Definition mayCommit (op : Op) : bool :=
  match op with
  | gestureEnd _ | callClear => true
  | _ => false
  end.

(** The call that tears the engine down. *)
Definition isDestroy (op : Op) : bool :=
  match op with
  | callDestroy => true
  | _ => false
  end.

(** The call that takes a snapshot off the undo stack. *)
Definition isUndo (op : Op) : bool :=
  match op with
  | callUndo => true
  | _ => false
  end.

(** Whether an event or call commits in a state: the end event of an active
    gesture, or [clear()], when it returns. Each reaches [_saveState] last,
    which pushes when its [getImageData] has not thrown. *)
Definition commits (B : Backend) (op : Op) (s : DrawingEngine) : bool :=
  match op with
  | gestureEnd _ => isDrawing s && returned (perform B op s)
  | callClear => returned (perform B op s)
  | _ => false
  end.

(** The snapshots that a sequence of events and calls commits, in their
    order. *)
Fixpoint committedSnapshots (B : Backend) (ops : list Op) (s : DrawingEngine)
  : list ImageData :=
  match ops with
  | [] => []
  | op :: rest =>
      (if commits B op s then [snapshot (canvas (final (perform B op s)))] else [])
      ++ committedSnapshots B rest (final (perform B op s))
  end.

(** ** What single methods leave *)

(** What [_applyContextSettings] leaves in the context. *)
Definition appliedContext (s : DrawingEngine) : Context2D :=
  mkContext "round" "round" (currentColor s) (strokeWidth s)
    (fillStyle (ctx s)) (path (ctx s)).

(** The engine once [_handleStart] has recorded the coordinates of its event. *)
Definition started (x y : number) (s : DrawingEngine) : DrawingEngine :=
  set_last x y (set_start x y (set_isDrawing true s)).

(** The context after a dimension of the canvas was set and the engine's
    settings were applied again. *)
Definition resetContext (s : DrawingEngine) : Context2D :=
  mkContext "round" "round" (currentColor s) (strokeWidth s) "#000000" [].

(** ** The words of the spec, where the code differs *)

(** In the words of the spec, whatever number comes in, the stored value is
    an integer from 1 to 50. *)
Definition stores_integer_in_range (w : number) (s : DrawingEngine) : Prop :=
  let v := strokeWidth (final (setStrokeWidth w s)) in
  isInteger v = true /\ (1 <=? v)%float = true /\ (v <=? 50)%float = true.

(** In the words of the spec, enlarging reveals the background colour at the
    new margins: the pixels outside the former size show the white that the
    constructor and [clear()] fill with. *)
Definition margins_show_background (B : Backend) (w h : nat) (s : DrawingEngine) : Prop :=
  forall x y, x < w -> y < h ->
    (x <? width (canvas s)) && (y <? height (canvas s)) = false ->
    getPixel (canvas (final (resize w h s))) x y = fillPixel B "#ffffff" transparent.

(** In the words of the spec, [undo()] on a stack of more than one snapshot
    restores the canvas to the new top of the undo stack: afterwards the
    canvas shows that snapshot, pixel for pixel. *)
Definition restores_new_top (s : DrawingEngine) : Prop :=
  1 < List.length (undoStack s) ->
  forall rest top,
    undoStack (final (undo s)) = rest ++ [top] ->
    samePixels (canvas (final (undo s))) top.

(** In the words of the spec, the bottom entry of the undo stack is the
    initial snapshot, whatever came after the constructor. *)
Definition initial_snapshot_stays (B : Backend) (s0 : DrawingEngine) (ops : list Op) : Prop :=
  hd_error (undoStack (run B ops s0)) = hd_error (undoStack s0).

(** ** Notions of the further properties *)

(** The snapshots of both stacks in the order of their commits: the undo
    stack from its bottom, then the redo stack from its top. *)
Definition timeline (s : DrawingEngine) : list ImageData :=
  undoStack s ++ rev (redoStack s).

(** The calls that move along the history. *)
Definition isUndoRedo (op : Op) : bool :=
  match op with
  | callUndo | callRedo => true
  | _ => false
  end.

(** The context holds the settings of the engine. *)
Definition settingsApplied (s : DrawingEngine) : Prop :=
  strokeStyle (ctx s) = currentColor s /\ lineWidth (ctx s) = strokeWidth s /\
  lineCap (ctx s) = "round" /\ lineJoin (ctx s) = "round".

(** The bitmap of a new engine's canvas: the background. *)
Definition background (B : Backend) (w h : nat) : Raster :=
  tabulate w h (fun _ _ => fillPixel B "#ffffff" transparent).

(** The fields of a new engine on a canvas laid out [w] by [h], before the
    first snapshot. *)
Definition initialized (B : Backend) (w h : nat) : DrawingEngine :=
  mkEngine (background B w h)
    (mkContext "round" "round" "#000000" 2%float "#ffffff" [])
    "freehand" "#000000" 2%float false 0%float 0%float 0%float 0%float
    [] [] 50 (blank w h).

(** The sizes of the canvas and of the scratch canvas. *)
Definition sizes (s : DrawingEngine) : (nat * nat) * (nat * nat) :=
  ((width (canvas s), height (canvas s)), (width (tempCanvas s), height (tempCanvas s))).

(** The scratch canvas is as large as the canvas. *)
Definition scratchFits (s : DrawingEngine) : Prop :=
  width (tempCanvas s) = width (canvas s) /\ height (tempCanvas s) = height (canvas s).

(** The current tool is one of the four tools. *)
Definition toolIsValid (s : DrawingEngine) : Prop :=
  includes validTools (currentTool s) = true.

(** What [clear()] leaves before it takes the snapshot. *)
Definition cleared (B : Backend) (s : DrawingEngine) : DrawingEngine :=
  set_ctx
    (mkContext "round" "round" (currentColor s) (strokeWidth s) "#ffffff" (path (ctx s)))
    (set_canvas
       (tabulate (width (canvas s)) (height (canvas s))
          (fun x y => fillPixel B "#ffffff" (getPixel (canvas s) x y)))
       s).

(** The style attributes of the context and the settings they come from. *)
Definition style (s : DrawingEngine)
  : (string * number * string * string) * (string * number) :=
  ((strokeStyle (ctx s), lineWidth (ctx s), lineCap (ctx s), lineJoin (ctx s)),
   (currentColor s, strokeWidth s)).

(** An event that has a position: a mouse event, or a touch event with a
    touch in [touches] or in [changedTouches]. *)
Definition hasPoint (e : Event) : bool :=
  match e with
  | MouseEvent _ _ _ => true
  | TouchEvent _ touches changedTouches =>
      match firstTouch touches changedTouches with
      | Some _ => true
      | None => false
      end
  end.

(** The events and calls but the touch events without a touch. *)
Definition carriesPoint (op : Op) : bool :=
  match op with
  | gestureStart e | gestureMove e | gestureEnd e => hasPoint e
  | _ => true
  end.

(** From a state in [P] the method returns, in a state in [P]. *)
Definition returnsIn {A : Type} (P : DrawingEngine -> Prop) (m : M A) : Prop :=
  hoare P m (fun _ => P) (fun _ => False).

(** The engines whose canvas and scratch canvas are both [w] by [h]. *)
Definition sized (w h : nat) (s : DrawingEngine) : Prop := sizes s = ((w, h), (w, h)).

(** A size with a dimension of 0. *)
Definition noPixels (size : nat * nat) : Prop := fst size = 0 \/ snd size = 0.

(** The calls that set or read without drawing. *)
Definition isSetting (op : Op) : bool :=
  match op with
  | callSetTool _ | callSetColor _ | callSetStrokeWidth _ | callExportImage _ => true
  | _ => false
  end.

(** What a gesture in progress consists of. *)
Definition gesture (s : DrawingEngine)
  : bool * (number * number) * (number * number) * list PathCmd :=
  (isDrawing s, (startX s, startY s), (lastX s, lastY s), path (ctx s)).

(** The calls [_drawShapePath] makes on the path, by tool. *)
Definition shapePath (tool : string) (x1 y1 x2 y2 : number) : list PathCmd :=
  if String.eqb tool "rectangle" then
    [rect x1 y1 (x2 - x1)%float (y2 - y1)%float]
  else if String.eqb tool "circle" then
    [arc x1 y1 (Math_sqrt (Math_pow2 (x2 - x1)%float + Math_pow2 (y2 - y1)%float)%float)
       0%float (2 * Math_PI)%float]
  else if String.eqb tool "line" then
    [moveTo x1 y1; lineTo x2 y2]
  else [].

(** The engine once the shape from the start point to [(x, y)] was stroked
    onto a copy of the scratch canvas. *)
Definition shapeDrawn (B : Backend) (x y : number) (s : DrawingEngine) : DrawingEngine :=
  let cx := ctx_set_path (shapePath (currentTool s) (startX s) (startY s) x y) (ctx s) in
  set_canvas
    (tabulate (width (canvas s)) (height (canvas s))
       (fun px py => strokePixel B cx px py (getPixel (tempCanvas s) px py)))
    (set_ctx cx s).

(** The position [_getCoordinates] gives for an event, if it gives one. *)
Definition pointOf (e : Event) (s : DrawingEngine) : option (number * number) :=
  match completion (_getCoordinates e s) with
  | Normal p => Some p
  | Throw _ => None
  end.

Definition lineToPoint (p : number * number) : PathCmd := lineTo (fst p) (snd p).

(** What the move events of a gesture leave alone: all but the pixels of
    the canvas, the path and the last point. *)
Definition gestureBase (s : DrawingEngine) :=
  ((width (canvas s), height (canvas s)),
   (lineCap (ctx s), lineJoin (ctx s), strokeStyle (ctx s), lineWidth (ctx s),
    fillStyle (ctx s)),
   (currentTool s, currentColor s, strokeWidth s, isDrawing s),
   (startX s, startY s),
   history s,
   tempCanvas s).

(** The listeners a new engine has attached to its canvas. *)
Definition attachedToCanvas : list Listener :=
  [ mkListener "mousedown" (bound handleStart 0);
    mkListener "mousemove" (bound handleMove 1);
    mkListener "mouseup" (bound handleEnd 2);
    mkListener "mouseleave" (bound handleEnd 3);
    mkListener "touchstart" (bound handleStart 4);
    mkListener "touchmove" (bound handleMove 5);
    mkListener "touchend" (bound handleEnd 6);
    mkListener "touchcancel" (bound handleEnd 7) ].

(** The listener a new engine has attached to the window. *)
Definition attachedToWindow : list Listener :=
  [ mkListener "resize" (bound handleResize 8) ].

Definition listening (p : Page) : Prop :=
  canvasListeners p = attachedToCanvas /\ windowListeners p = attachedToWindow.

(** What an event at the canvas of a new engine leads to, by its type. *)
Definition routed (B : Backend) (ev : DOMEvent) (s : DrawingEngine) : DrawingEngine :=
  if includes ["mousedown"; "touchstart"] (event_type ev)
  then final (_handleStart B (event_data ev) s)
  else if includes ["mousemove"; "touchmove"] (event_type ev)
  then final (_handleMove B (event_data ev) s)
  else if includes ["mouseup"; "mouseleave"; "touchend"; "touchcancel"] (event_type ev)
  then final (_handleEnd B (event_data ev) s)
  else s.

(** The children of the body are elements that were created. *)
Definition childrenCreated (d : ExportJs.Document) : Prop :=
  Forall (fun c => c < List.length (ExportJs.created d)) (ExportJs.bodyChildren d).

(** The file name a download function uses, given its default. *)
Definition fileName (filename : option string) (default : string) : string :=
  match filename with
  | Some f => f
  | None => default
  end.

(** The document after a download that went well. *)
Definition downloaded (url name : string) (d : ExportJs.Document) : ExportJs.Document :=
  ExportJs.mkDocument
    (ExportJs.created d ++ [ExportJs.mkAnchor url name])
    (ExportJs.bodyChildren d)
    (ExportJs.downloads d ++ [(url, name)])
    (ExportJs.consoleLines d ++ [ExportJs.logged ("Successfully exported: " ++ name)%string]).

(** * Properties *)

(** ** Bitmaps *)

Arguments tabulate : simpl never.
Arguments blank : simpl never.
Arguments getPixel : simpl never.

Lemma width_tabulate : forall w h f, width (tabulate w h f) = w.
Proof. reflexivity. Qed.

Lemma height_tabulate : forall w h f, height (tabulate w h f) = h.
Proof. reflexivity. Qed.

Lemma cell_index : forall w x y, x < w -> (y * w + x) mod w = x /\ (y * w + x) / w = y.
Proof.
  intros w x y Hx. split.
  - rewrite Nat.add_comm, Nat.Div0.mod_add. apply Nat.mod_small; assumption.
  - rewrite Nat.add_comm, Nat.div_add by lia.
    rewrite Nat.div_small by assumption. reflexivity.
Qed.

Lemma cell_bound : forall w h x y, x < w -> y < h -> y * w + x < w * h.
Proof. intros w h x y Hx Hy. nia. Qed.

Lemma getPixel_outside : forall r x y,
  (x <? width r) && (y <? height r) = false -> getPixel r x y = transparent.
Proof. intros r x y H. unfold getPixel. rewrite H. reflexivity. Qed.

Lemma getPixel_tabulate : forall w h f x y,
  x < w -> y < h -> getPixel (tabulate w h f) x y = f x y.
Proof.
  intros w h f x y Hx Hy. unfold getPixel, tabulate. cbn [width height data].
  apply Nat.ltb_lt in Hx as Hx', Hy as Hy'. rewrite Hx', Hy'. cbn [andb].
  pose proof (cell_bound w h x y Hx Hy) as Hb.
  rewrite nth_indep with (d' := f (0 mod w) (0 / w)) by (rewrite length_map, length_seq; exact Hb).
  rewrite map_nth with (f := fun i => f (i mod w) (i / w)).
  rewrite seq_nth by exact Hb. cbn [plus].
  destruct (cell_index w x y Hx) as [Hm Hd]. rewrite Hm, Hd. reflexivity.
Qed.

Lemma getPixel_tabulate_full : forall w h f x y,
  getPixel (tabulate w h f) x y =
  if (x <? w) && (y <? h) then f x y else transparent.
Proof.
  intros w h f x y.
  destruct ((x <? w) && (y <? h)) eqn:E.
  - apply andb_true_iff in E as [Hx Hy].
    apply getPixel_tabulate; apply Nat.ltb_lt; assumption.
  - apply getPixel_outside. exact E.
Qed.

Lemma tabulate_ext : forall w h f g,
  (forall x y, x < w -> y < h -> f x y = g x y) ->
  tabulate w h f = tabulate w h g.
Proof.
  intros w h f g H. unfold tabulate. f_equal.
  apply map_ext_in. intros i Hi. apply in_seq in Hi.
  destruct (Nat.eq_dec w 0) as [->|Hw]; [cbn in Hi; lia|].
  apply H.
  - apply Nat.mod_upper_bound; assumption.
  - apply Nat.Div0.div_lt_upper_bound. lia.
Qed.

Lemma getPixel_blank : forall w h x y, getPixel (blank w h) x y = transparent.
Proof.
  intros w h x y. unfold getPixel, blank. cbn [width height data].
  destruct ((x <? w) && (y <? h)); [|reflexivity].
  apply nth_repeat.
Qed.

(** A snapshot holds the pixels of the bitmap it was taken from. *)
Lemma snapshot_samePixels : forall c, samePixels (snapshot c) c.
Proof.
  intros c. unfold snapshot. split; [reflexivity|split; [reflexivity|]]. intros x y.
  rewrite getPixel_tabulate_full.
  destruct ((x <? width c) && (y <? height c)) eqn:E; [reflexivity|].
  symmetry. apply getPixel_outside. exact E.
Qed.

Lemma width_blit : forall img c, width (blit img c) = width c.
Proof. reflexivity. Qed.

Lemma height_blit : forall img c, height (blit img c) = height c.
Proof. reflexivity. Qed.

Lemma getPixel_blit : forall img c x y,
  getPixel (blit img c) x y =
  if (x <? width img) && (y <? height img) && ((x <? width c) && (y <? height c))
  then getPixel img x y
  else getPixel c x y.
Proof.
  intros img c x y. unfold blit. rewrite getPixel_tabulate_full.
  destruct ((x <? width c) && (y <? height c)) eqn:E.
  - rewrite andb_true_r. reflexivity.
  - rewrite andb_false_r. symmetry. apply getPixel_outside. exact E.
Qed.

(** Writing an image onto a bitmap of its own size gives the image. *)
Lemma blit_same_size : forall img c,
  width img = width c -> height img = height c ->
  samePixels (blit img c) img.
Proof.
  intros img c Hw Hh.
  split; [rewrite width_blit; congruence|split; [rewrite height_blit; congruence|]].
  intros x y. rewrite getPixel_blit, Hw, Hh.
  destruct ((x <? width c) && (y <? height c)) eqn:E; cbn [andb]; [reflexivity|].
  rewrite !getPixel_outside; congruence.
Qed.

Lemma width_blank : forall w h, width (blank w h) = w.
Proof. reflexivity. Qed.

Lemma height_blank : forall w h, height (blank w h) = h.
Proof. reflexivity. Qed.

Lemma getPixel_composite_blank : forall B src w h x y,
  getPixel (composite B src (blank w h)) x y =
  if (x <? w) && (y <? h) then getPixel src x y else transparent.
Proof.
  intros B src w h x y. unfold composite.
  rewrite getPixel_tabulate_full, width_blank, height_blank.
  destruct ((x <? w) && (y <? h)); [|reflexivity].
  rewrite getPixel_blank.
  destruct ((x <? width src) && (y <? height src)) eqn:E.
  - apply over_transparent.
  - symmetry. apply getPixel_outside. exact E.
Qed.

(** ** Reasoning about methods *)

Lemma hoare_ret : forall A (P : DrawingEngine -> Prop) (a : A) Q E,
  (forall s, P s -> Q a s) -> hoare P (ret a) Q E.
Proof. intros A P a Q E H s Hs. cbn. apply H, Hs. Qed.

Lemma hoare_throw : forall A (P : DrawingEngine -> Prop) e (Q : A -> _) (E : _ -> Prop),
  (forall s, P s -> E s) -> hoare P (throw e) Q E.
Proof. intros A P e Q E H s Hs. cbn. apply H, Hs. Qed.

Lemma hoare_get : forall (P : DrawingEngine -> Prop) Q E,
  (forall s, P s -> Q s s) -> hoare P get Q E.
Proof. intros P Q E H s Hs. cbn. apply H, Hs. Qed.

Lemma hoare_modify : forall (P : DrawingEngine -> Prop) f Q E,
  (forall s, P s -> Q tt (f s)) -> hoare P (modify f) Q E.
Proof. intros P f Q E H s Hs. cbn. apply H, Hs. Qed.

Lemma hoare_console : forall (P : DrawingEngine -> Prop) msg Q E,
  (forall s, P s -> Q tt s) -> hoare P (console msg) Q E.
Proof. intros P msg Q E H s Hs. cbn. apply H, Hs. Qed.

Lemma hoare_bind : forall A B (P : DrawingEngine -> Prop) (m : M A) (k : A -> M B) R Q E,
  hoare P m R E -> (forall a, hoare (R a) (k a) Q E) -> hoare P (bind m k) Q E.
Proof.
  intros A B P m k R Q E Hm Hk s Hs. specialize (Hm s Hs).
  unfold bind. destruct (m s) as [s1 p1 [a|e]]; cbn in Hm |- *.
  - specialize (Hk a s1 Hm). destruct (k a s1) as [s2 p2 c]. cbn in Hk |- *. exact Hk.
  - exact Hm.
Qed.

Lemma hoare_consequence : forall A (P P' : DrawingEngine -> Prop) (m : M A)
  (Q Q' : A -> DrawingEngine -> Prop) (E E' : DrawingEngine -> Prop),
  hoare P' m Q' E' ->
  (forall s, P s -> P' s) -> (forall a s, Q' a s -> Q a s) -> (forall s, E' s -> E s) ->
  hoare P m Q E.
Proof.
  intros A P P' m Q Q' E E' H HP HQ HE s Hs. specialize (H s (HP s Hs)).
  destruct (completion (m s)); auto.
Qed.

(** Where a bound method leaves the engine. *)
Lemma bind_returned : forall A B (m : M A) (k : A -> M B) s,
  returned (bind m k s) = true ->
  exists a, completion (m s) = Normal a /\
            returned (k a (final (m s))) = true /\
            final (bind m k s) = final (k a (final (m s))) /\
            completion (bind m k s) = completion (k a (final (m s))).
Proof.
  intros A B m k s H. unfold returned, bind in *.
  destruct (m s) as [s1 p1 [a|e]]; cbn in *; [|discriminate].
  exists a. destruct (k a s1) as [s2 p2 c]; cbn in *. auto.
Qed.

Lemma preserves_final : forall A P (m : M A) s,
  preserves P m -> P s -> P (final (m s)).
Proof.
  intros A P m s H Hs. specialize (H s Hs). destruct (completion (m s)); exact H.
Qed.

Lemma preserves_of_final : forall A (P : DrawingEngine -> Prop) (m : M A),
  (forall s, P s -> P (final (m s))) -> preserves P m.
Proof.
  intros A P m H s Hs. specialize (H s Hs). destruct (completion (m s)); exact H.
Qed.

Lemma preserves_ret : forall A P (a : A), preserves P (ret a).
Proof. intros. apply hoare_ret. auto. Qed.

Lemma preserves_throw : forall A P e, preserves P (@throw A e).
Proof. intros. apply hoare_throw. auto. Qed.

Lemma preserves_get : forall P, preserves P get.
Proof. intros. apply hoare_get. auto. Qed.

Lemma preserves_console : forall P msg, preserves P (console msg).
Proof. intros. apply hoare_console. auto. Qed.

Lemma preserves_modify : forall (P : DrawingEngine -> Prop) f,
  (forall s, P s -> P (f s)) -> preserves P (modify f).
Proof. intros. apply hoare_modify. auto. Qed.

Lemma preserves_bind : forall A B P (m : M A) (k : A -> M B),
  preserves P m -> (forall a, preserves P (k a)) -> preserves P (bind m k).
Proof. intros A B P m k Hm Hk. eapply hoare_bind; [exact Hm|exact Hk]. Qed.

Lemma keeps_final : forall X A (part : DrawingEngine -> X) (m : M A) s,
  keeps part m -> part (final (m s)) = part s.
Proof.
  intros X A part m s H.
  apply (preserves_final _ _ m s (H (part s))). reflexivity.
Qed.

Lemma keeps_of_final : forall X A (part : DrawingEngine -> X) (m : M A),
  (forall s, part (final (m s)) = part s) -> keeps part m.
Proof.
  intros X A part m H v. apply preserves_of_final. intros s Hs.
  rewrite H. exact Hs.
Qed.

Lemma keeps_preserves : forall X A (part : DrawingEngine -> X) (Q : X -> Prop) (m : M A),
  keeps part m -> preserves (fun s => Q (part s)) m.
Proof.
  intros X A part Q m H. apply preserves_of_final. intros s Hs.
  rewrite (keeps_final _ _ part m s H). exact Hs.
Qed.

(** One step through the structure of a method. *)
Ltac preserves_step :=
  lazymatch goal with
  | |- preserves _ (bind _ _) => apply preserves_bind; [|intro]
  | |- preserves _ (ret _) => apply preserves_ret
  | |- preserves _ get => apply preserves_get
  | |- preserves _ (throw _) => apply preserves_throw
  | |- preserves _ (console _) => apply preserves_console
  | |- preserves _ (modify _) =>
      apply preserves_modify; let s := fresh "s" in let H := fresh "H" in
      intros s H; exact H
  | |- preserves _ (ctx_assign _) => unfold ctx_assign
  | |- preserves _ (if ?c then _ else _) => destruct c
  | |- preserves _ (match ?x with _ => _ end) => destruct x
  | |- preserves _ (let _ := _ in _) => cbv zeta
  end.

Create HintDb methods.
#[local] Hint Unfold perform _handleStart _handleMove _handleEnd _handleResize
  _applyContextSettings _initializeCanvas _getCoordinates _drawShapePath _drawFreehand
  _drawShapePreview _drawShape _restoreState setTool setColor setStrokeWidth clear
  exportImage resize beginPath addToPath fillRect_canvas stroke clearRect_canvas
  clearRect_temp drawImage_canvas_to_temp drawImage_temp_to_canvas getImageData
  putImageData canvas_set_width canvas_set_height tempCanvas_set_width
  tempCanvas_set_height : methods.

Ltac keeps_auto :=
  intros; autounfold with methods;
  let v := fresh "v" in intro v; repeat preserves_step.

Lemma handleMove_keeps_isDrawing : forall B e, keeps isDrawing (_handleMove B e).
Proof. keeps_auto. Qed.

Arguments snapshot : simpl never.
Arguments blit : simpl never.
Arguments composite : simpl never.

(** ** The methods on the history *)

Ltac run_method :=
  unfold bind, get, modify, ret, throw, console, ctx_assign; cbn.

Lemma saveState_outcome : forall s,
  _saveState s =
  if (width (canvas s) =? 0) || (height (canvas s) =? 0)
  then mkOutcome s [] (Throw IndexSizeError)
  else mkOutcome
         (set_redoStack []
            (set_undoStack
               (if maxUndoSteps s <? List.length (undoStack s ++ [snapshot (canvas s)])
                then tl (undoStack s ++ [snapshot (canvas s)])
                else undoStack s ++ [snapshot (canvas s)]) s))
         [] (Normal tt).
Proof.
  intros s. unfold _saveState, getImageData. run_method.
  destruct ((width (canvas s) =? 0) || (height (canvas s) =? 0)); cbn; [reflexivity|].
  change (match List.length (undoStack s ++ [snapshot (canvas s)]) with
          | 0 => false
          | S m' => maxUndoSteps s <=? m'
          end)
    with (maxUndoSteps s <? List.length (undoStack s ++ [snapshot (canvas s)])).
  destruct (maxUndoSteps s <? List.length (undoStack s ++ [snapshot (canvas s)]));
    reflexivity.
Qed.

Lemma applyContextSettings_outcome : forall s,
  _applyContextSettings s = mkOutcome (set_ctx (appliedContext s) s) [] (Normal tt).
Proof. intros s. reflexivity. Qed.

Lemma rev_snoc_inv : forall (A : Type) (l : list A) x r,
  rev l = x :: r -> l = rev r ++ [x].
Proof.
  intros A l x r H. rewrite <- (rev_involutive l), H. reflexivity.
Qed.

Lemma nth_error_snoc_last : forall (A : Type) (l : list A) x,
  nth_error (l ++ [x]) (List.length (l ++ [x]) - 1) = Some x.
Proof.
  intros A l x. rewrite length_app. cbn [List.length].
  replace (List.length l + 1 - 1) with (List.length l) by lia.
  rewrite nth_error_app2 by lia. rewrite Nat.sub_diag. reflexivity.
Qed.

(** [undo()] with nothing to undo. *)
Lemma undo_floor : forall s,
  List.length (undoStack s) <= 1 ->
  undo s = mkOutcome s [console_log "Nothing to undo"] (Normal false).
Proof.
  intros s H. unfold undo. run_method.
  apply Nat.leb_le in H. rewrite H. reflexivity.
Qed.

(** [undo()] with at least two snapshots on the undo stack. *)
Lemma undo_step : forall s rest previousState currentState,
  undoStack s = rest ++ [previousState; currentState] ->
  undo s =
  mkOutcome
    (set_ctx (appliedContext s)
       (set_canvas (blit previousState (canvas s))
          (set_redoStack (redoStack s ++ [currentState])
             (set_undoStack (rest ++ [previousState]) s))))
    [] (Normal true).
Proof.
  intros s rest previousState currentState H.
  unfold undo, undoStack_pop, push_popped, _restoreState, putImageData,
    _applyContextSettings. run_method.
  replace (List.length (undoStack s) <=? 1) with false
    by (symmetry; apply Nat.leb_gt; rewrite H, length_app; cbn; lia).
  cbn. rewrite H, rev_app_distr. cbn.
  replace (removelast (rest ++ [previousState; currentState]))
    with (rest ++ [previousState])
    by (change [previousState; currentState] with ([previousState] ++ [currentState]);
        rewrite app_assoc, removelast_last; reflexivity).
  rewrite nth_error_snoc_last. cbn. reflexivity.
Qed.

(** A stack of at least two snapshots, seen from its top. *)
Lemma two_on_top : forall (A : Type) (l : list A),
  1 < List.length l -> exists rest a b, l = rest ++ [a; b].
Proof.
  intros A l H.
  destruct (rev l) as [|b [|a r]] eqn:E.
  - apply (f_equal (@List.length A)) in E. rewrite length_rev in E. cbn in E. lia.
  - apply (f_equal (@List.length A)) in E. rewrite length_rev in E. cbn in E. lia.
  - exists (rev r), a, b. apply rev_snoc_inv in E. rewrite E. cbn.
    rewrite <- app_assoc. reflexivity.
Qed.

(** [redo()] with nothing to redo. *)
Lemma redo_floor : forall s,
  redoStack s = [] ->
  redo s = mkOutcome s [console_log "Nothing to redo"] (Normal false).
Proof.
  intros s H. unfold redo. run_method. rewrite H. reflexivity.
Qed.

(** [redo()] with a snapshot on the redo stack. *)
Lemma redo_step : forall s rest state,
  redoStack s = rest ++ [state] ->
  redo s =
  mkOutcome
    (set_ctx (appliedContext s)
       (set_canvas (blit state (canvas s))
          (set_undoStack (undoStack s ++ [state])
             (set_redoStack rest s))))
    [] (Normal true).
Proof.
  intros s rest state H.
  unfold redo, redoStack_pop, push_popped, _restoreState, putImageData,
    _applyContextSettings. run_method.
  replace (List.length (redoStack s) =? 0) with false
    by (symmetry; apply Nat.eqb_neq; rewrite H, length_app; cbn; lia).
  cbn. rewrite H, rev_app_distr. cbn. rewrite removelast_last. reflexivity.
Qed.

Lemma one_on_top : forall (A : Type) (l : list A),
  l <> [] -> exists rest a, l = rest ++ [a].
Proof.
  intros A l H. destruct (exists_last H) as (rest & a & E). eauto.
Qed.

(** The undo stack after a snapshot was pushed under the given maximum. *)
Lemma saveState_returned : forall s,
  returned (_saveState s) = true ->
  final (_saveState s) =
  set_redoStack []
    (set_undoStack
       (if maxUndoSteps s <? List.length (undoStack s ++ [snapshot (canvas s)])
        then tl (undoStack s ++ [snapshot (canvas s)])
        else undoStack s ++ [snapshot (canvas s)]) s).
Proof.
  intros s H. rewrite saveState_outcome in H |- *.
  destruct ((width (canvas s) =? 0) || (height (canvas s) =? 0)); [discriminate|].
  reflexivity.
Qed.

Lemma saveState_threw : forall s,
  returned (_saveState s) = false -> final (_saveState s) = s.
Proof.
  intros s H. rewrite saveState_outcome in H |- *.
  destruct ((width (canvas s) =? 0) || (height (canvas s) =? 0)); [reflexivity|].
  discriminate.
Qed.

(** ** The history bound *)

Lemma saveState_preserves_bounded : preserves bounded _saveState.
Proof.
  apply preserves_of_final. intros s H.
  destruct (returned (_saveState s)) eqn:R.
  - rewrite (saveState_returned s R).
    destruct (maxUndoSteps s <? List.length (undoStack s ++ [snapshot (canvas s)])) eqn:E;
      unfold bounded, set_redoStack, set_undoStack in *;
      cbn [undoStack redoStack maxUndoSteps List.length].
    + destruct (undoStack s) as [|a l]; cbn [tl app List.length] in *.
      * lia.
      * rewrite length_app in *. cbn [List.length] in *. lia.
    + apply Nat.ltb_ge in E. lia.
  - rewrite (saveState_threw s R). exact H.
Qed.

Lemma undo_preserves_bounded : preserves bounded undo.
Proof.
  apply preserves_of_final. intros s H.
  destruct (Nat.le_gt_cases (List.length (undoStack s)) 1) as [L|L].
  - rewrite (undo_floor s L). exact H.
  - destruct (two_on_top _ _ L) as (rest & a & b & E).
    rewrite (undo_step s rest a b E). unfold bounded in *. cbn.
    rewrite E in H. rewrite !length_app in *. cbn in *. lia.
Qed.

Lemma redo_preserves_bounded : preserves bounded redo.
Proof.
  apply preserves_of_final. intros s H.
  destruct (redoStack s) as [|x l] eqn:E.
  - rewrite (redo_floor s E). exact H.
  - destruct (one_on_top _ (x :: l)) as (rest & a & E'); [discriminate|].
    rewrite E' in E. rewrite (redo_step s rest a E). unfold bounded in *. cbn.
    rewrite E in H. rewrite !length_app in *. cbn in *. lia.
Qed.

Ltac history_auto :=
  intros; autounfold with methods;
  repeat first
    [ apply saveState_preserves_bounded
    | apply undo_preserves_bounded
    | apply redo_preserves_bounded
    | preserves_step ].

Lemma perform_preserves_bounded : forall B op, preserves bounded (perform B op).
Proof.
  intros B op. destruct op; history_auto.
  unfold destroy. apply preserves_of_final. intros s _. unfold bounded. cbn. lia.
Qed.

Lemma saveState_keeps_max : keeps maxUndoSteps _saveState.
Proof.
  apply keeps_of_final. intros s. rewrite saveState_outcome.
  destruct ((width (canvas s) =? 0) || (height (canvas s) =? 0)); reflexivity.
Qed.

Lemma undo_keeps_max : keeps maxUndoSteps undo.
Proof.
  apply keeps_of_final. intros s.
  destruct (Nat.le_gt_cases (List.length (undoStack s)) 1) as [L|L].
  - rewrite (undo_floor s L). reflexivity.
  - destruct (two_on_top _ _ L) as (rest & a & b & E).
    rewrite (undo_step s rest a b E). reflexivity.
Qed.

Lemma redo_keeps_max : keeps maxUndoSteps redo.
Proof.
  apply keeps_of_final. intros s.
  destruct (redoStack s) as [|x l] eqn:E.
  - rewrite (redo_floor s E). reflexivity.
  - destruct (one_on_top _ (x :: l)) as (rest & a & E'); [discriminate|].
    rewrite E' in E. rewrite (redo_step s rest a E). reflexivity.
Qed.

Lemma perform_keeps_max : forall B op, keeps maxUndoSteps (perform B op).
Proof.
  intros B op. destruct op; intro v; autounfold with methods; unfold destroy;
    repeat first
      [ apply saveState_keeps_max | apply undo_keeps_max | apply redo_keeps_max
      | preserves_step ].
Qed.

(** A method that ends in [_saveState] returns when [_saveState] does. *)
Lemma then_saveState : forall A (pre : M A) s,
  returned ((pre ;; _saveState) s) = true ->
  returned (_saveState (final (pre s))) = true /\
  final ((pre ;; _saveState) s) = final (_saveState (final (pre s))).
Proof.
  intros A pre s H. apply bind_returned in H as (a & _ & R & F & _).
  split; [exact R|exact F].
Qed.

(** The first snapshot, pushed on an empty history. *)
Lemma first_snapshot : forall s1 s,
  returned (_saveState s1) = true -> s = final (_saveState s1) ->
  undoStack s1 = [] -> maxUndoSteps s1 = 50 -> isDrawing s1 = false ->
  undoStack s = [snapshot (canvas s)] /\ redoStack s = [] /\
  maxUndoSteps s = 50 /\ isDrawing s = false.
Proof.
  intros s1 s R E Hu Hm Hd. subst s.
  rewrite (saveState_returned s1 R).
  unfold set_redoStack, set_undoStack.
  cbn [undoStack redoStack maxUndoSteps isDrawing canvas].
  rewrite Hu, Hm, Hd. cbn [app List.length tl].
  change (50 <? 1) with false. cbv iota. auto.
Qed.

Lemma initializeCanvas_keeps_history : forall B ow oh,
  keeps history (_initializeCanvas B ow oh).
Proof. keeps_auto. Qed.

Lemma initializeCanvas_keeps_isDrawing : forall B ow oh,
  keeps isDrawing (_initializeCanvas B ow oh).
Proof. keeps_auto. Qed.

Lemma constructor_unfold : forall B element ow oh,
  constructor B element ow oh =
  (_initializeCanvas B ow oh ;; _saveState) (initialFields element).
Proof. reflexivity. Qed.

(** What the constructor leaves when it returns. *)
Lemma constructor_history : forall B element offsetWidth offsetHeight,
  returned (constructor B element offsetWidth offsetHeight) = true ->
  let s := final (constructor B element offsetWidth offsetHeight) in
  undoStack s = [snapshot (canvas s)] /\ redoStack s = [] /\
  maxUndoSteps s = 50 /\ isDrawing s = false.
Proof.
  intros B element ow oh H. cbv zeta.
  rewrite constructor_unfold in *.
  destruct (then_saveState _ _ _ H) as [R F].
  pose proof (keeps_final _ _ history _ (initialFields element)
    (initializeCanvas_keeps_history B ow oh)) as Hh.
  pose proof (keeps_final _ _ isDrawing _ (initialFields element)
    (initializeCanvas_keeps_isDrawing B ow oh)) as Hd.
  unfold history in Hh.
  change (undoStack (initialFields element)) with (@nil ImageData) in Hh.
  change (redoStack (initialFields element)) with (@nil ImageData) in Hh.
  change (maxUndoSteps (initialFields element)) with 50 in Hh.
  change (isDrawing (initialFields element)) with false in Hd.
  apply (first_snapshot _ _ R F); congruence.
Qed.

Lemma reachable_bounded : forall B s, reachable B s -> bounded s /\ maxUndoSteps s = 50.
Proof.
  intros B s H. induction H as [element ow oh R|s op H [IHb IHm]].
  - destruct (constructor_history B element ow oh R) as (Hu & Hr & Hm & _).
    unfold bounded. rewrite Hu, Hr, Hm. cbn. split; [lia|reflexivity].
  - split.
    + apply preserves_final; [apply perform_preserves_bounded|exact IHb].
    + rewrite (keeps_final _ _ maxUndoSteps (perform B op) s (perform_keeps_max B op)).
      exact IHm.
Qed.

(** ** Stepping through a method *)

Lemma bind_get : forall A (k : DrawingEngine -> M A) s, bind get k s = k s s.
Proof. intros A k s. unfold bind, get. destruct (k s s). reflexivity. Qed.

Lemma bind_ret : forall A B (a : A) (k : A -> M B) s, bind (ret a) k s = k a s.
Proof. intros A B a k s. unfold bind, ret. destruct (k a s). reflexivity. Qed.

Lemma bind_modify : forall A f (k : unit -> M A) s, bind (modify f) k s = k tt (f s).
Proof. intros A f k s. unfold bind, modify. destruct (k tt (f s)). reflexivity. Qed.

Lemma bind_assoc : forall A B C (m : M A) (k : A -> M B) (h : B -> M C) s,
  bind (bind m k) h s = bind m (fun a => bind (k a) h) s.
Proof.
  intros A B C m k h s. unfold bind.
  destruct (m s) as [s1 p1 [a|e]]; [|reflexivity].
  destruct (k a s1) as [s2 p2 [b|e]]; [|reflexivity].
  destruct (h b s2) as [s3 p3 c]. rewrite app_assoc. reflexivity.
Qed.

Lemma hoare_returned : forall A P (m : M A) Q E s,
  hoare P m Q E -> P s -> returned (m s) = true ->
  exists a, completion (m s) = Normal a /\ Q a (final (m s)).
Proof.
  intros A P m Q E s H Hs R. specialize (H s Hs). unfold returned in R.
  destruct (completion (m s)) as [a|e]; [|discriminate]. eauto.
Qed.

(** A method that leaves a part alone, followed by more. *)
Lemma hoare_bind_keeps : forall X A B (part : DrawingEngine -> X) v
  (m : M A) (k : A -> M B) Q,
  keeps part m ->
  (forall a, hoare (fun s => part s = v) (k a) Q (fun _ => True)) ->
  hoare (fun s => part s = v) (bind m k) Q (fun _ => True).
Proof.
  intros X A B part v m k Q Hm Hk.
  eapply hoare_bind with (R := fun _ s => part s = v); [|exact Hk].
  eapply hoare_consequence; [exact (Hm v)| | |]; cbn; auto.
Qed.

(** ** Commits *)

Lemma saveState_commits : forall h,
  hoare (fun s => history s = h) _saveState (fun _ => committed h) (fun _ => True).
Proof.
  intros h s Hs. rewrite saveState_outcome.
  destruct ((width (canvas s) =? 0) || (height (canvas s) =? 0)); cbn [completion final];
    [exact I|].
  subst h. unfold committed, history, set_redoStack, set_undoStack.
  cbn [fst snd undoStack redoStack maxUndoSteps canvas]. auto.
Qed.

Lemma clear_commits : forall B h,
  hoare (fun s => history s = h) (clear B) (fun _ => committed h) (fun _ => True).
Proof.
  intros B h. unfold clear.
  do 3 (apply hoare_bind_keeps; [solve [keeps_auto]|intro]).
  apply saveState_commits.
Qed.

Lemma handleEnd_active : forall B e s,
  isDrawing s = true ->
  _handleEnd B e s =
  ((if negb (String.eqb (currentTool s) "freehand")
    then coords <- _getCoordinates e ;; _drawShape B (fst coords) (snd coords)
    else ret tt) ;;
   modify (set_isDrawing false) ;;
   _saveState) s.
Proof.
  intros B e s H. unfold _handleEnd. rewrite bind_get, H. reflexivity.
Qed.

Lemma handleEnd_idle : forall B e s,
  isDrawing s = false -> _handleEnd B e s = mkOutcome s [] (Normal tt).
Proof.
  intros B e s H. unfold _handleEnd. rewrite bind_get, H. reflexivity.
Qed.

Lemma handleMove_idle : forall B e s,
  isDrawing s = false -> _handleMove B e s = mkOutcome s [] (Normal tt).
Proof.
  intros B e s H. unfold _handleMove. rewrite bind_get, H. reflexivity.
Qed.

Lemma handleEnd_commits : forall B e s,
  isDrawing s = true -> returned (_handleEnd B e s) = true ->
  committed (history s) (final (_handleEnd B e s)) /\
  isDrawing (final (_handleEnd B e s)) = false.
Proof.
  intros B e s H R. rewrite (handleEnd_active B e s H) in *.
  set (shape := if negb (String.eqb (currentTool s) "freehand")
                then coords <- _getCoordinates e ;; _drawShape B (fst coords) (snd coords)
                else ret tt) in *.
  assert (Hk : keeps history shape).
  { subst shape. destruct (negb (String.eqb (currentTool s) "freehand")); keeps_auto. }
  split.
  - assert (Hh : hoare (fun s0 => history s0 = history s)
                   (shape ;; modify (set_isDrawing false) ;; _saveState)
                   (fun _ => committed (history s)) (fun _ => True)).
    { apply hoare_bind_keeps; [exact Hk|intro].
      apply hoare_bind_keeps; [solve [keeps_auto]|intro].
      apply saveState_commits. }
    destruct (hoare_returned _ _ _ _ _ s Hh eq_refl R) as (a & _ & Hc). exact Hc.
  - apply bind_returned in R as (a & _ & R & F & _). rewrite F.
    rewrite bind_modify in *.
    rewrite (keeps_final _ _ isDrawing _saveState).
    + reflexivity.
    + apply keeps_of_final. intros s0. rewrite saveState_outcome.
      destruct ((width (canvas s0) =? 0) || (height (canvas s0) =? 0)); reflexivity.
Qed.

Lemma clear_commits_history : forall B s,
  returned (clear B s) = true -> committed (history s) (final (clear B s)).
Proof.
  intros B s R.
  destruct (hoare_returned _ _ _ _ _ s (clear_commits B (history s)) eq_refl R)
    as (a & _ & Hc).
  exact Hc.
Qed.

Lemma tl_snoc : forall (A : Type) (l : list A) x, l <> [] -> tl (l ++ [x]) = tl l ++ [x].
Proof. intros A l x H. destruct l; [congruence|reflexivity]. Qed.

(** A commit on a full undo stack drops the oldest snapshot. *)
Lemma committed_full : forall s s',
  committed (history s) s' ->
  0 < maxUndoSteps s -> List.length (undoStack s) = maxUndoSteps s ->
  undoStack s' = tl (undoStack s) ++ [snapshot (canvas s')].
Proof.
  intros s s' (Hu & _ & _) Hpos Hfull. unfold history in Hu. cbn [fst snd] in Hu.
  rewrite Hu.
  replace (maxUndoSteps s <? List.length (undoStack s ++ [snapshot (canvas s')])) with true
    by (symmetry; apply Nat.ltb_lt; rewrite length_app; cbn; lia).
  apply tl_snoc. intros E. rewrite E in Hfull. cbn in Hfull. lia.
Qed.

(** A commit below the maximum drops nothing. *)
Lemma committed_room : forall s s',
  committed (history s) s' ->
  List.length (undoStack s) < maxUndoSteps s ->
  undoStack s' = undoStack s ++ [snapshot (canvas s')].
Proof.
  intros s s' (Hu & _ & _) Hroom. unfold history in Hu. cbn [fst snd] in Hu.
  rewrite Hu.
  replace (maxUndoSteps s <? List.length (undoStack s ++ [snapshot (canvas s')])) with false
    by (symmetry; apply Nat.ltb_ge; rewrite length_app; cbn; lia).
  reflexivity.
Qed.

(** C2. In every reachable engine the undo stack is no longer than
    [maxUndoSteps], which is 50; every event and call keeps it so; and a
    commit (a gesture end or [clear()]) on a full undo stack drops its
    oldest snapshot and puts the new one on top. Whatever the maximum is set
    to, an engine whose two stacks together hold no more snapshots than the
    maximum stays so under every event and call, and none changes the
    maximum. *)
Theorem undo_stack_bounded : forall B s,
  reachable B s ->
  maxUndoSteps s = 50 /\
  List.length (undoStack s) <= maxUndoSteps s /\
  (forall op,
     List.length (undoStack (final (perform B op s)))
     <= maxUndoSteps (final (perform B op s))) /\
  (forall e,
     isDrawing s = true -> returned (_handleEnd B e s) = true ->
     List.length (undoStack s) = maxUndoSteps s ->
     undoStack (final (_handleEnd B e s)) =
     tl (undoStack s) ++ [snapshot (canvas (final (_handleEnd B e s)))]) /\
  (returned (clear B s) = true ->
   List.length (undoStack s) = maxUndoSteps s ->
   undoStack (final (clear B s)) =
   tl (undoStack s) ++ [snapshot (canvas (final (clear B s)))]) /\
  (forall s0 op,
     bounded s0 ->
     bounded (final (perform B op s0)) /\
     maxUndoSteps (final (perform B op s0)) = maxUndoSteps s0).
Proof.
  intros B s H. destruct (reachable_bounded B s H) as [Hb Hm].
  split; [exact Hm|]. split; [unfold bounded in Hb; lia|]. split; [|split; [|split]].
  - intros op.
    destruct (reachable_bounded B _ (reachable_step B s op H)) as [Hb' _].
    unfold bounded in Hb'. lia.
  - intros e Hd R Hfull.
    destruct (handleEnd_commits B e s Hd R) as [Hc _].
    apply (committed_full s _ Hc); lia.
  - intros R Hfull.
    apply (committed_full s _ (clear_commits_history B s R)); lia.
  - intros s0 op H0. split.
    + apply preserves_final; [apply perform_preserves_bounded|exact H0].
    + apply (keeps_final _ _ maxUndoSteps (perform B op) s0 (perform_keeps_max B op)).
Qed.

(** ** Bitmaps the engine holds

    Every bitmap the canvas API hands out holds exactly [width * height]
    pixels in row-major order, so that it is equal to a copy of itself. *)

Lemma tabulate_wellFormed : forall w h f, wellFormed (tabulate w h f).
Proof.
  intros w h f. unfold wellFormed, snapshot.
  rewrite width_tabulate, height_tabulate.
  apply tabulate_ext. intros x y Hx Hy. apply getPixel_tabulate; assumption.
Qed.

Lemma map_constant : forall (A B : Type) (b : B) (l : list A),
  map (fun _ => b) l = repeat b (List.length l).
Proof.
  intros A B b l. induction l as [|a l IH]; cbn; [reflexivity|].
  rewrite IH. reflexivity.
Qed.

Lemma blank_tabulate : forall w h, blank w h = tabulate w h (fun _ _ => transparent).
Proof.
  intros w h. unfold blank, tabulate. f_equal.
  rewrite map_constant, length_seq. reflexivity.
Qed.

Lemma blank_wellFormed : forall w h, wellFormed (blank w h).
Proof. intros w h. rewrite blank_tabulate. apply tabulate_wellFormed. Qed.

Lemma blit_wellFormed : forall img c, wellFormed (blit img c).
Proof. intros img c. apply tabulate_wellFormed. Qed.

Lemma composite_wellFormed : forall B src dst, wellFormed (composite B src dst).
Proof. intros B src dst. apply tabulate_wellFormed. Qed.

(** Writing a snapshot back onto a bitmap of its size gives the snapshot. *)
Lemma blit_snapshot : forall c1 c,
  width c = width c1 -> height c = height c1 ->
  blit (snapshot c1) c = snapshot c1.
Proof.
  intros c1 c Hw Hh. unfold blit, snapshot at 3. rewrite Hw, Hh.
  apply tabulate_ext. intros x y Hx Hy.
  unfold snapshot. rewrite width_tabulate, height_tabulate.
  apply Nat.ltb_lt in Hx as Hx', Hy as Hy'. rewrite Hx', Hy'. cbn [andb].
  apply getPixel_tabulate; assumption.
Qed.

(** An assignment of a new bitmap to the canvas. *)
Ltac new_canvas :=
  apply preserves_modify;
  let s := fresh "s" in let H := fresh "H" in
  intros s H; unfold canvasWellFormed;
  first [ apply tabulate_wellFormed | apply blank_wellFormed
        | apply blit_wellFormed | apply composite_wellFormed ].

Lemma saveState_keeps_canvas : keeps canvas _saveState.
Proof.
  apply keeps_of_final. intros s. rewrite saveState_outcome.
  destruct ((width (canvas s) =? 0) || (height (canvas s) =? 0)); reflexivity.
Qed.

Lemma undo_preserves_wellFormed : preserves canvasWellFormed undo.
Proof.
  apply preserves_of_final. intros s H.
  destruct (Nat.le_gt_cases (List.length (undoStack s)) 1) as [L|L].
  - rewrite (undo_floor s L). exact H.
  - destruct (two_on_top _ _ L) as (rest & a & b & E).
    rewrite (undo_step s rest a b E). apply blit_wellFormed.
Qed.

Lemma redo_preserves_wellFormed : preserves canvasWellFormed redo.
Proof.
  apply preserves_of_final. intros s H.
  destruct (redoStack s) as [|x l] eqn:E.
  - rewrite (redo_floor s E). exact H.
  - destruct (one_on_top _ (x :: l)) as (rest & a & E'); [discriminate|].
    rewrite E' in E. rewrite (redo_step s rest a E). apply blit_wellFormed.
Qed.

Lemma perform_preserves_wellFormed : forall B op,
  preserves canvasWellFormed (perform B op).
Proof.
  intros B op. destruct op; autounfold with methods; unfold destroy;
    repeat first
      [ apply (keeps_preserves _ _ canvas wellFormed _ saveState_keeps_canvas)
      | apply undo_preserves_wellFormed
      | apply redo_preserves_wellFormed
      | preserves_step
      | new_canvas ].
Qed.

Lemma preserves_hoare : forall A P (m : M A),
  preserves P m -> hoare P m (fun _ => P) P.
Proof. intros A P m H. exact H. Qed.

Lemma constructor_wellFormed : forall B element ow oh,
  canvasWellFormed (final (constructor B element ow oh)).
Proof.
  intros B element ow oh. rewrite constructor_unfold.
  assert (H : hoare (fun _ => True) (_initializeCanvas B ow oh ;; _saveState)
                (fun _ => canvasWellFormed) canvasWellFormed).
  { unfold _initializeCanvas.
    eapply hoare_bind with (R := fun _ => canvasWellFormed).
    - eapply hoare_bind with (R := fun _ => canvasWellFormed).
      + apply hoare_modify. intros s _. apply blank_wellFormed.
      + intro. apply preserves_hoare. autounfold with methods.
        repeat first [ preserves_step | new_canvas ].
    - intro. apply preserves_hoare.
      apply (keeps_preserves _ _ canvas wellFormed _ saveState_keeps_canvas). }
  specialize (H (initialFields element) I).
  destruct (completion ((_initializeCanvas B ow oh;; _saveState) (initialFields element)));
    exact H.
Qed.

Lemma reachable_wellFormed : forall B s, reachable B s -> canvasWellFormed s.
Proof.
  intros B s H. induction H as [element ow oh R|s op H IH].
  - apply constructor_wellFormed.
  - apply preserves_final; [apply perform_preserves_wellFormed|exact IH].
Qed.

Lemma reachable_run : forall B ops s, reachable B s -> reachable B (run B ops s).
Proof.
  intros B ops. induction ops as [|op ops IH]; intros s H; cbn [run].
  - exact H.
  - apply IH. apply reachable_step. exact H.
Qed.

(** ** Actions that commit *)

Lemma committed_topIsCurrent : forall h s,
  committed h s -> redoStack s = [] /\ topIsCurrent s.
Proof.
  intros h s (Hu & Hr & _). split; [exact Hr|].
  intros rest top E. rewrite E in Hu.
  destruct (snd h <? List.length (fst (fst h) ++ [snapshot (canvas s)])).
  - destruct (fst (fst h)) as [|a u]; cbn [app tl] in Hu.
    + destruct rest; discriminate.
    + apply app_inj_tail in Hu. apply Hu.
  - apply app_inj_tail in Hu. apply Hu.
Qed.

Lemma handleStart_active : forall B e s, isDrawing (final (_handleStart B e s)) = true.
Proof.
  intros B e s. unfold _handleStart. rewrite bind_modify.
  rewrite keeps_final; [reflexivity|]. keeps_auto.
Qed.

Lemma moves_keep_isDrawing : forall B moves s,
  isDrawing (run B (map gestureMove moves) s) = isDrawing s.
Proof.
  intros B moves. induction moves as [|e moves IH]; intros s; cbn [map run].
  - reflexivity.
  - rewrite IH. apply (keeps_final _ _ isDrawing (_handleMove B e)).
    apply handleMove_keeps_isDrawing.
Qed.

Lemma performAction_gesture : forall B settings down moves up s,
  performAction B (drawGesture settings down moves up) s =
  _handleEnd B up
    (run B (map gestureMove moves)
       (final (_handleStart B down (run B (map settingOp settings) s)))).
Proof. reflexivity. Qed.

Lemma performAction_clear : forall B settings s,
  performAction B (clearCanvas settings) s = clear B (run B (map settingOp settings) s).
Proof. reflexivity. Qed.

Lemma beforeCommit_gesture : forall B settings down moves up s,
  beforeCommit B (drawGesture settings down moves up) s =
  run B (map gestureMove moves)
    (final (_handleStart B down (run B (map settingOp settings) s))).
Proof. reflexivity. Qed.

Lemma performAction_commits : forall B a s,
  returned (performAction B a s) = true ->
  committed (history (beforeCommit B a s)) (final (performAction B a s)).
Proof.
  intros B a s R. destruct a as [settings down moves up|settings].
  - rewrite performAction_gesture in *. rewrite beforeCommit_gesture.
    apply handleEnd_commits; [|exact R].
    rewrite moves_keep_isDrawing. apply handleStart_active.
  - rewrite performAction_clear in *.
    apply clear_commits_history. exact R.
Qed.

Lemma performAction_reachable : forall B a s,
  reachable B s -> reachable B (final (performAction B a s)).
Proof.
  intros B a s H. unfold performAction. apply reachable_step.
  destruct a as [settings down moves up|settings]; cbn [beforeCommit].
  - apply reachable_run.
    apply (reachable_step B _ (gestureStart down)).
    apply reachable_run. exact H.
  - apply reachable_run. exact H.
Qed.

Lemma performActions_reachable : forall B acts s s1,
  reachable B s -> performActions B acts s = Some s1 -> reachable B s1.
Proof.
  intros B acts. induction acts as [|a acts IH]; intros s s1 H E; cbn [performActions] in E.
  - injection E as <-. exact H.
  - destruct (returned (performAction B a s)); [|discriminate].
    apply (IH _ _ (performAction_reachable B a s H) E).
Qed.

(** After a last committed action the engine is as a commit leaves it. *)
Lemma performActions_committed : forall B acts s s1,
  acts <> [] -> performActions B acts s = Some s1 ->
  exists h, committed h s1.
Proof.
  intros B acts. induction acts as [|a acts IH]; intros s s1 Hne E; [congruence|].
  cbn [performActions] in E.
  destruct (returned (performAction B a s)) eqn:R; [|discriminate].
  destruct acts as [|a' acts'].
  - cbn [performActions] in E. injection E as <-.
    eexists. apply performAction_commits. exact R.
  - apply (IH _ _ ltac:(discriminate) E).
Qed.

(** ** Undo and redo, in a row *)

Lemma undoTimes_popped : forall n s,
  exists popped,
    undoStack s = undoStack (undoTimes n s) ++ rev popped /\
    redoStack (undoTimes n s) = redoStack s ++ popped /\
    List.length popped <= n /\
    width (canvas (undoTimes n s)) = width (canvas s) /\
    height (canvas (undoTimes n s)) = height (canvas s) /\
    (popped = [] -> canvas (undoTimes n s) = canvas s).
Proof.
  induction n as [|n IH]; intros s; cbn [undoTimes].
  - exists []. cbn. rewrite !app_nil_r. repeat split; auto.
  - destruct (Nat.le_gt_cases (List.length (undoStack s)) 1) as [L|L].
    + rewrite (undo_floor s L). cbn [final].
      destruct (IH s) as (popped & H1 & H2 & H3 & H4 & H5 & H6).
      exists popped. repeat split; auto.
    + destruct (two_on_top _ _ L) as (rest & a & b & E).
      rewrite (undo_step s rest a b E). cbn [final].
      match goal with |- context [undoTimes n ?s'] =>
        destruct (IH s') as (popped & H1 & H2 & H3 & H4 & H5 & H6) end.
      cbn [undoStack redoStack canvas set_ctx set_canvas set_redoStack set_undoStack] in *.
      exists (b :: popped). repeat split.
      * rewrite E. cbn [rev]. rewrite app_assoc, <- H1, <- app_assoc. reflexivity.
      * rewrite H2, <- app_assoc. reflexivity.
      * cbn. lia.
      * rewrite H4. apply width_blit.
      * rewrite H5. apply height_blit.
      * discriminate.
Qed.

Lemma redoTimes_empty : forall n s, redoStack s = [] -> redoTimes n s = s.
Proof.
  induction n as [|n IH]; intros s H; cbn [redoTimes]; [reflexivity|].
  rewrite (redo_floor s H). cbn [final]. apply IH. exact H.
Qed.

Lemma redoTimes_all : forall n s bottom rest,
  redoStack s = bottom :: rest -> List.length (redoStack s) <= n ->
  exists c,
    canvas (redoTimes n s) = blit bottom c /\
    width c = width (canvas s) /\ height c = height (canvas s) /\
    undoStack (redoTimes n s) = undoStack s ++ rev (redoStack s) /\
    redoStack (redoTimes n s) = [].
Proof.
  induction n as [|n IH]; intros s bottom rest E L.
  - rewrite E in L. cbn in L. lia.
  - cbn [redoTimes].
    destruct (one_on_top _ (bottom :: rest)) as (front & top & E'); [discriminate|].
    rewrite E' in E. rewrite (redo_step s front top E). cbn [final].
    destruct front as [|b front].
    + cbn [app] in E'. injection E' as -> ->.
      rewrite redoTimes_empty by reflexivity.
      cbn [undoStack redoStack canvas set_ctx set_canvas set_redoStack set_undoStack].
      exists (canvas s). rewrite E. cbn. auto.
    + cbn [app] in E'. injection E' as -> Er.
      match goal with |- context [redoTimes n ?s'] =>
        destruct (IH s' b front) as (c & H1 & H2 & H3 & H4 & H5) end.
      * reflexivity.
      * cbn [redoStack set_ctx set_canvas set_redoStack set_undoStack].
        rewrite E, length_app in L. cbn in L |- *. lia.
      * cbn [undoStack redoStack canvas set_ctx set_canvas set_redoStack set_undoStack] in *.
        exists c. repeat split; auto.
        rewrite H4, E. rewrite rev_app_distr. cbn [rev app].
        rewrite <- app_assoc. reflexivity.
Qed.

(** After a commit, [n] undos and then [n] redos bring back the canvas and
    both stacks. *)
Lemma undo_redo_restores : forall h s n,
  committed h s -> canvasWellFormed s ->
  canvas (redoTimes n (undoTimes n s)) = canvas s /\
  undoStack (redoTimes n (undoTimes n s)) = undoStack s /\
  redoStack (redoTimes n (undoTimes n s)) = [].
Proof.
  intros h s n Hc Hwf. destruct (committed_topIsCurrent h s Hc) as [Hr Htop].
  destruct (undoTimes_popped n s) as (popped & H1 & H2 & H3 & H4 & H5 & H6).
  rewrite Hr in H2. cbn [app] in H2.
  destruct popped as [|b popped].
  - rewrite redoTimes_empty by exact H2.
    rewrite (H6 eq_refl). cbn [rev] in H1. rewrite app_nil_r in H1. auto.
  - destruct (redoTimes_all n (undoTimes n s) b popped H2) as (c & G1 & G2 & G3 & G4 & G5).
    { rewrite H2. exact H3. }
    assert (Hb : b = snapshot (canvas s)).
    { apply (Htop (undoStack (undoTimes n s) ++ rev popped)).
      rewrite H1. cbn [rev]. rewrite app_assoc. reflexivity. }
    split; [|split].
    + rewrite G1, Hb. rewrite blit_snapshot by congruence. exact Hwf.
    + rewrite G4, H2. symmetry. exact H1.
    + exact G5.
Qed.

(** C1. From a reachable engine, after [N >= 1] committed actions, [N]
    calls of [undo()] followed by [N] calls of [redo()] leave the canvas
    bitmap equal to what it was right after the last action: the same
    size and the same pixels. *)
Theorem undo_redo_symmetry : forall B s acts s1,
  reachable B s ->
  acts <> [] ->
  performActions B acts s = Some s1 ->
  canvas (redoTimes (List.length acts) (undoTimes (List.length acts) s1)) = canvas s1.
Proof.
  intros B s acts s1 Hs Hne E.
  destruct (performActions_committed B acts s s1 Hne E) as [h Hc].
  apply (undo_redo_restores h s1 (List.length acts) Hc).
  apply (reachable_wellFormed B). apply (performActions_reachable B acts s s1 Hs E).
Qed.

(** ** Snapshots of the size of the canvas *)

Lemma keeps_frame_fit : forall A (m : M A), keeps frame m -> preserves snapshotsFit m.
Proof.
  intros A m H.
  apply (keeps_preserves _ _ frame
    (fun f => Forall (fun snap => width snap = fst (snd f) /\ height snap = snd (snd f))
                (fst (fst (fst f))) /\
              Forall (fun snap => width snap = fst (snd f) /\ height snap = snd (snd f))
                (snd (fst (fst f)))) m H).
Qed.

Lemma Forall_tl : forall (A : Type) (P : A -> Prop) l, Forall P l -> Forall P (tl l).
Proof. intros A P l H. destruct H; [constructor|assumption]. Qed.

Lemma snapshot_fits : forall c, fits c (snapshot c).
Proof. intros c. split; reflexivity. Qed.

Lemma saveState_preserves_fit : preserves snapshotsFit _saveState.
Proof.
  apply preserves_of_final. intros s [Hu Hr].
  destruct (returned (_saveState s)) eqn:R.
  - rewrite (saveState_returned s R). unfold snapshotsFit, set_redoStack, set_undoStack.
    cbn [undoStack redoStack canvas]. split; [|constructor].
    assert (H : Forall (fits (canvas s)) (undoStack s ++ [snapshot (canvas s)])).
    { apply Forall_app. split; [exact Hu|]. constructor; [|constructor].
      apply snapshot_fits. }
    destruct (maxUndoSteps s <? List.length (undoStack s ++ [snapshot (canvas s)]));
      [apply Forall_tl|]; exact H.
  - rewrite (saveState_threw s R). split; assumption.
Qed.

Lemma undo_preserves_fit : preserves snapshotsFit undo.
Proof.
  apply preserves_of_final. intros s [Hu Hr].
  destruct (Nat.le_gt_cases (List.length (undoStack s)) 1) as [L|L].
  - rewrite (undo_floor s L). split; assumption.
  - destruct (two_on_top _ _ L) as (rest & a & b & E).
    rewrite (undo_step s rest a b E). unfold snapshotsFit.
    cbn [final undoStack redoStack canvas set_ctx set_canvas set_redoStack set_undoStack].
    rewrite E in Hu. apply Forall_app in Hu as [Hrest Hab].
    inversion Hab as [|? ? Ha Hb']. inversion Hb' as [|? ? Hb _]. subst.
    split; apply Forall_app; split; auto.
Qed.

Lemma redo_preserves_fit : preserves snapshotsFit redo.
Proof.
  apply preserves_of_final. intros s [Hu Hr].
  destruct (redoStack s) as [|x l] eqn:E.
  - rewrite (redo_floor s E). unfold snapshotsFit. cbn [final]. rewrite E.
    split; [assumption|constructor].
  - destruct (one_on_top _ (x :: l)) as (rest & a & E'); [discriminate|].
    rewrite E' in *. rewrite (redo_step s rest a E). unfold snapshotsFit.
    cbn [final undoStack redoStack canvas set_ctx set_canvas set_redoStack set_undoStack].
    apply Forall_app in Hr as [Hrest Ha]. inversion Ha as [|? ? Ha' _]. subst.
    split; [apply Forall_app; split; auto|exact Hrest].
Qed.

Lemma perform_preserves_fit : forall B op,
  isResize op = false -> preserves snapshotsFit (perform B op).
Proof.
  intros B op Hr. destruct op; try discriminate; cbn [perform];
    try (apply keeps_frame_fit; solve [keeps_auto]).
  - (* gestureEnd *)
    unfold _handleEnd. apply preserves_bind; [apply preserves_get|intros s0].
    destruct (negb (isDrawing s0)); [apply preserves_ret|].
    apply preserves_bind; [|intros _].
    + apply keeps_frame_fit.
      destruct (negb (String.eqb (currentTool s0) "freehand")); keeps_auto.
    + apply preserves_bind; [apply keeps_frame_fit; keeps_auto|intros _].
      apply saveState_preserves_fit.
  - (* undo *)
    apply preserves_bind; [apply undo_preserves_fit|intro; apply preserves_ret].
  - (* redo *)
    apply preserves_bind; [apply redo_preserves_fit|intro; apply preserves_ret].
  - (* clear *)
    unfold clear.
    do 3 (apply preserves_bind; [apply keeps_frame_fit; solve [keeps_auto]|intros _]).
    apply saveState_preserves_fit.
  - (* destroy *)
    unfold destroy. apply preserves_of_final. intros s _.
    split; constructor.
Qed.

Lemma run_fit : forall B ops s,
  forallb (fun op => negb (isResize op)) ops = true ->
  snapshotsFit s -> snapshotsFit (run B ops s).
Proof.
  intros B ops. induction ops as [|op ops IH]; intros s Hr H.
  - exact H.
  - cbn [run]. cbn [forallb] in Hr. apply andb_true_iff in Hr as [Hr1 Hr2].
    apply negb_true_iff in Hr1. apply IH; [exact Hr2|].
    apply preserves_final; [apply perform_preserves_fit; exact Hr1|exact H].
Qed.

Lemma constructor_fit : forall B element ow oh,
  returned (constructor B element ow oh) = true ->
  snapshotsFit (final (constructor B element ow oh)).
Proof.
  intros B element ow oh R.
  destruct (constructor_history B element ow oh R) as (Hu & Hr & _).
  unfold snapshotsFit. rewrite Hu, Hr. split; [|constructor].
  constructor; [|constructor]. apply snapshot_fits.
Qed.

(** C3, as the code has it. [undo()] on an undo stack of at most one
    snapshot returns [false] and changes nothing: not the canvas, not a stack
    (it prints one line); a new engine is in that case. On a longer stack it
    takes the top snapshot off, puts it on the redo stack, writes the
    snapshot that is now on top onto the canvas at the origin, and returns
    [true]. Writing does not restore the canvas to the snapshot in general:
    the canvas keeps its size, takes the pixels of the snapshot that lie
    inside it and keeps its own elsewhere. It shows the snapshot pixel for
    pixel when the snapshot has its size, as every snapshot has in an engine
    that was not resized. [undo()] never throws. *)
Theorem undo_contract : forall B element offsetWidth offsetHeight ops s,
  (List.length (undoStack s) <= 1 ->
   undo s = mkOutcome s [console_log "Nothing to undo"] (Normal false)) /\
  (returned (constructor B element offsetWidth offsetHeight) = true ->
   undo (final (constructor B element offsetWidth offsetHeight)) =
   mkOutcome (final (constructor B element offsetWidth offsetHeight))
     [console_log "Nothing to undo"] (Normal false)) /\
  (1 < List.length (undoStack s) ->
   exists rest previousState currentState,
     undoStack s = rest ++ [previousState; currentState] /\
     completion (undo s) = Normal true /\
     undoStack (final (undo s)) = rest ++ [previousState] /\
     redoStack (final (undo s)) = redoStack s ++ [currentState] /\
     canvas (final (undo s)) = blit previousState (canvas s) /\
     (width (canvas (final (undo s))) = width (canvas s) /\
      height (canvas (final (undo s))) = height (canvas s)) /\
     (forall x y,
        getPixel (canvas (final (undo s))) x y =
        if (x <? width previousState) && (y <? height previousState) &&
           ((x <? width (canvas s)) && (y <? height (canvas s)))
        then getPixel previousState x y
        else getPixel (canvas s) x y) /\
     (fits (canvas s) previousState ->
      samePixels (canvas (final (undo s))) previousState)) /\
  (returned (constructor B element offsetWidth offsetHeight) = true ->
   forallb (fun op => negb (isResize op)) ops = true ->
   s = run B ops (final (constructor B element offsetWidth offsetHeight)) ->
   Forall (fits (canvas s)) (undoStack s)) /\
  returned (undo s) = true.
Proof.
  intros B element ow oh ops s. split; [|split; [|split; [|split]]].
  - apply undo_floor.
  - intros R. apply undo_floor.
    destruct (constructor_history B element ow oh R) as (Hu & _).
    rewrite Hu. cbn. lia.
  - intros L. destruct (two_on_top _ _ L) as (rest & a & b & E).
    exists rest, a, b. rewrite (undo_step s rest a b E).
    cbn [completion final undoStack redoStack canvas
         set_ctx set_canvas set_redoStack set_undoStack].
    repeat (split; [reflexivity|]). split; [exact E|].
    repeat (split; [reflexivity|]).
    split; [split; reflexivity|]. split; [intros x y; apply getPixel_blit|].
    intros [Hw Hh]. apply blit_same_size; assumption.
  - intros R Hr ->.
    apply (run_fit B ops _ Hr (constructor_fit B element ow oh R)).
  - destruct (Nat.le_gt_cases (List.length (undoStack s)) 1) as [L|L].
    + rewrite (undo_floor s L). reflexivity.
    + destruct (two_on_top _ _ L) as (rest & a & b & E).
      rewrite (undo_step s rest a b E). reflexivity.
Qed.

(** ** Redo after a commit *)

(** C4. A committed action leaves the redo stack empty, so that [redo()]
    right after it returns [false] and changes nothing; in particular when
    the action came after one or more calls of [undo()]. *)
Theorem redo_invalidation : forall B a s n,
  (returned (performAction B a s) = true ->
   redoStack (final (performAction B a s)) = [] /\
   redo (final (performAction B a s)) =
   mkOutcome (final (performAction B a s)) [console_log "Nothing to redo"] (Normal false)) /\
  (0 < n -> returned (performAction B a (undoTimes n s)) = true ->
   redo (final (performAction B a (undoTimes n s))) =
   mkOutcome (final (performAction B a (undoTimes n s)))
     [console_log "Nothing to redo"] (Normal false)).
Proof.
  intros B a s n.
  assert (G : forall s0, returned (performAction B a s0) = true ->
                redoStack (final (performAction B a s0)) = []).
  { intros s0 R. destruct (performAction_commits B a s0 R) as (_ & Hr & _). exact Hr. }
  split.
  - intros R. split; [apply G; exact R|]. apply redo_floor. apply G. exact R.
  - intros _ R. apply redo_floor. apply G. exact R.
Qed.

(** ** Choosing a tool *)

(** What [validTools.includes(tool)] decides. *)
Lemma includes_validTools : forall tool,
  includes validTools tool = true <->
  tool = "freehand" \/ tool = "rectangle" \/ tool = "circle" \/ tool = "line".
Proof.
  intros tool. unfold validTools. cbn [includes].
  destruct (String.eqb_spec "freehand" tool) as [E1|N1]; [intuition congruence|].
  destruct (String.eqb_spec "rectangle" tool) as [E2|N2]; [intuition congruence|].
  destruct (String.eqb_spec "circle" tool) as [E3|N3]; [intuition congruence|].
  destruct (String.eqb_spec "line" tool) as [E4|N4]; [intuition congruence|].
  split; [discriminate|]. intros [H|[H|[H|H]]]; congruence.
Qed.

(** C6. [setTool] with one of the four tool names makes it the current tool
    and changes nothing else; with any other string it changes nothing at
    all, prints one warning, and returns. *)
Theorem setTool_contract : forall tool s,
  (tool = "freehand" \/ tool = "rectangle" \/ tool = "circle" \/ tool = "line" ->
   setTool tool s = mkOutcome (set_currentTool tool s) [] (Normal tt) /\
   currentTool (final (setTool tool s)) = tool) /\
  (tool <> "freehand" -> tool <> "rectangle" -> tool <> "circle" -> tool <> "line" ->
   setTool tool s =
   mkOutcome s
     [console_warn ("Invalid tool: " ++ tool ++
                    ". Valid tools are: freehand, rectangle, circle, line")%string]
     (Normal tt)).
Proof.
  intros tool s. split.
  - intros H. apply includes_validTools in H. unfold setTool. rewrite H.
    split; reflexivity.
  - intros N1 N2 N3 N4. unfold setTool.
    destruct (includes validTools tool) eqn:E.
    + apply includes_validTools in E. intuition congruence.
    + reflexivity.
Qed.

(** ** Events while no gesture is active *)

Lemma saveState_keeps_isDrawing : keeps isDrawing _saveState.
Proof.
  apply keeps_of_final. intros s. rewrite saveState_outcome.
  destruct ((width (canvas s) =? 0) || (height (canvas s) =? 0)); reflexivity.
Qed.

Lemma undo_keeps_isDrawing : keeps isDrawing undo.
Proof.
  apply keeps_of_final. intros s.
  destruct (Nat.le_gt_cases (List.length (undoStack s)) 1) as [L|L].
  - rewrite (undo_floor s L). reflexivity.
  - destruct (two_on_top _ _ L) as (rest & a & b & E).
    rewrite (undo_step s rest a b E). reflexivity.
Qed.

Lemma redo_keeps_isDrawing : keeps isDrawing redo.
Proof.
  apply keeps_of_final. intros s.
  destruct (redoStack s) as [|x l] eqn:E.
  - rewrite (redo_floor s E). reflexivity.
  - destruct (one_on_top _ (x :: l)) as (rest & a & E'); [discriminate|].
    rewrite E' in E. rewrite (redo_step s rest a E). reflexivity.
Qed.

(** Only a start event makes a gesture active. *)
Lemma perform_stays_idle : forall B op,
  isStart op = false -> preserves (fun s => isDrawing s = false) (perform B op).
Proof.
  intros B op H. destruct op; try discriminate; autounfold with methods; unfold destroy;
    repeat first
      [ apply (saveState_keeps_isDrawing false)
      | apply (undo_keeps_isDrawing false)
      | apply (redo_keeps_isDrawing false)
      | preserves_step
      | apply preserves_modify; intros; reflexivity ].
Qed.

Lemma run_stays_idle : forall B ops s,
  forallb (fun op => negb (isStart op)) ops = true ->
  isDrawing s = false -> isDrawing (run B ops s) = false.
Proof.
  intros B ops. induction ops as [|op ops IH]; intros s Hs H.
  - exact H.
  - cbn [run]. cbn [forallb] in Hs. apply andb_true_iff in Hs as [Hs1 Hs2].
    apply negb_true_iff in Hs1. apply IH; [exact Hs2|].
    apply (preserves_final _ _ (perform B op) s (perform_stays_idle B op Hs1) H).
Qed.

(** C9. While no gesture is active ([isDrawing] is false), a move event and
    an end event return at once: the engine, its canvas and its stacks
    included, stays as it is. No gesture is active in a new engine, nor after
    events and calls without a start event among them, nor after an end event
    whose handler returned. *)
Theorem idle_guard : forall B e element offsetWidth offsetHeight ops s,
  (isDrawing s = false ->
   _handleMove B e s = mkOutcome s [] (Normal tt) /\
   _handleEnd B e s = mkOutcome s [] (Normal tt)) /\
  (returned (constructor B element offsetWidth offsetHeight) = true ->
   forallb (fun op => negb (isStart op)) ops = true ->
   isDrawing (run B ops (final (constructor B element offsetWidth offsetHeight)))
   = false) /\
  (returned (_handleEnd B e s) = true -> isDrawing (final (_handleEnd B e s)) = false).
Proof.
  intros B e element ow oh ops s. split; [|split].
  - intros H. split; [apply handleMove_idle|apply handleEnd_idle]; exact H.
  - intros R Hs. apply (run_stays_idle B ops _ Hs).
    apply (constructor_history B element ow oh R).
  - intros R. destruct (isDrawing s) eqn:D.
    + apply (handleEnd_commits B e s D R).
    + rewrite (handleEnd_idle B e s D). exact D.
Qed.

(** ** A start event *)

(** [_getCoordinates] reads the size of the canvas and nothing else of the
    engine, and changes nothing. *)
Lemma getCoordinates_outcome : forall e s,
  _getCoordinates e s = mkOutcome s [] (completion (_getCoordinates e s)).
Proof.
  intros e s. unfold _getCoordinates. rewrite bind_get.
  destruct e as [bounds cx cy|bounds touches changed]; [reflexivity|].
  destruct (firstTouch touches changed); reflexivity.
Qed.

Lemma getCoordinates_same_canvas : forall e s s',
  canvas s' = canvas s ->
  completion (_getCoordinates e s') = completion (_getCoordinates e s).
Proof.
  intros e s s' H. unfold _getCoordinates. rewrite !bind_get, H.
  destruct e as [bounds cx cy|bounds touches changed]; [reflexivity|].
  destruct (firstTouch touches changed); reflexivity.
Qed.

Lemma bind_known : forall A B (m : M A) (k : A -> M B) s s1 p a,
  m s = mkOutcome s1 p (Normal a) ->
  bind m k s =
  mkOutcome (final (k a s1)) (p ++ printed (k a s1)) (completion (k a s1)).
Proof.
  intros A B m k s s1 p a H. unfold bind. rewrite H.
  destruct (k a s1). reflexivity.
Qed.

Lemma handleStart_outcome : forall B e s x y,
  completion (_getCoordinates e s) = Normal (x, y) ->
  _handleStart B e s =
  if String.eqb (currentTool s) "freehand"
  then mkOutcome (set_ctx (ctx_set_path [moveTo x y] (ctx s)) (started x y s))
         [] (Normal tt)
  else if (width (canvas s) =? 0) || (height (canvas s) =? 0)
  then mkOutcome
         (set_tempCanvas (blank (width (tempCanvas s)) (height (tempCanvas s)))
            (started x y s))
         [] (Throw InvalidStateError)
  else mkOutcome
         (set_tempCanvas
            (composite B (canvas s)
               (blank (width (tempCanvas s)) (height (tempCanvas s))))
            (started x y s))
         [] (Normal tt).
Proof.
  intros B e s x y H. unfold _handleStart. rewrite bind_modify.
  rewrite (bind_known _ _ (_getCoordinates e) _ (set_isDrawing true s)
             (set_isDrawing true s) [] (x, y)).
  2:{ rewrite getCoordinates_outcome.
      rewrite (getCoordinates_same_canvas e s) by reflexivity.
      rewrite H. reflexivity. }
  cbn [fst snd]. rewrite !bind_modify, bind_get.
  change (currentTool (set_last x y (set_start x y (set_isDrawing true s))))
    with (currentTool s).
  fold (started x y s).
  destruct (String.eqb (currentTool s) "freehand").
  - reflexivity.
  - unfold clearRect_temp, drawImage_canvas_to_temp. rewrite bind_modify, bind_get.
    change (canvas (set_tempCanvas _ (started x y s))) with (canvas s).
    destruct ((width (canvas s) =? 0) || (height (canvas s) =? 0)); reflexivity.
Qed.


(** ** Resizing *)

Lemma unsigned_long_in_range : forall default n,
  (Z.of_nat n <= 2147483647)%Z -> unsigned_long default n = n.
Proof.
  intros default n H. unfold unsigned_long.
  rewrite Z.mod_small by lia.
  replace (Z.of_nat n <=? 2147483647)%Z with true by (symmetry; apply Z.leb_le; exact H).
  apply Nat2Z.id.
Qed.

Lemma unsigned_long_above : forall default n,
  (2147483647 < Z.of_nat n mod 4294967296)%Z -> unsigned_long default n = default.
Proof.
  intros default n H. unfold unsigned_long.
  replace (Z.of_nat n mod 4294967296 <=? 2147483647)%Z with false
    by (symmetry; apply Z.leb_gt; exact H).
  reflexivity.
Qed.

Lemma unsigned_long_range : forall default n,
  (Z.of_nat default <= 2147483647)%Z ->
  (Z.of_nat (unsigned_long default n) <= 2147483647)%Z.
Proof.
  intros default n H. unfold unsigned_long.
  pose proof (Z.mod_pos_bound (Z.of_nat n) 4294967296 ltac:(lia)) as Hm.
  destruct (Z.of_nat n mod 4294967296 <=? 2147483647)%Z eqn:E.
  - apply Z.leb_le in E. rewrite Z2Nat.id by lia. exact E.
  - exact H.
Qed.

Lemma resize_outcome : forall w h s,
  resize w h s =
  if (width (canvas s) =? 0) || (height (canvas s) =? 0)
  then mkOutcome s [] (Throw IndexSizeError)
  else mkOutcome
         (set_ctx (resetContext s)
            (set_canvas
               (blit (snapshot (canvas s))
                  (blank (unsigned_long 300 w) (unsigned_long 150 h)))
               (set_tempCanvas (blank (unsigned_long 300 w) (unsigned_long 150 h)) s)))
         [] (Normal tt).
Proof.
  intros w h s. unfold resize, getImageData. rewrite bind_assoc, bind_get. cbv zeta.
  destruct ((width (canvas s) =? 0) || (height (canvas s) =? 0)).
  - reflexivity.
  - rewrite bind_ret. unfold canvas_set_width, canvas_set_height,
      tempCanvas_set_width, tempCanvas_set_height, putImageData.
    rewrite !bind_modify. rewrite applyContextSettings_outcome.
    reflexivity.
Qed.

Lemma handleResize_outcome : forall offsetWidth offsetHeight s,
  _handleResize offsetWidth offsetHeight s =
  if (width (canvas s) =? 0) || (height (canvas s) =? 0)
  then mkOutcome s [] (Throw IndexSizeError)
  else mkOutcome
         (set_ctx (resetContext s)
            (set_canvas (blit (snapshot (canvas s)) (blank offsetWidth offsetHeight))
               (set_tempCanvas (blank offsetWidth offsetHeight) s)))
         [] (Normal tt).
Proof.
  intros ow oh s. unfold _handleResize, getImageData.
  rewrite bind_assoc, bind_get. cbv zeta.
  destruct ((width (canvas s) =? 0) || (height (canvas s) =? 0)).
  - reflexivity.
  - rewrite bind_ret. unfold canvas_set_width, canvas_set_height,
      tempCanvas_set_width, tempCanvas_set_height, putImageData.
    rewrite !bind_modify, bind_get, bind_modify, bind_get, !bind_modify.
    rewrite applyContextSettings_outcome.
    reflexivity.
Qed.

(** The handler of the window's resize event does with the layout size of
    the canvas what [resize] does with the sizes its arguments give. *)
Lemma handleResize_resize : forall w h s,
  _handleResize (unsigned_long 300 w) (unsigned_long 150 h) s = resize w h s.
Proof.
  intros w h s. rewrite handleResize_outcome, resize_outcome. reflexivity.
Qed.

(** On a canvas without pixels [resize] throws before it changes anything. *)
Lemma resize_empty_canvas : forall w h s,
  width (canvas s) = 0 \/ height (canvas s) = 0 ->
  resize w h s = mkOutcome s [] (Throw IndexSizeError).
Proof.
  intros w h s H. rewrite resize_outcome.
  replace ((width (canvas s) =? 0) || (height (canvas s) =? 0)) with true; [reflexivity|].
  symmetry. apply orb_true_iff. destruct H as [H|H]; [left|right];
    apply Nat.eqb_eq; exact H.
Qed.

(** C7, as the code has it. [resize(width, height)] of a canvas that has
    pixels gives the canvas and the scratch canvas the new size and writes
    the former pixels back at the origin, unscaled: what lay outside the new
    size is cut off, and the pixels outside the former size are transparent
    black, as setting a dimension clears them; they are not filled with the
    background colour. The new size is the one given where that is at most
    2^31 - 1; a larger integer is taken modulo 2^32, and where the result is
    above 2^31 - 1 the width becomes 300 and the height 150. The handler of
    the window's resize event does the same with the layout size. Afterwards
    the context holds the engine's stroke colour and width, and round caps
    and joins. On a canvas without pixels the call throws and changes
    nothing. *)
Theorem resize_contract : forall w h s,
  let w' := unsigned_long 300 w in
  let h' := unsigned_long 150 h in
  (((Z.of_nat w <= 2147483647)%Z -> w' = w) /\
   ((Z.of_nat h <= 2147483647)%Z -> h' = h) /\
   ((2147483647 < Z.of_nat w mod 4294967296)%Z -> w' = 300) /\
   ((2147483647 < Z.of_nat h mod 4294967296)%Z -> h' = 150) /\
   (Z.of_nat w' <= 2147483647)%Z /\ (Z.of_nat h' <= 2147483647)%Z) /\
  (width (canvas s) = 0 \/ height (canvas s) = 0 ->
   resize w h s = mkOutcome s [] (Throw IndexSizeError)) /\
  (width (canvas s) <> 0 -> height (canvas s) <> 0 ->
   let s' := final (resize w h s) in
   returned (resize w h s) = true /\
   _handleResize w' h' s = resize w h s /\
   (width (canvas s') = w' /\ height (canvas s') = h') /\
   (width (tempCanvas s') = w' /\ height (tempCanvas s') = h') /\
   (forall x y, x < w' -> y < h' ->
      getPixel (canvas s') x y =
      if (x <? width (canvas s)) && (y <? height (canvas s))
      then getPixel (canvas s) x y
      else transparent) /\
   (strokeStyle (ctx s') = currentColor s /\ lineWidth (ctx s') = strokeWidth s /\
    lineCap (ctx s') = "round" /\ lineJoin (ctx s') = "round")).
Proof.
  intros w h s w' h'. split; [|split; [apply resize_empty_canvas|]].
  - split; [apply unsigned_long_in_range|]. split; [apply unsigned_long_in_range|].
    split; [apply unsigned_long_above|]. split; [apply unsigned_long_above|].
    split; apply unsigned_long_range; lia.
  - intros Hw Hh s'. subst s'.
    split; [|split; [exact (handleResize_resize w h s)|]].
    all: rewrite resize_outcome.
    all: replace ((width (canvas s) =? 0) || (height (canvas s) =? 0)) with false
           by (symmetry; apply orb_false_iff; split; apply Nat.eqb_neq; assumption).
    + reflexivity.
    + cbn [final canvas ctx tempCanvas set_ctx set_canvas set_tempCanvas].
      fold w' h'. clearbody w' h'.
      repeat split.
      intros x y Hx Hy. rewrite getPixel_blit.
      unfold snapshot at 1 2. rewrite width_tabulate, height_tabulate.
      rewrite width_blank, height_blank.
      apply Nat.ltb_lt in Hx, Hy. rewrite Hx, Hy, andb_true_r.
      destruct ((x <? width (canvas s)) && (y <? height (canvas s))) eqn:E.
      * destruct (snapshot_samePixels (canvas s)) as (_ & _ & Hp). apply Hp.
      * apply getPixel_blank.
Qed.

(** ** The bottom of the undo stack *)

Lemma keeps_history_hoare : forall A (m : M A)
  (P E : list ImageData * list ImageData * nat -> Prop),
  keeps history m -> (forall h, P h -> E h) ->
  hoare (fun s => P (history s)) m (fun _ s => P (history s)) (fun s => E (history s)).
Proof.
  intros A m P E Hk HPE.
  eapply hoare_consequence; [exact (keeps_preserves _ _ history P m Hk)| | |]; cbn; auto.
Qed.

Lemma saveState_preserves_hasSnapshot : preserves hasSnapshot _saveState.
Proof.
  apply preserves_of_final. intros s [Hne Hpos].
  destruct (returned (_saveState s)) eqn:R.
  - rewrite (saveState_returned s R). unfold hasSnapshot, set_redoStack, set_undoStack.
    cbn [undoStack maxUndoSteps]. split; [|exact Hpos].
    destruct (undoStack s) as [|a u]; [congruence|].
    destruct (maxUndoSteps s <? List.length ((a :: u) ++ [snapshot (canvas s)])).
    + cbn [app tl]. destruct u; discriminate.
    + discriminate.
  - rewrite (saveState_threw s R). split; assumption.
Qed.

Lemma undo_preserves_hasSnapshot : preserves hasSnapshot undo.
Proof.
  apply preserves_of_final. intros s [Hne Hpos].
  destruct (Nat.le_gt_cases (List.length (undoStack s)) 1) as [L|L].
  - rewrite (undo_floor s L). split; assumption.
  - destruct (two_on_top _ _ L) as (rest & a & b & E).
    rewrite (undo_step s rest a b E). split; [|exact Hpos].
    cbn. destruct rest; discriminate.
Qed.

Lemma redo_preserves_hasSnapshot : preserves hasSnapshot redo.
Proof.
  apply preserves_of_final. intros s [Hne Hpos].
  destruct (redoStack s) as [|x l] eqn:E.
  - rewrite (redo_floor s E). split; assumption.
  - destruct (one_on_top _ (x :: l)) as (rest & a & E'); [discriminate|].
    rewrite E' in E. rewrite (redo_step s rest a E). split; [|exact Hpos].
    cbn. destruct (undoStack s); discriminate.
Qed.

Lemma perform_preserves_hasSnapshot : forall B op,
  isDestroy op = false -> preserves hasSnapshot (perform B op).
Proof.
  intros B op Hd. destruct op; try discriminate; autounfold with methods;
    repeat first
      [ apply saveState_preserves_hasSnapshot
      | apply undo_preserves_hasSnapshot
      | apply redo_preserves_hasSnapshot
      | preserves_step ].
Qed.

Lemma bottomIs_later : forall bottom n h, bottomIs bottom n h -> bottomIs bottom (S n) h.
Proof. intros bottom n h (H1 & H2 & H3). repeat split; auto. Qed.

Lemma hd_error_snoc : forall (A : Type) (l : list A) x b,
  hd_error l = Some b -> hd_error (l ++ [x]) = Some b.
Proof. intros A l x b H. destruct l; [discriminate|exact H]. Qed.

Lemma saveState_bottomIs : forall bottom n,
  S n < 50 ->
  hoare (fun s => bottomIs bottom n (history s)) _saveState
    (fun _ s => bottomIs bottom (S n) (history s))
    (fun s => bottomIs bottom (S n) (history s)).
Proof.
  intros bottom n Hn s (H1 & H2 & H3). unfold history in *. cbn [fst snd] in *.
  rewrite saveState_outcome.
  destruct ((width (canvas s) =? 0) || (height (canvas s) =? 0)); cbn [completion final].
  - repeat split; cbn [fst snd]; auto.
  - unfold bottomIs, set_redoStack, set_undoStack.
    cbn [fst snd undoStack redoStack maxUndoSteps].
    replace (maxUndoSteps s <? List.length (undoStack s ++ [snapshot (canvas s)]))
      with false
      by (symmetry; apply Nat.ltb_ge; rewrite length_app; cbn [List.length]; lia).
    repeat split.
    + apply hd_error_snoc. exact H1.
    + rewrite length_app. cbn [List.length]. lia.
    + exact H3.
Qed.

Lemma undo_bottomIs : forall bottom n,
  preserves (fun s => bottomIs bottom n (history s)) undo.
Proof.
  intros bottom n. apply preserves_of_final. intros s (H1 & H2 & H3).
  unfold history in *. cbn [fst snd] in *.
  destruct (Nat.le_gt_cases (List.length (undoStack s)) 1) as [L|L].
  - rewrite (undo_floor s L). repeat split; assumption.
  - destruct (two_on_top _ _ L) as (rest & a & b & E).
    rewrite (undo_step s rest a b E). unfold bottomIs. cbn.
    rewrite E in H1, H2. rewrite !length_app in *. cbn [List.length] in *.
    repeat split; [|lia|exact H3].
    destruct rest; exact H1.
Qed.

Lemma redo_bottomIs : forall bottom n,
  preserves (fun s => bottomIs bottom n (history s)) redo.
Proof.
  intros bottom n. apply preserves_of_final. intros s (H1 & H2 & H3).
  unfold history in *. cbn [fst snd] in *.
  destruct (redoStack s) as [|x l] eqn:E.
  - rewrite (redo_floor s E). unfold bottomIs, history. cbn [fst snd final]. rewrite E.
    repeat split; assumption.
  - destruct (one_on_top _ (x :: l)) as (rest & a & E'); [discriminate|].
    rewrite E' in *. rewrite (redo_step s rest a E). unfold bottomIs. cbn.
    rewrite !length_app in *. cbn [List.length] in *.
    repeat split; [|lia|exact H3].
    apply hd_error_snoc. exact H1.
Qed.

Lemma handleEnd_bottomIs : forall B e bottom n,
  S n < 50 ->
  hoare (fun s => bottomIs bottom n (history s)) (_handleEnd B e)
    (fun _ s => bottomIs bottom (S n) (history s))
    (fun s => bottomIs bottom (S n) (history s)).
Proof.
  intros B e bottom n Hn. unfold _handleEnd.
  eapply hoare_bind with (R := fun _ s => bottomIs bottom n (history s)).
  - apply hoare_get. auto.
  - intros s0. destruct (negb (isDrawing s0)).
    + apply hoare_ret. intros s. apply bottomIs_later.
    + eapply hoare_bind with (R := fun _ s => bottomIs bottom n (history s)).
      * apply keeps_history_hoare; [|apply bottomIs_later].
        destruct (negb (String.eqb (currentTool s0) "freehand")); keeps_auto.
      * intros _.
        eapply hoare_bind with (R := fun _ s => bottomIs bottom n (history s)).
        -- apply keeps_history_hoare; [keeps_auto|apply bottomIs_later].
        -- intros _. apply saveState_bottomIs. exact Hn.
Qed.

Lemma clear_bottomIs : forall B bottom n,
  S n < 50 ->
  hoare (fun s => bottomIs bottom n (history s)) (clear B)
    (fun _ s => bottomIs bottom (S n) (history s))
    (fun s => bottomIs bottom (S n) (history s)).
Proof.
  intros B bottom n Hn. unfold clear.
  do 3 (eapply hoare_bind with (R := fun _ s => bottomIs bottom n (history s));
        [apply keeps_history_hoare; [solve [keeps_auto]|apply bottomIs_later]|intros _]).
  apply saveState_bottomIs. exact Hn.
Qed.

Lemma hoare_final : forall A P (m : M A) Q s,
  hoare P m (fun _ => Q) Q -> P s -> Q (final (m s)).
Proof.
  intros A P m Q s H Hs. specialize (H s Hs). destruct (completion (m s)); exact H.
Qed.

Lemma perform_bottomIs : forall B op bottom n s,
  isDestroy op = false ->
  n + (if mayCommit op then 1 else 0) < 50 ->
  bottomIs bottom n (history s) ->
  bottomIs bottom (n + (if mayCommit op then 1 else 0))
    (history (final (perform B op s))).
Proof.
  intros B op bottom n s Hd Hn H.
  destruct op; try discriminate; cbn [mayCommit] in *;
    try (rewrite Nat.add_0_r;
         apply (preserves_final _ (fun s => bottomIs bottom n (history s)));
         [|exact H];
         first [ apply (keeps_preserves _ _ history (bottomIs bottom n)); solve [keeps_auto]
               | cbn [perform]; repeat first [ apply undo_bottomIs | apply redo_bottomIs
                                             | preserves_step ] ]).
  - replace (n + 1) with (S n) by lia.
    apply (hoare_final _ _ (perform B (gestureEnd e)) _ s
             (handleEnd_bottomIs B e bottom n ltac:(lia)) H).
  - replace (n + 1) with (S n) by lia.
    apply (hoare_final _ _ (perform B callClear) _ s
             (clear_bottomIs B bottom n ltac:(lia)) H).
Qed.

Lemma hoare_thrown : forall A P (m : M A) Q E s,
  hoare P m Q E -> P s -> returned (m s) = false -> E (final (m s)).
Proof.
  intros A P m Q E s H Hs R. specialize (H s Hs). unfold returned in R.
  destruct (completion (m s)) as [a|e]; [discriminate|exact H].
Qed.

(** A method that ends in [_saveState] and throws leaves the history as it
    was. *)
Lemma saveState_thrown_history : forall h,
  hoare (fun s => history s = h) _saveState (fun _ _ => True) (fun s => history s = h).
Proof.
  intros h s Hs. rewrite saveState_outcome.
  destruct ((width (canvas s) =? 0) || (height (canvas s) =? 0)); cbn [completion final];
    [exact Hs|exact I].
Qed.

Lemma handleEnd_thrown_history : forall B e h,
  hoare (fun s => history s = h) (_handleEnd B e) (fun _ _ => True)
    (fun s => history s = h).
Proof.
  intros B e h. unfold _handleEnd.
  eapply hoare_bind with (R := fun _ s => history s = h).
  - apply hoare_get. auto.
  - intros s0. destruct (negb (isDrawing s0)); [apply hoare_ret; auto|].
    eapply hoare_bind with (R := fun _ s => history s = h).
    + assert (Hk : keeps history
                (if negb (String.eqb (currentTool s0) "freehand")
                 then coords <- _getCoordinates e ;; _drawShape B (fst coords) (snd coords)
                 else ret tt))
        by (destruct (negb (String.eqb (currentTool s0) "freehand")); keeps_auto).
      exact (Hk h).
    + intros _. eapply hoare_bind with (R := fun _ s => history s = h).
      * assert (Hk : keeps history (modify (set_isDrawing false))) by keeps_auto.
        exact (Hk h).
      * intros _. apply saveState_thrown_history.
Qed.

Lemma clear_thrown_history : forall B h,
  hoare (fun s => history s = h) (clear B) (fun _ _ => True) (fun s => history s = h).
Proof.
  intros B h. unfold clear.
  eapply hoare_bind with (R := fun _ s => history s = h);
    [assert (Hk : keeps history (ctx_assign (ctx_set_fillStyle "#ffffff"))) by keeps_auto;
     exact (Hk h)|intros _].
  eapply hoare_bind with (R := fun _ s => history s = h);
    [assert (Hk : keeps history (fillRect_canvas B)) by keeps_auto; exact (Hk h)|intros _].
  eapply hoare_bind with (R := fun _ s => history s = h);
    [assert (Hk : keeps history _applyContextSettings) by keeps_auto; exact (Hk h)|intros _].
  apply saveState_thrown_history.
Qed.

(** An end event or a call of [clear()] that does not commit leaves the
    history as it was. *)
Lemma perform_without_commit : forall B op s,
  mayCommit op = true -> commits B op s = false ->
  history (final (perform B op s)) = history s.
Proof.
  intros B op s Hm Hc. destruct op; try discriminate; cbn [commits perform] in *.
  - destruct (isDrawing s) eqn:D.
    + cbn [andb] in Hc.
      exact (hoare_thrown _ _ _ _ _ s (handleEnd_thrown_history B e (history s)) eq_refl Hc).
    + rewrite (handleEnd_idle B e s D). reflexivity.
  - exact (hoare_thrown _ _ _ _ _ s (clear_thrown_history B (history s)) eq_refl Hc).
Qed.

(** What commits can commit. *)
Lemma commits_mayCommit : forall B op s, commits B op s = true -> mayCommit op = true.
Proof. intros B op s H. destruct op; try discriminate; reflexivity. Qed.

Lemma perform_commits : forall B op s,
  commits B op s = true -> committed (history s) (final (perform B op s)).
Proof.
  intros B op s H. destruct op; try discriminate; cbn [commits perform] in *.
  - apply andb_true_iff in H as [D R]. apply (handleEnd_commits B e s D R).
  - apply clear_commits_history. exact H.
Qed.

Lemma perform_bottomIs_commits : forall B op bottom n s,
  isDestroy op = false ->
  n + (if commits B op s then 1 else 0) < 50 ->
  bottomIs bottom n (history s) ->
  bottomIs bottom (n + (if commits B op s then 1 else 0))
    (history (final (perform B op s))).
Proof.
  intros B op bottom n s Hd Hn H.
  destruct (commits B op s) eqn:C.
  - pose proof (perform_bottomIs B op bottom n s Hd) as K.
    rewrite (commits_mayCommit B op s C) in K. apply K; assumption.
  - rewrite Nat.add_0_r. destruct (mayCommit op) eqn:Hm.
    + rewrite (perform_without_commit B op s Hm C). exact H.
    + pose proof (perform_bottomIs B op bottom n s Hd) as K.
      rewrite Hm, Nat.add_0_r in K. apply K; [lia|exact H].
Qed.

Lemma length_committedSnapshots : forall B op ops s,
  List.length (committedSnapshots B (op :: ops) s) =
  (if commits B op s then 1 else 0)
  + List.length (committedSnapshots B ops (final (perform B op s))).
Proof.
  intros B op ops s. cbn [committedSnapshots]. rewrite length_app.
  destruct (commits B op s); reflexivity.
Qed.

Lemma run_bottomIs : forall B ops bottom n s,
  forallb (fun op => negb (isDestroy op)) ops = true ->
  n + List.length (committedSnapshots B ops s) < 50 ->
  bottomIs bottom n (history s) ->
  hd_error (undoStack (run B ops s)) = Some bottom.
Proof.
  intros B ops. induction ops as [|op ops IH]; intros bottom n s Hd Hn H.
  - apply H.
  - cbn [run]. cbn [forallb] in Hd. apply andb_true_iff in Hd as [Hd1 Hd2].
    apply negb_true_iff in Hd1. rewrite length_committedSnapshots in Hn.
    apply (IH bottom (n + (if commits B op s then 1 else 0))).
    + exact Hd2.
    + lia.
    + apply perform_bottomIs_commits; [exact Hd1|lia|exact H].
Qed.

Lemma run_hasSnapshot : forall B ops s,
  forallb (fun op => negb (isDestroy op)) ops = true ->
  hasSnapshot s -> hasSnapshot (run B ops s).
Proof.
  intros B ops. induction ops as [|op ops IH]; intros s Hd H.
  - exact H.
  - cbn [run]. cbn [forallb] in Hd. apply andb_true_iff in Hd as [Hd1 Hd2].
    apply negb_true_iff in Hd1. apply IH; [exact Hd2|].
    apply preserves_final; [apply perform_preserves_hasSnapshot; exact Hd1|exact H].
Qed.

(** The undo stack while nothing is undone: the newest 50 of the snapshots
    pushed so far. *)
Lemma newest_snoc : forall (A : Type) (all : list A) x,
  (if 50 <? List.length (skipn (List.length all - 50) all ++ [x])
   then tl (skipn (List.length all - 50) all ++ [x])
   else skipn (List.length all - 50) all ++ [x]) =
  skipn (List.length (all ++ [x]) - 50) (all ++ [x]).
Proof.
  intros A all x. rewrite !length_app, length_skipn. cbn [List.length].
  destruct (Nat.lt_ge_cases (List.length all) 50) as [L|L].
  - replace (List.length all - 50) with 0 by lia.
    replace (List.length all + 1 - 50) with 0 by lia.
    rewrite !skipn_0.
    replace (50 <? List.length all - 0 + 1) with false
      by (symmetry; apply Nat.ltb_ge; lia).
    reflexivity.
  - replace (50 <? List.length all - (List.length all - 50) + 1) with true
      by (symmetry; apply Nat.ltb_lt; lia).
    rewrite tl_snoc
      by (intros E; apply (f_equal (@List.length A)) in E;
          rewrite length_skipn in E; cbn in E; lia).
    change (tl (skipn (List.length all - 50) all))
      with (skipn 1 (skipn (List.length all - 50) all)).
    rewrite skipn_skipn, skipn_app.
    replace (List.length all + 1 - 50) with (1 + (List.length all - 50)) by lia.
    replace (1 + (List.length all - 50) - List.length all) with 0 by lia.
    reflexivity.
Qed.

Lemma perform_keeps_history : forall B op,
  mayCommit op || isDestroy op || isUndoRedo op = false -> keeps history (perform B op).
Proof. intros B op H. destruct op; try discriminate; keeps_auto. Qed.

(** With nothing to redo, an event or call that neither commits nor is
    [undo()] or [destroy()] leaves the history as it was. *)
Lemma perform_idle_history : forall B op s,
  isDestroy op = false -> isUndo op = false -> redoStack s = [] ->
  commits B op s = false ->
  history (final (perform B op s)) = history s.
Proof.
  intros B op s Hd Hu Hr Hc.
  destruct (mayCommit op) eqn:Hm; [apply perform_without_commit; assumption|].
  destruct op; try discriminate;
    try (apply (keeps_final _ _ history); apply perform_keeps_history; reflexivity).
  cbn [perform]. unfold bind. rewrite (redo_floor s Hr). reflexivity.
Qed.

Lemma run_newest : forall B ops s all,
  forallb (fun op => negb (isDestroy op)) ops = true ->
  forallb (fun op => negb (isUndo op)) ops = true ->
  maxUndoSteps s = 50 -> redoStack s = [] ->
  undoStack s = skipn (List.length all - 50) all ->
  undoStack (run B ops s) =
  skipn (List.length (all ++ committedSnapshots B ops s) - 50)
    (all ++ committedSnapshots B ops s).
Proof.
  intros B ops. induction ops as [|op ops IH]; intros s all Hd Hu Hm Hr H.
  - cbn [run committedSnapshots]. rewrite app_nil_r. exact H.
  - cbn [run committedSnapshots]. cbn [forallb] in Hd, Hu.
    apply andb_true_iff in Hd as [Hd1 Hd2]. apply andb_true_iff in Hu as [Hu1 Hu2].
    apply negb_true_iff in Hd1, Hu1.
    destruct (commits B op s) eqn:C.
    + destruct (perform_commits B op s C) as (Eu & Er & Em).
      unfold history in Eu, Em. cbn [fst snd] in Eu, Em.
      rewrite app_assoc. apply IH; [exact Hd2|exact Hu2|congruence|exact Er|].
      rewrite Eu, Hm, H. apply newest_snoc.
    + pose proof (perform_idle_history B op s Hd1 Hu1 Hr C) as E.
      unfold history in E. cbn [app].
      apply IH; [exact Hd2|exact Hu2|congruence|congruence|].
      replace (undoStack (final (perform B op s))) with (undoStack s) by congruence.
      exact H.
Qed.

(** C8, as the code has it. From the constructor until [destroy()] is
    called the undo stack holds at least one snapshot, whatever events and
    calls arrive. Its bottom entry is the snapshot the constructor pushed as
    long as fewer than 50 commits were made since, where an end event of an
    active gesture or [clear()] that returned is a commit. A commit that
    finds 50 snapshots on the undo stack drops the bottom one; so, where no
    [undo()] is called, the stack holds the constructor's snapshot and the
    committed ones up to the 49th commit, and from the 50th commit on the 50
    newest committed snapshots, without the constructor's. [destroy()]
    empties the stack. *)
Theorem undo_stack_floor : forall B element offsetWidth offsetHeight ops,
  returned (constructor B element offsetWidth offsetHeight) = true ->
  forallb (fun op => negb (isDestroy op)) ops = true ->
  let s0 := final (constructor B element offsetWidth offsetHeight) in
  let s := run B ops s0 in
  let snaps := committedSnapshots B ops s0 in
  undoStack s0 = [snapshot (canvas s0)] /\
  undoStack s <> [] /\
  (List.length snaps < 50 -> hd_error (undoStack s) = Some (snapshot (canvas s0))) /\
  (forall op,
     commits B op s = true -> List.length (undoStack s) = 50 ->
     undoStack (final (perform B op s)) =
     tl (undoStack s) ++ [snapshot (canvas (final (perform B op s)))]) /\
  (forallb (fun op => negb (isUndo op)) ops = true ->
   (List.length snaps < 50 -> undoStack s = snapshot (canvas s0) :: snaps) /\
   (50 <= List.length snaps -> undoStack s = skipn (List.length snaps - 50) snaps)) /\
  undoStack (final (destroy s)) = [].
Proof.
  intros B element ow oh ops R Hd s0 s snaps.
  destruct (constructor_history B element ow oh R) as (Hu & Hr & Hm & _).
  fold s0 in Hu, Hr, Hm.
  split; [exact Hu|]. split; [|split; [|split; [|split]]].
  - apply (run_hasSnapshot B ops s0 Hd). split; [rewrite Hu; discriminate|lia].
  - intros Hn. apply (run_bottomIs B ops (snapshot (canvas s0)) 0 s0 Hd Hn).
    unfold bottomIs, history. cbn [fst snd]. rewrite Hu, Hr, Hm. cbn. auto.
  - intros op C Hfull.
    assert (Hs : reachable B s) by (apply reachable_run, reachable_new; exact R).
    destruct (reachable_bounded B s Hs) as [_ Hmax].
    apply (committed_full s _ (perform_commits B op s C)); lia.
  - intros Hno.
    pose proof (run_newest B ops s0 [snapshot (canvas s0)] Hd Hno Hm Hr) as K.
    fold s snaps in K. cbn [List.length app] in K.
    specialize (K ltac:(rewrite Hu; reflexivity)).
    split; intros L.
    + rewrite K. replace (S (List.length snaps) - 50) with 0 by lia. reflexivity.
    + rewrite K.
      replace (S (List.length snaps) - 50) with (S (List.length snaps - 50)) by lia.
      reflexivity.
  - reflexivity.
Qed.

(** ** Clamping the stroke width *)

Lemma SFcompare_antisym : forall a b,
  SFcompare b a = option_map CompOpp (SFcompare a b).
Proof.
  intros a b.
  destruct a as [sa|sa| |sa ma ea], b as [sb|sb| |sb mb eb]; cbn [SFcompare option_map];
    try reflexivity;
    try (destruct sa; reflexivity); try (destruct sb; reflexivity);
    try (destruct sa, sb; reflexivity).
  destruct sa, sb; try reflexivity.
  - rewrite (Z.compare_antisym ea eb).
    destruct (Z.compare ea eb); cbn [CompOpp]; try reflexivity.
    change (Pos.compare_cont Eq mb ma) with (Pos.compare mb ma).
    change (Pos.compare_cont Eq ma mb) with (Pos.compare ma mb).
    rewrite (Pos.compare_antisym ma mb). reflexivity.
  - rewrite (Z.compare_antisym ea eb).
    destruct (Z.compare ea eb); cbn [CompOpp]; try reflexivity.
    change (Pos.compare_cont Eq mb ma) with (Pos.compare mb ma).
    change (Pos.compare_cont Eq ma mb) with (Pos.compare ma mb).
    rewrite (Pos.compare_antisym ma mb). reflexivity.
Qed.

Lemma compare_antisym : forall x y,
  PrimFloat.compare y x =
  match PrimFloat.compare x y with
  | FLt => FGt
  | FGt => FLt
  | FEq => FEq
  | FNotComparable => FNotComparable
  end.
Proof.
  intros x y. rewrite !compare_spec, (SFcompare_antisym (Prim2SF x) (Prim2SF y)).
  destruct (SFcompare (Prim2SF x) (Prim2SF y)) as [[| |]|]; reflexivity.
Qed.

Lemma ltb_compare : forall x y,
  (x <? y)%float = match PrimFloat.compare x y with FLt => true | _ => false end.
Proof.
  intros x y. rewrite ltb_spec, compare_spec. unfold SFltb.
  destruct (SFcompare (Prim2SF x) (Prim2SF y)) as [[| |]|]; reflexivity.
Qed.

Lemma leb_compare : forall x y,
  (x <=? y)%float = match PrimFloat.compare x y with FLt | FEq => true | _ => false end.
Proof.
  intros x y. rewrite leb_spec, compare_spec. unfold SFleb.
  destruct (SFcompare (Prim2SF x) (Prim2SF y)) as [[| |]|]; reflexivity.
Qed.

Lemma SFcompare_refl : forall a, a <> S754_nan -> SFcompare a a = Some Eq.
Proof.
  intros a H. destruct a as [sa|sa| |sa ma ea]; cbn [SFcompare].
  - reflexivity.
  - destruct sa; reflexivity.
  - congruence.
  - rewrite Z.compare_refl.
    change (Pos.compare_cont Eq ma ma) with (Pos.compare ma ma).
    rewrite Pos.compare_refl. destruct sa; reflexivity.
Qed.

Lemma isNaN_spec : forall x, isNaN x = true <-> Prim2SF x = S754_nan.
Proof.
  intros x. unfold isNaN, is_nan. rewrite eqb_spec. unfold SFeqb. split.
  - intros H. destruct (Prim2SF x) eqn:E; try reflexivity;
      rewrite SFcompare_refl in H by discriminate; discriminate.
  - intros ->. reflexivity.
Qed.

Lemma SF_one : Prim2SF 1%float = S754_finite false 4503599627370496 (-52).
Proof. vm_compute. reflexivity. Qed.

Lemma SF_fifty : Prim2SF 50%float = S754_finite false 7036874417766400 (-47).
Proof. vm_compute. reflexivity. Qed.

(** Comparing with a finite number other than zero: not comparable means
    NaN, and equal means the same number. *)
Lemma compare_finite_NaN : forall x c s m e,
  Prim2SF c = S754_finite s m e ->
  (PrimFloat.compare x c = FNotComparable <-> isNaN x = true).
Proof.
  intros x c s m e Hc. rewrite compare_spec, Hc, isNaN_spec.
  destruct (Prim2SF x) as [sx|sx| |sx mx ex]; cbn [SFcompare flatten_cmp_opt].
  - destruct s; split; discriminate.
  - destruct sx; split; discriminate.
  - tauto.
  - split; [|discriminate].
    destruct sx, s; try discriminate;
      destruct (Z.compare ex e); try discriminate;
      destruct (Pos.compare_cont Eq mx m); discriminate.
Qed.

Lemma compare_finite_Eq : forall x c s m e,
  Prim2SF c = S754_finite s m e ->
  PrimFloat.compare x c = FEq -> x = c.
Proof.
  intros x c s m e Hc H. apply Prim2SF_inj. rewrite compare_spec, Hc in H. rewrite Hc.
  destruct (Prim2SF x) as [sx|sx| |sx mx ex]; cbn [SFcompare flatten_cmp_opt] in H.
  - destruct s; discriminate.
  - destruct sx; discriminate.
  - discriminate.
  - change (Pos.compare_cont Eq mx m) with (Pos.compare mx m) in H.
    destruct sx, s; try discriminate;
      destruct (Z.compare_spec ex e) as [Ee|Ee|Ee]; try discriminate;
      destruct (Pos.compare_spec mx m) as [Em|Em|Em]; try discriminate;
      subst; reflexivity.
Qed.

(** Below or at 1 is below 50, and above or at 50 is above 1. *)
Lemma compare_one_fifty : forall x,
  (PrimFloat.compare x 1 = FLt \/ PrimFloat.compare x 1 = FEq ->
   PrimFloat.compare x 50 = FLt) /\
  (PrimFloat.compare x 50 = FGt \/ PrimFloat.compare x 50 = FEq ->
   PrimFloat.compare x 1 = FGt).
Proof.
  intros x. rewrite !compare_spec, SF_one, SF_fifty.
  destruct (Prim2SF x) as [sx|sx| |sx mx ex]; cbn [SFcompare flatten_cmp_opt].
  - split; [reflexivity|]. intros [H|H]; discriminate.
  - destruct sx; split; try reflexivity; intros [H|H]; discriminate.
  - split; intros [H|H]; discriminate.
  - destruct sx.
    + split; [reflexivity|]. intros [H|H]; discriminate.
    + destruct (Z.compare_spec ex (-52)) as [E1|E1|E1];
        destruct (Z.compare_spec ex (-47)) as [E2|E2|E2]; try lia;
        split; intros [H|H]; first [reflexivity|discriminate].
Qed.

(** What [Math.max(1, Math.min(w, 50))] is, by how [w] compares with 1
    and with 50. *)
Lemma clamp_table : forall w,
  match PrimFloat.compare w 1, PrimFloat.compare w 50 with
  | FNotComparable, FNotComparable => Math_max 1%float (Math_min w 50%float) = nan
  | FLt, FLt => Math_max 1%float (Math_min w 50%float) = 1%float
  | FEq, FLt => Math_max 1%float (Math_min w 50%float) = w /\ w = 1%float
  | FGt, FLt => Math_max 1%float (Math_min w 50%float) = w
  | FGt, FEq => Math_max 1%float (Math_min w 50%float) = w /\ w = 50%float
  | FGt, FGt => Math_max 1%float (Math_min w 50%float) = 50%float
  | _, _ => False
  end.
Proof.
  intros w.
  destruct (compare_one_fifty w) as [Hlow Hhigh].
  assert (NC : PrimFloat.compare w 1 = FNotComparable <->
               PrimFloat.compare w 50 = FNotComparable).
  { rewrite (compare_finite_NaN w 1%float _ _ _ SF_one).
    rewrite (compare_finite_NaN w 50%float _ _ _ SF_fifty). tauto. }
  pose proof (compare_finite_Eq w 1%float _ _ _ SF_one) as Q1.
  pose proof (compare_finite_Eq w 50%float _ _ _ SF_fifty) as Q50.
  pose proof (compare_antisym w 1%float) as A1.
  unfold Math_max, Math_min.
  destruct (PrimFloat.compare w 1) eqn:E1; destruct (PrimFloat.compare w 50) eqn:E50;
    try (specialize (Hlow ltac:(auto)); discriminate);
    try (specialize (Hhigh ltac:(auto)); discriminate);
    try (destruct NC as [NC _]; specialize (NC eq_refl); discriminate);
    try (destruct NC as [_ NC]; specialize (NC eq_refl); discriminate).
  - (* w = 1 *)
    rewrite (Q1 eq_refl). split; reflexivity.
  - (* w < 1 *)
    rewrite A1. reflexivity.
  - (* w = 50 *)
    rewrite (Q50 eq_refl). split; reflexivity.
  - (* 1 < w < 50 *)
    rewrite A1. reflexivity.
  - (* 50 < w *)
    reflexivity.
  - (* NaN *)
    reflexivity.
Qed.

(** The four cases of a width, and what is stored in each. *)
Lemma clamp_cases : forall w,
  (isNaN w = true /\ Math_max 1%float (Math_min w 50%float) = nan) \/
  (isNaN w = false /\ (w <? 1)%float = true /\ (50 <? w)%float = false /\
   (1 <=? w)%float = false /\
   Math_max 1%float (Math_min w 50%float) = 1%float) \/
  (isNaN w = false /\ (w <? 1)%float = false /\ (50 <? w)%float = true /\
   (w <=? 50)%float = false /\
   Math_max 1%float (Math_min w 50%float) = 50%float) \/
  (isNaN w = false /\ (w <? 1)%float = false /\ (50 <? w)%float = false /\
   (1 <=? w)%float = true /\ (w <=? 50)%float = true /\
   Math_max 1%float (Math_min w 50%float) = w).
Proof.
  intros w.
  pose proof (clamp_table w) as T.
  pose proof (compare_finite_NaN w 1%float _ _ _ SF_one) as N1.
  assert (NN : PrimFloat.compare w 1 <> FNotComparable -> isNaN w = false).
  { intros H. destruct (isNaN w); [|reflexivity]. exfalso. apply H, N1. reflexivity. }
  rewrite (ltb_compare w 1), (leb_compare w 50), (ltb_compare 50 w), (leb_compare 1 w).
  rewrite (compare_antisym w 50%float), (compare_antisym w 1%float).
  destruct (PrimFloat.compare w 1) eqn:E1; destruct (PrimFloat.compare w 50) eqn:E50;
    try contradiction.
  - (* w = 1 *)
    right. right. right. destruct T as [T _].
    repeat (split; [first [reflexivity|apply NN; discriminate]|]). exact T.
  - (* w < 1 *)
    right. left.
    repeat (split; [first [reflexivity|apply NN; discriminate]|]). exact T.
  - (* w = 50 *)
    right. right. right. destruct T as [T _].
    repeat (split; [first [reflexivity|apply NN; discriminate]|]). exact T.
  - (* 1 < w < 50 *)
    right. right. right.
    repeat (split; [first [reflexivity|apply NN; discriminate]|]). exact T.
  - (* 50 < w *)
    right. right. left.
    repeat (split; [first [reflexivity|apply NN; discriminate]|]). exact T.
  - (* NaN *)
    left. split; [apply N1; reflexivity|exact T].
Qed.

Lemma setStrokeWidth_outcome : forall w s,
  setStrokeWidth w s =
  mkOutcome
    (set_ctx (ctx_set_lineWidth (Math_max 1%float (Math_min w 50%float)) (ctx s))
       (set_strokeWidth (Math_max 1%float (Math_min w 50%float)) s))
    [] (Normal tt).
Proof. intros w s. reflexivity. Qed.

(** C5, as the code has it. [setStrokeWidth] never rejects: it returns, and
    it stores [Math.max(1, Math.min(width, 50))], which it also hands to the
    context. A number below 1 becomes 1, a number above 50 becomes 50, and a
    number from 1 to 50 is stored as it is, unrounded, so that what is stored
    is an integer from 1 to 50 whenever an integer came in; any stored number
    but NaN lies in the range, and NaN is stored as NaN. *)
Theorem setStrokeWidth_clamps : forall w s,
  let v := strokeWidth (final (setStrokeWidth w s)) in
  returned (setStrokeWidth w s) = true /\
  lineWidth (ctx (final (setStrokeWidth w s))) = v /\
  ((w <? 1)%float = true -> v = 1%float) /\
  ((50 <? w)%float = true -> v = 50%float) /\
  ((1 <=? w)%float = true -> (w <=? 50)%float = true -> v = w) /\
  (isNaN w = true -> isNaN v = true) /\
  (isNaN w = false -> (1 <=? v)%float = true /\ (v <=? 50)%float = true) /\
  (isInteger w = true -> stores_integer_in_range w s).
Proof.
  intros w s v. subst v. unfold stores_integer_in_range.
  rewrite setStrokeWidth_outcome.
  cbn [final returned completion strokeWidth ctx lineWidth
       set_ctx set_strokeWidth ctx_set_lineWidth].
  assert (NI : isInteger w = true -> isNaN w = false).
  { intros H. destruct (isNaN w) eqn:E; [|reflexivity].
    apply isNaN_spec in E. unfold isInteger in H. rewrite E in H. discriminate. }
  split; [reflexivity|]. split; [reflexivity|].
  destruct (clamp_cases w) as
    [(Hn & ->)|[(Hn & H1 & H2 & H3 & ->)|[(Hn & H1 & H2 & H3 & ->)|
     (Hn & H1 & H2 & H3 & H4 & ->)]]].
  - (* NaN *)
    split; [|split; [|split; [|split; [|split]]]]; intros; try congruence.
    + pose proof (compare_finite_NaN w 1%float _ _ _ SF_one) as [_ N].
      rewrite ltb_compare, (N Hn) in H. discriminate.
    + pose proof (compare_finite_NaN w 50%float _ _ _ SF_fifty) as [_ N].
      rewrite ltb_compare, compare_antisym, (N Hn) in H. discriminate.
    + pose proof (compare_finite_NaN w 50%float _ _ _ SF_fifty) as [_ N].
      rewrite leb_compare, (N Hn) in H0. discriminate.
    + reflexivity.
    + specialize (NI H). congruence.
  - (* below 1 *)
    split; [|split; [|split; [|split; [|split]]]]; intros; try congruence;
      repeat split; reflexivity.
  - (* above 50 *)
    split; [|split; [|split; [|split; [|split]]]]; intros; try congruence;
      repeat split; reflexivity.
  - (* from 1 to 50 *)
    split; [|split; [|split; [|split; [|split]]]]; intros; try congruence;
      repeat split; assumption.
Qed.

(** * Further properties *)

(** ** Undo and redo, call after call *)

Lemma undo_returns : forall s,
  completion (undo s) = Normal (1 <? List.length (undoStack s)).
Proof.
  intros s. destruct (Nat.le_gt_cases (List.length (undoStack s)) 1) as [L|L].
  - rewrite (undo_floor s L). cbn [completion].
    replace (1 <? List.length (undoStack s)) with false
      by (symmetry; apply Nat.ltb_ge; exact L).
    reflexivity.
  - destruct (two_on_top _ _ L) as (rest & a & b & E).
    rewrite (undo_step s rest a b E). cbn [completion].
    replace (1 <? List.length (undoStack s)) with true
      by (symmetry; apply Nat.ltb_lt; exact L).
    reflexivity.
Qed.

Lemma undo_length : forall s,
  List.length (undoStack (final (undo s))) =
  if 1 <? List.length (undoStack s)
  then List.length (undoStack s) - 1
  else List.length (undoStack s).
Proof.
  intros s. destruct (Nat.le_gt_cases (List.length (undoStack s)) 1) as [L|L].
  - rewrite (undo_floor s L). cbn [final].
    replace (1 <? List.length (undoStack s)) with false
      by (symmetry; apply Nat.ltb_ge; exact L).
    reflexivity.
  - destruct (two_on_top _ _ L) as (rest & a & b & E).
    rewrite (undo_step s rest a b E).
    replace (1 <? List.length (undoStack s)) with true
      by (symmetry; apply Nat.ltb_lt; exact L).
    cbn [final undoStack set_ctx set_canvas set_redoStack set_undoStack].
    rewrite E, !length_app. cbn [List.length]. lia.
Qed.

Lemma undoTimes_length : forall n s,
  List.length (undoStack (undoTimes n s)) =
  if 1 <? List.length (undoStack s)
  then Nat.max 1 (List.length (undoStack s) - n)
  else List.length (undoStack s).
Proof.
  induction n as [|n IH]; intros s; cbn [undoTimes].
  - destruct (1 <? List.length (undoStack s)) eqn:E; [|reflexivity].
    apply Nat.ltb_lt in E. lia.
  - rewrite IH, undo_length.
    destruct (1 <? List.length (undoStack s)) eqn:E.
    + apply Nat.ltb_lt in E.
      destruct (1 <? List.length (undoStack s) - 1) eqn:E'.
      * apply Nat.ltb_lt in E'. lia.
      * apply Nat.ltb_ge in E'. lia.
    + rewrite E. reflexivity.
Qed.

(** X1. The [n+1]-th call of [undo()] in a row returns [true] exactly when
    the undo stack held more than [n+1] snapshots when the calls began. An
    engine a program can hold has at most 50, so that no more than 49 calls
    in a row undo something: the 50th returns [false]. *)
Theorem undo_depth : forall B s n,
  reachable B s ->
  completion (undo (undoTimes n s)) = Normal (S n <? List.length (undoStack s)) /\
  completion (undo (undoTimes 49 s)) = Normal false.
Proof.
  intros B s n H.
  assert (G : forall k,
    completion (undo (undoTimes k s)) = Normal (S k <? List.length (undoStack s))).
  { intros k. rewrite undo_returns, undoTimes_length. f_equal.
    destruct (1 <? List.length (undoStack s)) eqn:E.
    - apply Nat.ltb_lt in E.
      destruct (S k <? List.length (undoStack s)) eqn:E'.
      + apply Nat.ltb_lt in E'. apply Nat.ltb_lt. lia.
      + apply Nat.ltb_ge in E'. apply Nat.ltb_ge. lia.
    - rewrite E. apply Nat.ltb_ge in E. symmetry. apply Nat.ltb_ge. lia. }
  split; [apply G|].
  rewrite G. f_equal. apply Nat.ltb_ge.
  destruct (reachable_bounded B s H) as [Hb Hm]. unfold bounded in Hb. lia.
Qed.

Lemma undo_keeps_timeline : forall s, timeline (final (undo s)) = timeline s.
Proof.
  intros s. destruct (Nat.le_gt_cases (List.length (undoStack s)) 1) as [L|L].
  - rewrite (undo_floor s L). reflexivity.
  - destruct (two_on_top _ _ L) as (rest & a & b & E).
    rewrite (undo_step s rest a b E). unfold timeline.
    cbn [final undoStack redoStack set_ctx set_canvas set_redoStack set_undoStack].
    rewrite E, rev_app_distr. cbn [rev app]. rewrite <- !app_assoc. reflexivity.
Qed.

Lemma redo_keeps_timeline : forall s, timeline (final (redo s)) = timeline s.
Proof.
  intros s. destruct (redoStack s) as [|x l] eqn:E.
  - rewrite (redo_floor s E). reflexivity.
  - destruct (one_on_top _ (x :: l)) as (rest & a & E'); [discriminate|].
    rewrite E' in E. rewrite (redo_step s rest a E). unfold timeline.
    cbn [final undoStack redoStack set_ctx set_canvas set_redoStack set_undoStack].
    rewrite E, rev_app_distr. cbn [rev app]. rewrite <- !app_assoc. reflexivity.
Qed.

Lemma perform_keeps_timeline : forall B op s,
  mayCommit op || isDestroy op = false ->
  timeline (final (perform B op s)) = timeline s.
Proof.
  intros B op s H.
  assert (K : keeps history (perform B op) ->
              timeline (final (perform B op s)) = timeline s).
  { intros Hk. pose proof (keeps_final _ _ history _ s Hk) as E.
    unfold history in E. unfold timeline. congruence. }
  destruct op; try discriminate; try (apply K; solve [keeps_auto]).
  - (* undo *)
    cbn [perform]. unfold bind.
    pose proof (undo_keeps_timeline s) as E.
    destruct (undo s) as [s1 p1 [a|e]]; exact E.
  - (* redo *)
    cbn [perform]. unfold bind.
    pose proof (redo_keeps_timeline s) as E.
    destruct (redo s) as [s1 p1 [a|e]]; exact E.
Qed.

(** X2. Calls of [undo()] and [redo()] only move along the history: the
    snapshots of the undo stack from its bottom, followed by those of the
    redo stack from its top, stay the same list, in any sequence of events
    and calls in which nothing can commit and [destroy()] is not called. *)
Theorem timeline_stays : forall B ops s,
  forallb (fun op => negb (mayCommit op || isDestroy op)) ops = true ->
  timeline (run B ops s) = timeline s /\
  List.length (undoStack (run B ops s)) + List.length (redoStack (run B ops s)) =
  List.length (undoStack s) + List.length (redoStack s).
Proof.
  intros B ops.
  assert (G : forall s,
    forallb (fun op => negb (mayCommit op || isDestroy op)) ops = true ->
    timeline (run B ops s) = timeline s).
  { induction ops as [|op ops IH]; intros s H; cbn [run]; [reflexivity|].
    cbn [forallb] in H. apply andb_true_iff in H as [H1 H2].
    apply negb_true_iff in H1.
    rewrite (IH _ H2). apply perform_keeps_timeline. exact H1. }
  intros s H. split; [apply G; exact H|].
  pose proof (f_equal (@List.length ImageData) (G s H)) as E.
  unfold timeline in E. rewrite !length_app, !length_rev in E. exact E.
Qed.

(** X3. [redo()] never throws. With a snapshot on the redo stack it takes the
    top one off, puts it on the undo stack, writes it onto the canvas and
    returns [true]; the canvas then shows that snapshot pixel for pixel when
    the snapshot has its size, and the context holds the engine's stroke
    colour and width again. *)
Theorem redo_contract : forall s,
  returned (redo s) = true /\
  (forall rest state,
     redoStack s = rest ++ [state] ->
     completion (redo s) = Normal true /\
     printed (redo s) = [] /\
     undoStack (final (redo s)) = undoStack s ++ [state] /\
     redoStack (final (redo s)) = rest /\
     canvas (final (redo s)) = blit state (canvas s) /\
     (fits (canvas s) state -> samePixels (canvas (final (redo s))) state) /\
     settingsApplied (final (redo s))).
Proof.
  intros s. split.
  - destruct (redoStack s) as [|x l] eqn:E.
    + rewrite (redo_floor s E). reflexivity.
    + destruct (one_on_top _ (x :: l)) as (rest & a & E'); [discriminate|].
      rewrite E' in E. rewrite (redo_step s rest a E). reflexivity.
  - intros rest state E. rewrite (redo_step s rest state E).
    cbn [completion printed final undoStack redoStack canvas
         set_ctx set_canvas set_redoStack set_undoStack].
    repeat (split; [reflexivity|]). split.
    + intros [Hw Hh]. apply blit_same_size; assumption.
    + repeat split.
Qed.

(** ** The constructor *)

Lemma initializeCanvas_any : forall B ow oh s,
  _initializeCanvas B ow oh s =
  mkOutcome
    (mkEngine
       (tabulate ow oh (fun x y => fillPixel B "#ffffff" (getPixel (blank ow oh) x y)))
       (mkContext "round" "round" (currentColor s) (strokeWidth s) "#ffffff" [])
       (currentTool s) (currentColor s) (strokeWidth s) (isDrawing s)
       (startX s) (startY s) (lastX s) (lastY s) (undoStack s) (redoStack s)
       (maxUndoSteps s) (blank ow oh))
    [] (Normal tt).
Proof.
  intros B ow oh s. reflexivity.
Qed.

Lemma initializeCanvas_outcome : forall B element ow oh,
  _initializeCanvas B ow oh (initialFields element) =
  mkOutcome (initialized B ow oh) [] (Normal tt).
Proof.
  intros B element ow oh. rewrite initializeCanvas_any.
  change (currentColor (initialFields element)) with "#000000".
  change (strokeWidth (initialFields element)) with 2%float.
  change (currentTool (initialFields element)) with "freehand".
  change (isDrawing (initialFields element)) with false.
  change (startX (initialFields element)) with 0%float.
  change (startY (initialFields element)) with 0%float.
  change (lastX (initialFields element)) with 0%float.
  change (lastY (initialFields element)) with 0%float.
  change (undoStack (initialFields element)) with (@nil ImageData).
  change (redoStack (initialFields element)) with (@nil ImageData).
  change (maxUndoSteps (initialFields element)) with 50.
  unfold initialized, background. do 2 f_equal.
  apply tabulate_ext. intros x y _ _. rewrite getPixel_blank. reflexivity.
Qed.

Lemma constructor_outcome : forall B element ow oh,
  constructor B element ow oh =
  if (ow =? 0) || (oh =? 0)
  then mkOutcome (initialized B ow oh) [] (Throw IndexSizeError)
  else mkOutcome (set_undoStack [snapshot (background B ow oh)] (initialized B ow oh))
         [] (Normal tt).
Proof.
  intros B element ow oh. rewrite constructor_unfold.
  rewrite (bind_known _ _ _ _ _ _ _ _ (initializeCanvas_outcome B element ow oh)).
  rewrite saveState_outcome.
  change (width (canvas (initialized B ow oh))) with ow.
  change (height (canvas (initialized B ow oh))) with oh.
  destruct ((ow =? 0) || (oh =? 0)); reflexivity.
Qed.

(** X4. [new DrawingEngine(canvas)] throws an IndexSizeError when the canvas
    is laid out with a width or height of 0. Otherwise it returns an engine
    whose canvas and scratch canvas have the layout size, whatever the canvas
    held before: every pixel of the canvas is the white background, the
    scratch canvas is cleared, the tool is freehand, the colour black, the
    width 2, no gesture is active, and the undo stack holds one snapshot, a
    copy of the canvas. *)
Theorem constructor_contract : forall B element offsetWidth offsetHeight,
  let o := constructor B element offsetWidth offsetHeight in
  (offsetWidth = 0 \/ offsetHeight = 0 ->
   completion o = Throw IndexSizeError /\
   final o = initialized B offsetWidth offsetHeight) /\
  (offsetWidth <> 0 -> offsetHeight <> 0 ->
   completion o = Normal tt /\
   printed o = [] /\
   final o = set_undoStack [snapshot (background B offsetWidth offsetHeight)]
               (initialized B offsetWidth offsetHeight) /\
   (forall x y, x < offsetWidth -> y < offsetHeight ->
      getPixel (canvas (final o)) x y = fillPixel B "#ffffff" transparent) /\
   undoStack (final o) = [canvas (final o)]).
Proof.
  intros B element ow oh o. subst o. rewrite constructor_outcome. split.
  - intros H.
    replace ((ow =? 0) || (oh =? 0)) with true; [split; reflexivity|].
    symmetry. apply orb_true_iff.
    destruct H as [H|H]; [left|right]; apply Nat.eqb_eq; exact H.
  - intros Hw Hh.
    replace ((ow =? 0) || (oh =? 0)) with false
      by (symmetry; apply orb_false_iff; split; apply Nat.eqb_neq; assumption).
    cbn [completion printed final].
    repeat (split; [reflexivity|]). split.
    + intros x y Hx Hy.
      change (canvas (set_undoStack _ (initialized B ow oh))) with (background B ow oh).
      unfold background. apply getPixel_tabulate; assumption.
    + change (undoStack (set_undoStack [snapshot (background B ow oh)] (initialized B ow oh)))
        with [snapshot (background B ow oh)].
      change (canvas (set_undoStack [snapshot (background B ow oh)] (initialized B ow oh)))
        with (background B ow oh).
      f_equal. apply tabulate_wellFormed.
Qed.

(** ** What a method leaves alone *)

(** What [_saveState], [undo()] and [redo()] leave alone. *)
Lemma saveState_keeps : forall X (part : DrawingEngine -> X),
  (forall u s, part (set_redoStack [] (set_undoStack u s)) = part s) ->
  keeps part _saveState.
Proof.
  intros X part H. apply keeps_of_final. intros s. rewrite saveState_outcome.
  destruct ((width (canvas s) =? 0) || (height (canvas s) =? 0)); cbn [final];
    [reflexivity|apply H].
Qed.

Lemma undo_keeps : forall X (part : DrawingEngine -> X),
  (forall img u r s,
     part (set_ctx (appliedContext s)
             (set_canvas (blit img (canvas s))
                (set_redoStack r (set_undoStack u s)))) = part s) ->
  keeps part undo.
Proof.
  intros X part H. apply keeps_of_final. intros s.
  destruct (Nat.le_gt_cases (List.length (undoStack s)) 1) as [L|L].
  - rewrite (undo_floor s L). reflexivity.
  - destruct (two_on_top _ _ L) as (rest & a & b & E).
    rewrite (undo_step s rest a b E). apply H.
Qed.

Lemma redo_keeps : forall X (part : DrawingEngine -> X),
  (forall img u r s,
     part (set_ctx (appliedContext s)
             (set_canvas (blit img (canvas s))
                (set_undoStack u (set_redoStack r s)))) = part s) ->
  keeps part redo.
Proof.
  intros X part H. apply keeps_of_final. intros s.
  destruct (redoStack s) as [|x l] eqn:E.
  - rewrite (redo_floor s E). reflexivity.
  - destruct (one_on_top _ (x :: l)) as (rest & a & E'); [discriminate|].
    rewrite E' in E. rewrite (redo_step s rest a E). apply H.
Qed.

(** A step through a method for a part that the history methods leave
    alone. *)
Ltac frame_step :=
  first
    [ apply saveState_keeps; intros; reflexivity
    | apply undo_keeps; intros; reflexivity
    | apply redo_keeps; intros; reflexivity
    | preserves_step ].

Ltac frame_auto :=
  intros; autounfold with methods; unfold destroy;
  let v := fresh "v" in intro v; repeat frame_step.

Lemma perform_keeps_sizes : forall B op,
  isResize op = false -> keeps sizes (perform B op).
Proof. intros B op H. destruct op; try discriminate; frame_auto. Qed.

Lemma perform_keeps_currentTool : forall B op,
  (forall tool, op <> callSetTool tool) -> keeps currentTool (perform B op).
Proof.
  intros B op H. destruct op; try (exfalso; eapply H; reflexivity); frame_auto.
Qed.

(** ** What every engine satisfies *)

Lemma constructor_returned : forall B element ow oh,
  returned (constructor B element ow oh) = true ->
  final (constructor B element ow oh) =
  set_undoStack [snapshot (background B ow oh)] (initialized B ow oh).
Proof.
  intros B element ow oh R. rewrite constructor_outcome in *.
  destruct ((ow =? 0) || (oh =? 0)); [discriminate|reflexivity].
Qed.

Lemma perform_preserves_scratchFits : forall B op, preserves scratchFits (perform B op).
Proof.
  intros B op. destruct (isResize op) eqn:R.
  - apply preserves_of_final. intros s H.
    destruct op; try discriminate; cbn [perform];
      [rewrite handleResize_outcome|rewrite resize_outcome];
      (destruct ((width (canvas s) =? 0) || (height (canvas s) =? 0)); cbn [final];
       [exact H|split; reflexivity]).
  - apply (keeps_preserves _ _ sizes
             (fun z => fst (snd z) = fst (fst z) /\ snd (snd z) = snd (fst z))).
    apply perform_keeps_sizes. exact R.
Qed.

Lemma reachable_scratchFits : forall B s, reachable B s -> scratchFits s.
Proof.
  intros B s H. induction H as [element ow oh R|s op H IH].
  - rewrite (constructor_returned B element ow oh R). split; reflexivity.
  - apply preserves_final; [apply perform_preserves_scratchFits|exact IH].
Qed.

Lemma setColor_outcome : forall color s,
  setColor color s =
  mkOutcome (set_ctx (ctx_set_strokeStyle color (ctx s)) (set_currentColor color s))
    [] (Normal tt).
Proof. intros color s. reflexivity. Qed.

Lemma clear_outcome : forall B s,
  clear B s =
  if (width (canvas s) =? 0) || (height (canvas s) =? 0)
  then mkOutcome (cleared B s) [] (Throw IndexSizeError)
  else mkOutcome
         (set_redoStack []
            (set_undoStack
               (if maxUndoSteps s <? List.length (undoStack s ++ [snapshot (canvas (cleared B s))])
                then tl (undoStack s ++ [snapshot (canvas (cleared B s))])
                else undoStack s ++ [snapshot (canvas (cleared B s))])
               (cleared B s)))
         [] (Normal tt).
Proof.
  intros B s. unfold clear, ctx_assign, fillRect_canvas.
  rewrite !bind_modify.
  match goal with |- bind _ _ ?s1 = _ =>
    rewrite (bind_known _ _ _ _ s1 _ _ _ (applyContextSettings_outcome s1)) end.
  match goal with |- context [_saveState ?s3] => change s3 with (cleared B s) end.
  rewrite saveState_outcome.
  change (width (canvas (cleared B s))) with (width (canvas s)).
  change (height (canvas (cleared B s))) with (height (canvas s)).
  change (maxUndoSteps (cleared B s)) with (maxUndoSteps s).
  change (undoStack (cleared B s)) with (undoStack s).
  destruct ((width (canvas s) =? 0) || (height (canvas s) =? 0)); reflexivity.
Qed.

Lemma style_settingsApplied : forall A (m : M A),
  keeps style m -> preserves settingsApplied m.
Proof.
  intros A m H.
  apply (keeps_preserves _ _ style
    (fun z => fst (fst (fst (fst z))) = fst (snd z) /\
              snd (fst (fst (fst z))) = snd (snd z) /\
              snd (fst (fst z)) = "round" /\ snd (fst z) = "round") m H).
Qed.

Lemma perform_preserves_settingsApplied : forall B op,
  preserves settingsApplied (perform B op).
Proof.
  intros B op.
  destruct op; cbn [perform];
    try (apply style_settingsApplied; solve [frame_auto]).
  - (* the window's resize event *)
    apply preserves_of_final. intros s H. rewrite handleResize_outcome.
    destruct ((width (canvas s) =? 0) || (height (canvas s) =? 0)); cbn [final];
      [exact H|repeat split].
  - (* setColor *)
    apply preserves_of_final. intros s (H1 & H2 & H3 & H4). rewrite setColor_outcome.
    repeat split; assumption.
  - (* setStrokeWidth *)
    apply preserves_of_final. intros s (H1 & H2 & H3 & H4).
    rewrite setStrokeWidth_outcome. repeat split; assumption.
  - (* undo *)
    apply preserves_bind; [|intro; apply preserves_ret].
    apply preserves_of_final. intros s H.
    destruct (Nat.le_gt_cases (List.length (undoStack s)) 1) as [L|L].
    + rewrite (undo_floor s L). exact H.
    + destruct (two_on_top _ _ L) as (rest & a & b & E).
      rewrite (undo_step s rest a b E). repeat split.
  - (* redo *)
    apply preserves_bind; [|intro; apply preserves_ret].
    apply preserves_of_final. intros s H.
    destruct (redoStack s) as [|x l] eqn:E.
    + rewrite (redo_floor s E). exact H.
    + destruct (one_on_top _ (x :: l)) as (rest & a & E'); [discriminate|].
      rewrite E' in E. rewrite (redo_step s rest a E). repeat split.
  - (* clear *)
    apply preserves_of_final. intros s H. rewrite clear_outcome.
    destruct ((width (canvas s) =? 0) || (height (canvas s) =? 0)); repeat split.
  - (* resize *)
    apply preserves_of_final. intros s H. rewrite resize_outcome.
    destruct ((width (canvas s) =? 0) || (height (canvas s) =? 0)); cbn [final];
      [exact H|repeat split].
Qed.

Lemma reachable_settingsApplied : forall B s, reachable B s -> settingsApplied s.
Proof.
  intros B s H. induction H as [element ow oh R|s op H IH].
  - rewrite (constructor_returned B element ow oh R). repeat split.
  - apply preserves_final; [apply perform_preserves_settingsApplied|exact IH].
Qed.

Lemma perform_preserves_toolIsValid : forall B op, preserves toolIsValid (perform B op).
Proof.
  intros B op.
  destruct op;
    try (apply (keeps_preserves _ _ currentTool (fun t => includes validTools t = true));
         apply perform_keeps_currentTool; discriminate).
  cbn [perform]. apply preserves_of_final. intros s H. unfold setTool.
  destruct (includes validTools tool) eqn:E; [exact E|exact H].
Qed.

Lemma reachable_toolIsValid : forall B s, reachable B s -> toolIsValid s.
Proof.
  intros B s H. induction H as [element ow oh R|s op H IH].
  - rewrite (constructor_returned B element ow oh R). reflexivity.
  - apply preserves_final; [apply perform_preserves_toolIsValid|exact IH].
Qed.

(** ** Methods that return *)

Lemma returnsIn_returned : forall A P (m : M A) s,
  returnsIn P m -> P s -> returned (m s) = true /\ P (final (m s)).
Proof.
  intros A P m s H Hs. specialize (H s Hs). unfold returned.
  destruct (completion (m s)); [split; [reflexivity|exact H]|contradiction].
Qed.

Lemma returnsIn_bind : forall A B P (m : M A) (k : A -> M B),
  returnsIn P m -> (forall a, returnsIn P (k a)) -> returnsIn P (bind m k).
Proof. intros A B P m k Hm Hk. eapply hoare_bind; [exact Hm|exact Hk]. Qed.

Lemma returnsIn_keeps : forall X A (part : DrawingEngine -> X) v (m : M A),
  keeps part m -> (forall s, returned (m s) = true) ->
  returnsIn (fun s => part s = v) m.
Proof.
  intros X A part v m Hk Hr s Hs. specialize (Hr s). unfold returned in Hr.
  pose proof (keeps_final _ _ part m s Hk) as E.
  destruct (completion (m s)); [congruence|discriminate].
Qed.

Section WithPixels.

Variables w h : nat.
Hypothesis w_positive : w <> 0.
Hypothesis h_positive : h <> 0.

Lemma sized_has_pixels : forall s, sized w h s ->
  (width (canvas s) =? 0) || (height (canvas s) =? 0) = false /\
  (width (tempCanvas s) =? 0) || (height (tempCanvas s) =? 0) = false.
Proof.
  intros s H. unfold sized, sizes in H. injection H as H1 H2 H3 H4.
  rewrite H1, H2, H3, H4.
  split; apply orb_false_iff; split; apply Nat.eqb_neq; assumption.
Qed.

Lemma getImageData_returns : returnsIn (sized w h) getImageData.
Proof.
  intros s H. unfold getImageData. rewrite bind_get. cbv zeta.
  destruct (sized_has_pixels s H) as [Hc _]. rewrite Hc. exact H.
Qed.

Lemma saveState_returns : returnsIn (sized w h) _saveState.
Proof.
  intros s H. rewrite saveState_outcome.
  destruct (sized_has_pixels s H) as [Hc _]. rewrite Hc. exact H.
Qed.

Lemma drawImage_canvas_to_temp_returns : forall B,
  returnsIn (sized w h) (drawImage_canvas_to_temp B).
Proof.
  intros B s H. unfold drawImage_canvas_to_temp. rewrite bind_get.
  destruct (sized_has_pixels s H) as [Hc _]. rewrite Hc. exact H.
Qed.

Lemma drawImage_temp_to_canvas_returns : forall B,
  returnsIn (sized w h) (drawImage_temp_to_canvas B).
Proof.
  intros B s H. unfold drawImage_temp_to_canvas. rewrite bind_get.
  destruct (sized_has_pixels s H) as [_ Ht]. rewrite Ht. exact H.
Qed.

Lemma getCoordinates_returns : forall e,
  hasPoint e = true -> returnsIn (sized w h) (_getCoordinates e).
Proof.
  intros e He s H. rewrite getCoordinates_outcome. cbn [final completion].
  unfold _getCoordinates. rewrite bind_get.
  destruct e as [bounds cx cy|bounds touches changed]; [exact H|].
  cbn [hasPoint] in He. destruct (firstTouch touches changed); [exact H|discriminate].
Qed.

End WithPixels.

Lemma undo_always_returns : forall s, returned (undo s) = true.
Proof. intros s. unfold returned. rewrite undo_returns. reflexivity. Qed.

Lemma redo_always_returns : forall s, returned (redo s) = true.
Proof.
  intros s. destruct (redoStack s) as [|x l] eqn:E.
  - rewrite (redo_floor s E). reflexivity.
  - destruct (one_on_top _ (x :: l)) as (rest & a & E'); [discriminate|].
    rewrite E' in E. rewrite (redo_step s rest a E). reflexivity.
Qed.

Ltac returns_step w h :=
  lazymatch goal with
  | |- returnsIn _ (bind _ _) => apply returnsIn_bind; [|intro]
  | |- returnsIn _ (ret _) => apply hoare_ret; auto
  | |- returnsIn _ get => apply hoare_get; auto
  | |- returnsIn _ (console _) => apply hoare_console; auto
  | |- returnsIn _ (modify _) =>
      apply hoare_modify; let s := fresh "s" in let H := fresh "H" in
      intros s H; exact H
  | |- returnsIn _ (ctx_assign _) => unfold ctx_assign
  | |- returnsIn _ _applyContextSettings => unfold _applyContextSettings
  | |- returnsIn _ getImageData => apply getImageData_returns; assumption
  | |- returnsIn _ _saveState => apply saveState_returns; assumption
  | |- returnsIn _ (drawImage_canvas_to_temp _) =>
      apply drawImage_canvas_to_temp_returns; assumption
  | |- returnsIn _ (drawImage_temp_to_canvas _) =>
      apply drawImage_temp_to_canvas_returns; assumption
  | |- returnsIn _ (_getCoordinates _) => apply getCoordinates_returns; assumption
  | |- returnsIn _ undo =>
      apply (returnsIn_keeps _ _ sizes);
      [apply undo_keeps; intros; reflexivity|apply undo_always_returns]
  | |- returnsIn _ redo =>
      apply (returnsIn_keeps _ _ sizes);
      [apply redo_keeps; intros; reflexivity|apply redo_always_returns]
  | |- returnsIn _ (if ?c then _ else _) => destruct c
  | |- returnsIn _ (match ?x with _ => _ end) => destruct x
  | |- returnsIn _ (let _ := _ in _) => cbv zeta
  end.

(** The events and calls that leave the sizes alone return on a canvas that
    has pixels. *)
Lemma perform_returns : forall B op w h,
  w <> 0 -> h <> 0 -> isResize op = false -> carriesPoint op = true ->
  returnsIn (sized w h) (perform B op).
Proof.
  intros B op w h Hw Hh Hr Hp.
  destruct op; try discriminate; cbn [carriesPoint] in Hp;
    unfold perform, _handleStart, _handleMove, _handleEnd, _drawFreehand,
      _drawShapePreview, _drawShape, _drawShapePath, _applyContextSettings,
      setTool, setColor, setStrokeWidth, clear, exportImage, destroy, beginPath,
      addToPath, fillRect_canvas, stroke, clearRect_canvas, clearRect_temp;
    repeat returns_step w h.
Qed.

(** X5. On an engine a program can hold whose canvas has pixels, every call
    of a public method returns, and so does the handler of every event but
    a touch event that has no touch: nothing throws. *)
Theorem returns_with_pixels : forall B op s,
  reachable B s ->
  width (canvas s) <> 0 -> height (canvas s) <> 0 ->
  carriesPoint op = true ->
  returned (perform B op s) = true.
Proof.
  intros B op s H Hw Hh Hp.
  destruct (reachable_scratchFits B s H) as [Fw Fh].
  destruct (isResize op) eqn:R.
  - destruct op; try discriminate; cbn [perform];
      [rewrite handleResize_outcome|rewrite resize_outcome];
      (replace ((width (canvas s) =? 0) || (height (canvas s) =? 0)) with false
         by (symmetry; apply orb_false_iff; split; apply Nat.eqb_neq; assumption);
       reflexivity).
  - apply (returnsIn_returned _ (sized (width (canvas s)) (height (canvas s)))).
    + apply perform_returns; assumption.
    + unfold sized, sizes. rewrite Fw, Fh. reflexivity.
Qed.

(** ** A canvas without pixels *)

Lemma noPixels_test : forall s,
  noPixels (width (canvas s), height (canvas s)) ->
  (width (canvas s) =? 0) || (height (canvas s) =? 0) = true.
Proof.
  intros s H. apply orb_true_iff.
  destruct H as [H|H]; [left|right]; apply Nat.eqb_eq; exact H.
Qed.

Lemma saveState_noPixels : forall v,
  noPixels (snd v) -> preserves (fun s => frame s = v) _saveState.
Proof.
  intros v Hv. apply preserves_of_final. intros s H. rewrite saveState_outcome.
  rewrite noPixels_test; [exact H|].
  subst v. exact Hv.
Qed.

Lemma frame_timeline : forall s s', frame s' = frame s ->
  timeline s' = timeline s /\
  width (canvas s') = width (canvas s) /\ height (canvas s') = height (canvas s).
Proof.
  intros s s' H. unfold frame, history in H. injection H as H1 H2 H3 H4 H5.
  unfold timeline. rewrite H1, H2. auto.
Qed.

(** Without pixels on the canvas nothing commits and nothing resizes. *)
Lemma perform_noPixels : forall B op s,
  noPixels (width (canvas s), height (canvas s)) -> isDestroy op = false ->
  timeline (final (perform B op s)) = timeline s /\
  width (canvas (final (perform B op s))) = width (canvas s) /\
  height (canvas (final (perform B op s))) = height (canvas s).
Proof.
  intros B op s Hz Hd.
  assert (K : preserves (fun s0 => frame s0 = frame s) (perform B op) ->
              timeline (final (perform B op s)) = timeline s /\
              width (canvas (final (perform B op s))) = width (canvas s) /\
              height (canvas (final (perform B op s))) = height (canvas s)).
  { intros Hk. apply frame_timeline.
    apply (preserves_final _ _ _ s Hk eq_refl). }
  destruct op; try discriminate;
    try (apply K; autounfold with methods;
         solve [repeat first [apply saveState_noPixels; exact Hz | preserves_step]]).
  - (* the window's resize event *)
    cbn [perform]. rewrite handleResize_outcome, (noPixels_test s Hz). auto.
  - (* undo *)
    split; [apply perform_keeps_timeline; reflexivity|].
    pose proof (keeps_final _ _ sizes _ s (perform_keeps_sizes B callUndo eq_refl)) as E.
    unfold sizes in E. injection E as E1 E2 _ _. auto.
  - (* redo *)
    split; [apply perform_keeps_timeline; reflexivity|].
    pose proof (keeps_final _ _ sizes _ s (perform_keeps_sizes B callRedo eq_refl)) as E.
    unfold sizes in E. injection E as E1 E2 _ _. auto.
  - (* resize *)
    cbn [perform]. rewrite resize_outcome, (noPixels_test s Hz). auto.
Qed.

Lemma run_noPixels : forall B ops s,
  noPixels (width (canvas s), height (canvas s)) ->
  (width (canvas (run B ops s)) = width (canvas s) /\
   height (canvas (run B ops s)) = height (canvas s)) /\
  (forallb (fun op => negb (isDestroy op)) ops = true ->
   timeline (run B ops s) = timeline s).
Proof.
  intros B ops. induction ops as [|op ops IH]; intros s Hz; cbn [run]; [auto|].
  assert (Hs : width (canvas (final (perform B op s))) = width (canvas s) /\
               height (canvas (final (perform B op s))) = height (canvas s)).
  { destruct (isDestroy op) eqn:D.
    - destruct op; try discriminate. split; reflexivity.
    - apply (perform_noPixels B op s Hz D). }
  destruct Hs as [Hw Hh].
  destruct (IH (final (perform B op s))) as [[Iw Ih] It].
  { unfold noPixels in *. cbn [fst snd] in *. rewrite Hw, Hh. exact Hz. }
  split; [split; congruence|].
  intros Hd. cbn [forallb] in Hd. apply andb_true_iff in Hd as [Hd1 Hd2].
  apply negb_true_iff in Hd1. rewrite (It Hd2).
  apply (perform_noPixels B op s Hz Hd1).
Qed.

(** X6. A canvas without pixels stays without: once its width or height is
    0, as after [resize(0, h)] or after a resize event that found the canvas
    laid out with no width, no event and no call changes its size again.
    [resize], the handler of the window's resize event and [clear()] throw
    an IndexSizeError from then on, and no snapshot is committed any more:
    the history keeps its snapshots until [destroy()] is called. *)
Theorem canvas_without_pixels_stays : forall B ops s,
  width (canvas s) = 0 \/ height (canvas s) = 0 ->
  let s' := run B ops s in
  (width (canvas s') = width (canvas s) /\ height (canvas s') = height (canvas s)) /\
  (forall w h, resize w h s' = mkOutcome s' [] (Throw IndexSizeError)) /\
  (forall offsetWidth offsetHeight,
     _handleResize offsetWidth offsetHeight s' = mkOutcome s' [] (Throw IndexSizeError)) /\
  completion (clear B s') = Throw IndexSizeError /\
  (forallb (fun op => negb (isDestroy op)) ops = true -> timeline s' = timeline s).
Proof.
  intros B ops s Hz s'. subst s'.
  destruct (run_noPixels B ops s Hz) as [[Hw Hh] Ht].
  assert (Hz' : noPixels (width (canvas (run B ops s)), height (canvas (run B ops s)))).
  { unfold noPixels. cbn [fst snd]. rewrite Hw, Hh. exact Hz. }
  split; [split; assumption|].
  split; [intros w h; rewrite resize_outcome, (noPixels_test _ Hz'); reflexivity|].
  split; [intros w h; rewrite handleResize_outcome, (noPixels_test _ Hz'); reflexivity|].
  split; [rewrite clear_outcome, (noPixels_test _ Hz'); reflexivity|].
  exact Ht.
Qed.

(** ** Settings, tool and sizes *)

(** X7. The context of an engine a program can hold has the engine's
    settings: its stroke style is [currentColor], its line width is
    [strokeWidth], its caps and joins are round. Every event and call keeps
    it so, also those that reset the context ([resize]) or assign to it. *)
Theorem context_holds_settings : forall B s,
  reachable B s ->
  settingsApplied s /\
  (forall s0 op, settingsApplied s0 -> settingsApplied (final (perform B op s0))).
Proof.
  intros B s H. split.
  - apply (reachable_settingsApplied B). exact H.
  - intros s0 op H0.
    apply preserves_final; [apply perform_preserves_settingsApplied|exact H0].
Qed.

(** X8. The current tool of an engine a program can hold is one of
    'freehand', 'rectangle', 'circle' and 'line', whatever [setTool] was
    called with. *)
Theorem tool_is_valid : forall B s,
  reachable B s ->
  (currentTool s = "freehand" \/ currentTool s = "rectangle" \/
   currentTool s = "circle" \/ currentTool s = "line") /\
  (forall tool, toolIsValid (final (setTool tool s))).
Proof.
  intros B s H. pose proof (reachable_toolIsValid B s H) as V. split.
  - apply includes_validTools. exact V.
  - intros tool.
    apply (preserves_final _ _ _ s (perform_preserves_toolIsValid B (callSetTool tool)) V).
Qed.

(** X9. The scratch canvas of an engine a program can hold is as large as
    its canvas, before and after every resize. *)
Theorem scratch_as_large_as_canvas : forall B s,
  reachable B s ->
  scratchFits s /\
  (forall s0 op, scratchFits s0 -> scratchFits (final (perform B op s0))).
Proof.
  intros B s H. split.
  - apply (reachable_scratchFits B). exact H.
  - intros s0 op H0.
    apply preserves_final; [apply perform_preserves_scratchFits|exact H0].
Qed.

(** X10. Only [resize] and the window's resize event change the size of the
    canvas or of the scratch canvas: all other events and calls, in any
    sequence, leave both sizes as they are. *)
Theorem size_changes_by_resize_only : forall B ops s,
  forallb (fun op => negb (isResize op)) ops = true ->
  width (canvas (run B ops s)) = width (canvas s) /\
  height (canvas (run B ops s)) = height (canvas s) /\
  width (tempCanvas (run B ops s)) = width (tempCanvas s) /\
  height (tempCanvas (run B ops s)) = height (tempCanvas s).
Proof.
  intros B ops.
  assert (G : forall s, forallb (fun op => negb (isResize op)) ops = true ->
                sizes (run B ops s) = sizes s).
  { induction ops as [|op ops IH]; intros s H; cbn [run]; [reflexivity|].
    cbn [forallb] in H. apply andb_true_iff in H as [H1 H2].
    apply negb_true_iff in H1. rewrite (IH _ H2).
    apply (keeps_final _ _ sizes _ s (perform_keeps_sizes B op H1)). }
  intros s H. specialize (G s H). unfold sizes in G.
  injection G as G1 G2 G3 G4. auto.
Qed.

(** X11. [setTool], [setColor], [setStrokeWidth] and [exportImage] return
    whatever they are given, and change no pixel of the canvas or of the
    scratch canvas, no stack, and nothing of a gesture in progress;
    [exportImage] returns the encoding of the canvas. *)
Theorem settings_draw_nothing : forall B op s,
  isSetting op = true ->
  let s' := final (perform B op s) in
  returned (perform B op s) = true /\
  canvas s' = canvas s /\ tempCanvas s' = tempCanvas s /\
  history s' = history s /\ gesture s' = gesture s /\
  (forall format, exportImage B format s = mkOutcome s [] (Normal (encode B format (canvas s)))).
Proof.
  intros B op s H s'. subst s'.
  assert (K : keeps (fun s0 => (canvas s0, tempCanvas s0, history s0, gesture s0))
                (perform B op)).
  { destruct op; try discriminate; frame_auto. }
  pose proof (keeps_final _ _ _ _ s K) as E. cbv beta in E.
  split; [|split; [|split; [|split; [|split]]]].
  2: exact (f_equal (fun z => fst (fst (fst z))) E).
  2: exact (f_equal (fun z => snd (fst (fst z))) E).
  2: exact (f_equal (fun z => snd (fst z)) E).
  2: exact (f_equal snd E).
  2: intros format; reflexivity.
  destruct op; try discriminate; cbn [perform].
  - unfold setTool. destruct (includes validTools tool); reflexivity.
  - reflexivity.
  - reflexivity.
  - reflexivity.
Qed.

(** ** Clearing *)

(** X12. [clear()] on a canvas that has pixels returns. It fills every pixel
    with white, commits the result as a new snapshot, and leaves the
    context with the fill style white and the engine's stroke settings. It
    does not end a gesture in progress, nor does it begin a new path. *)
Theorem clear_contract : forall B s,
  width (canvas s) <> 0 -> height (canvas s) <> 0 ->
  let s' := final (clear B s) in
  clear B s = mkOutcome s' [] (Normal tt) /\
  (width (canvas s') = width (canvas s) /\ height (canvas s') = height (canvas s)) /\
  (forall x y, x < width (canvas s) -> y < height (canvas s) ->
     getPixel (canvas s') x y = fillPixel B "#ffffff" (getPixel (canvas s) x y)) /\
  committed (history s) s' /\
  (fillStyle (ctx s') = "#ffffff" /\ settingsApplied s') /\
  gesture s' = gesture s /\ tempCanvas s' = tempCanvas s.
Proof.
  intros B s Hw Hh s'. subst s'. rewrite clear_outcome.
  replace ((width (canvas s) =? 0) || (height (canvas s) =? 0)) with false
    by (symmetry; apply orb_false_iff; split; apply Nat.eqb_neq; assumption).
  cbn [final].
  split; [reflexivity|]. split; [split; reflexivity|]. split; [|split].
  - intros x y Hx Hy.
    change (canvas (set_redoStack _ (set_undoStack _ (cleared B s))))
      with (tabulate (width (canvas s)) (height (canvas s))
              (fun x y => fillPixel B "#ffffff" (getPixel (canvas s) x y))).
    apply getPixel_tabulate; assumption.
  - unfold committed, history. cbn [fst snd]. repeat split.
  - repeat split.
Qed.

(** ** Resizing twice *)

Lemma getPixel_snapshot : forall c x y, getPixel (snapshot c) x y = getPixel c x y.
Proof. intros c x y. apply (snapshot_samePixels c). Qed.

Lemma resize_returned : forall w h s,
  width (canvas s) <> 0 -> height (canvas s) <> 0 ->
  resize w h s =
  mkOutcome
    (set_ctx (resetContext s)
       (set_canvas
          (blit (snapshot (canvas s)) (blank (unsigned_long 300 w) (unsigned_long 150 h)))
          (set_tempCanvas (blank (unsigned_long 300 w) (unsigned_long 150 h)) s)))
    [] (Normal tt).
Proof.
  intros w h s Hw Hh. rewrite resize_outcome.
  replace ((width (canvas s) =? 0) || (height (canvas s) =? 0)) with false
    by (symmetry; apply orb_false_iff; split; apply Nat.eqb_neq; assumption).
  reflexivity.
Qed.

Lemma getPixel_resized : forall w h c x y,
  getPixel (blit (snapshot c) (blank w h)) x y =
  if (x <? Nat.min (width c) w) && (y <? Nat.min (height c) h)
  then getPixel c x y else transparent.
Proof.
  intros w h c x y. rewrite getPixel_blit, getPixel_snapshot, getPixel_blank.
  unfold snapshot. rewrite width_tabulate, height_tabulate, width_blank, height_blank.
  destruct (x <? width c) eqn:X1; destruct (x <? w) eqn:X2;
    destruct (y <? height c) eqn:Y1; destruct (y <? h) eqn:Y2;
    repeat match goal with
           | H : (_ <? _) = true |- _ => apply Nat.ltb_lt in H
           | H : (_ <? _) = false |- _ => apply Nat.ltb_ge in H
           end;
    cbn [andb];
    match goal with
    | |- context [?a <? ?b] =>
        destruct (a <? b) eqn:M1;
        [apply Nat.ltb_lt in M1|apply Nat.ltb_ge in M1]
    end;
    try match goal with
    | |- context [?a <? ?b] =>
        destruct (a <? b) eqn:M2;
        [apply Nat.ltb_lt in M2|apply Nat.ltb_ge in M2]
    end;
    cbn [andb]; try reflexivity; try lia.
Qed.

(** X13. Two calls of [resize] in a row keep the pixels that lay inside both
    the former size and the size in between, at their places, and give
    transparent ones elsewhere: what a smaller size cut off does not come
    back with a larger one. The sizes are those the canvas takes: the ones
    given where they are at most 2^31 - 1. A call with the size the canvas
    has changes no pixel. Neither call touches the history. *)
Theorem resize_twice : forall w1 h1 w2 h2 s,
  let a1 := unsigned_long 300 w1 in
  let b1 := unsigned_long 150 h1 in
  let a2 := unsigned_long 300 w2 in
  let b2 := unsigned_long 150 h2 in
  width (canvas s) <> 0 -> height (canvas s) <> 0 -> a1 <> 0 -> b1 <> 0 ->
  let s2 := final (resize w2 h2 (final (resize w1 h1 s))) in
  returned (resize w2 h2 (final (resize w1 h1 s))) = true /\
  (width (canvas s2) = a2 /\ height (canvas s2) = b2) /\
  (forall x y, x < a2 -> y < b2 ->
     getPixel (canvas s2) x y =
     if (x <? Nat.min (width (canvas s)) a1) && (y <? Nat.min (height (canvas s)) b1)
     then getPixel (canvas s) x y
     else transparent) /\
  history s2 = history s /\
  ((Z.of_nat (width (canvas s)) <= 2147483647)%Z ->
   (Z.of_nat (height (canvas s)) <= 2147483647)%Z ->
   samePixels (canvas (final (resize (width (canvas s)) (height (canvas s)) s)))
     (canvas s)) /\
  (((Z.of_nat w1 <= 2147483647)%Z -> a1 = w1) /\
   ((Z.of_nat h1 <= 2147483647)%Z -> b1 = h1) /\
   ((Z.of_nat w2 <= 2147483647)%Z -> a2 = w2) /\
   ((Z.of_nat h2 <= 2147483647)%Z -> b2 = h2)).
Proof.
  intros w1 h1 w2 h2 s a1 b1 a2 b2 Hw Hh Hw1 Hh1 s2. subst s2.
  rewrite (resize_returned w1 h1 s Hw Hh). cbn [final].
  rewrite resize_returned; [|cbn [canvas set_ctx set_canvas]; rewrite ?width_blit, ?height_blit;
                             assumption..].
  cbn [final returned completion canvas set_ctx set_canvas set_tempCanvas].
  fold a1 b1 a2 b2.
  split; [reflexivity|]. split; [split; reflexivity|].
  split; [|split; [reflexivity|split]].
  - clearbody a1 b1 a2 b2.
    intros x y Hx Hy. rewrite getPixel_resized.
    rewrite width_blit, height_blit, width_blank, height_blank.
    rewrite getPixel_resized.
    apply Nat.ltb_lt in Hx as Hx', Hy as Hy'.
    destruct (x <? Nat.min (width (canvas s)) a1) eqn:X;
      destruct (y <? Nat.min (height (canvas s)) b1) eqn:Y;
      destruct (x <? Nat.min a1 a2) eqn:X';
      destruct (y <? Nat.min b1 b2) eqn:Y';
      repeat match goal with
             | H : (_ <? _) = true |- _ => apply Nat.ltb_lt in H
             | H : (_ <? _) = false |- _ => apply Nat.ltb_ge in H
             end;
      cbn [andb]; try reflexivity; try lia.
  - intros Rw Rh. rewrite (resize_returned _ _ s Hw Hh).
    rewrite (unsigned_long_in_range 300 _ Rw), (unsigned_long_in_range 150 _ Rh).
    cbn [final canvas set_ctx set_canvas].
    split; [reflexivity|split; [reflexivity|]].
    intros x y. rewrite getPixel_resized, !Nat.min_id.
    destruct ((x <? width (canvas s)) && (y <? height (canvas s))) eqn:E; [reflexivity|].
    symmetry. apply getPixel_outside. exact E.
  - repeat split; apply unsigned_long_in_range.
Qed.

(** ** Gestures with a shape tool *)

Lemma stroke_outcome : forall B s,
  stroke B s =
  mkOutcome
    (set_canvas
       (tabulate (width (canvas s)) (height (canvas s))
          (fun x y => strokePixel B (ctx s) x y (getPixel (canvas s) x y))) s)
    [] (Normal tt).
Proof. reflexivity. Qed.

Lemma bind_thrown : forall A B (m : M A) (k : A -> M B) s s1 p e,
  m s = mkOutcome s1 p (Throw e) -> bind m k s = mkOutcome s1 p (Throw e).
Proof. intros A B m k s s1 p e H. unfold bind. rewrite H. reflexivity. Qed.

Lemma drawImage_temp_to_canvas_outcome : forall B s,
  drawImage_temp_to_canvas B s =
  if (width (tempCanvas s) =? 0) || (height (tempCanvas s) =? 0)
  then mkOutcome s [] (Throw InvalidStateError)
  else mkOutcome (set_canvas (composite B (tempCanvas s) (canvas s)) s) [] (Normal tt).
Proof.
  intros B s. unfold drawImage_temp_to_canvas. rewrite bind_get.
  destruct ((width (tempCanvas s) =? 0) || (height (tempCanvas s) =? 0)); reflexivity.
Qed.

Lemma drawShapePath_after_beginPath : forall x1 y1 x2 y2 s,
  (beginPath ;; _drawShapePath x1 y1 x2 y2) s =
  mkOutcome (set_ctx (ctx_set_path (shapePath (currentTool s) x1 y1 x2 y2) (ctx s)) s)
    [] (Normal tt).
Proof.
  intros x1 y1 x2 y2 s. unfold beginPath, ctx_assign. rewrite bind_modify.
  unfold _drawShapePath, shapePath. rewrite bind_get.
  change (currentTool (set_ctx (ctx_set_path [] (ctx s)) s)) with (currentTool s).
  destruct (String.eqb (currentTool s) "rectangle"); [reflexivity|].
  destruct (String.eqb (currentTool s) "circle"); [reflexivity|].
  destruct (String.eqb (currentTool s) "line"); reflexivity.
Qed.

(** What [_drawShape] and [_drawShapePreview] do. *)
Lemma drawShape_outcome : forall B x y s,
  _drawShape B x y s =
  if (width (tempCanvas s) =? 0) || (height (tempCanvas s) =? 0)
  then mkOutcome (set_canvas (blank (width (canvas s)) (height (canvas s))) s)
         [] (Throw InvalidStateError)
  else mkOutcome (shapeDrawn B x y s) [] (Normal tt).
Proof.
  intros B x y s. unfold _drawShape, clearRect_canvas. rewrite bind_modify.
  set (s1 := set_canvas (blank (width (canvas s)) (height (canvas s))) s).
  pose proof (drawImage_temp_to_canvas_outcome B s1) as D.
  change (tempCanvas s1) with (tempCanvas s) in D.
  destruct ((width (tempCanvas s) =? 0) || (height (tempCanvas s) =? 0)).
  - apply (bind_thrown _ _ _ _ _ _ _ _ D).
  - rewrite (bind_known _ _ _ _ _ _ _ _ D). cbn [app].
    set (s2 := set_canvas (composite B (tempCanvas s1) (canvas s1)) s1).
    pose proof (drawShapePath_after_beginPath (startX s) (startY s) x y s2) as P.
    unfold beginPath, ctx_assign in *. rewrite bind_modify in *. rewrite bind_get.
    change (startX (set_ctx (ctx_set_path [] (ctx s2)) s2)) with (startX s).
    change (startY (set_ctx (ctx_set_path [] (ctx s2)) s2)) with (startY s).
    rewrite (bind_known _ _ _ _ _ _ _ _ P). rewrite stroke_outcome.
    cbn [final printed completion app]. f_equal.
    unfold shapeDrawn, s2, s1. unfold set_canvas at 1 4.
    cbn [canvas ctx currentTool currentColor strokeWidth isDrawing startX startY lastX lastY
         undoStack redoStack maxUndoSteps tempCanvas set_ctx set_canvas].
    unfold set_canvas, set_ctx.
    cbn [canvas ctx currentTool currentColor strokeWidth isDrawing startX startY lastX lastY
         undoStack redoStack maxUndoSteps tempCanvas].
    f_equal.
    change (width (composite B (tempCanvas s)
                     (blank (width (canvas s)) (height (canvas s)))))
      with (width (canvas s)).
    change (height (composite B (tempCanvas s)
                      (blank (width (canvas s)) (height (canvas s)))))
      with (height (canvas s)).
    apply tabulate_ext. intros px py Hx Hy. f_equal.
    rewrite getPixel_composite_blank.
    apply Nat.ltb_lt in Hx, Hy. rewrite Hx, Hy. reflexivity.
Qed.

Lemma getCoordinates_known : forall e s x y,
  completion (_getCoordinates e s) = Normal (x, y) ->
  _getCoordinates e s = mkOutcome s [] (Normal (x, y)).
Proof. intros e s x y H. rewrite getCoordinates_outcome, H. reflexivity. Qed.

Lemma getCoordinates_hasPoint : forall e s,
  hasPoint e = true -> exists x y, completion (_getCoordinates e s) = Normal (x, y).
Proof.
  intros e s H. unfold _getCoordinates. rewrite bind_get.
  destruct e as [bounds cx cy|bounds touches changed]; [eexists; eexists; reflexivity|].
  cbn [hasPoint] in H.
  destruct (firstTouch touches changed); [eexists; eexists; reflexivity|discriminate].
Qed.

Lemma getCoordinates_noPoint : forall e s,
  hasPoint e = false -> _getCoordinates e s = mkOutcome s [] (Throw TypeError).
Proof.
  intros e s H. unfold _getCoordinates. rewrite bind_get.
  destruct e as [bounds cx cy|bounds touches changed]; [discriminate|].
  cbn [hasPoint] in H.
  destruct (firstTouch touches changed); [discriminate|reflexivity].
Qed.

(** [_getCoordinates] reads nothing of the engine but the size of its canvas. *)
Lemma getCoordinates_same_size : forall e s s',
  width (canvas s') = width (canvas s) -> height (canvas s') = height (canvas s) ->
  completion (_getCoordinates e s') = completion (_getCoordinates e s).
Proof.
  intros e s s' Hw Hh. unfold _getCoordinates. rewrite !bind_get, Hw, Hh.
  destruct e as [bounds cx cy|bounds touches changed]; [reflexivity|].
  destruct (firstTouch touches changed); reflexivity.
Qed.

(** A move event of a gesture with a shape tool. *)
Lemma handleMove_shape : forall B e s x y,
  isDrawing s = true -> String.eqb (currentTool s) "freehand" = false ->
  completion (_getCoordinates e s) = Normal (x, y) ->
  _handleMove B e s =
  if (width (tempCanvas s) =? 0) || (height (tempCanvas s) =? 0)
  then mkOutcome (set_canvas (blank (width (canvas s)) (height (canvas s))) s)
         [] (Throw InvalidStateError)
  else mkOutcome (set_last x y (shapeDrawn B x y s)) [] (Normal tt).
Proof.
  intros B e s x y Hd Ht Hc. unfold _handleMove. rewrite bind_get, Hd. cbn [negb].
  rewrite (bind_known _ _ _ _ _ _ _ _ (getCoordinates_known e s x y Hc)).
  rewrite bind_get, Ht. cbn [fst snd app].
  change (_drawShapePreview B x y) with (_drawShape B x y).
  pose proof (drawShape_outcome B x y s) as D.
  destruct ((width (tempCanvas s) =? 0) || (height (tempCanvas s) =? 0)).
  - rewrite (bind_thrown _ _ _ _ _ _ _ _ D). reflexivity.
  - rewrite (bind_known _ _ _ _ _ _ _ _ D). reflexivity.
Qed.

(** A move event of a freehand gesture. *)
Lemma handleMove_freehand : forall B e s x y,
  isDrawing s = true -> String.eqb (currentTool s) "freehand" = true ->
  completion (_getCoordinates e s) = Normal (x, y) ->
  _handleMove B e s =
  mkOutcome
    (set_last x y
       (set_canvas
          (tabulate (width (canvas s)) (height (canvas s))
             (fun px py =>
                strokePixel B (ctx_set_path (path (ctx s) ++ [lineTo x y]) (ctx s)) px py
                  (getPixel (canvas s) px py)))
          (set_ctx (ctx_set_path (path (ctx s) ++ [lineTo x y]) (ctx s)) s)))
    [] (Normal tt).
Proof.
  intros B e s x y Hd Ht Hc. unfold _handleMove. rewrite bind_get, Hd. cbn [negb].
  rewrite (bind_known _ _ _ _ _ _ _ _ (getCoordinates_known e s x y Hc)).
  rewrite bind_get, Ht. reflexivity.
Qed.

(** The end event of a gesture with a shape tool. *)
Lemma handleEnd_shape : forall B e s x y,
  isDrawing s = true -> String.eqb (currentTool s) "freehand" = false ->
  completion (_getCoordinates e s) = Normal (x, y) ->
  _handleEnd B e s =
  if (width (tempCanvas s) =? 0) || (height (tempCanvas s) =? 0)
  then mkOutcome (set_canvas (blank (width (canvas s)) (height (canvas s))) s)
         [] (Throw InvalidStateError)
  else _saveState (set_isDrawing false (shapeDrawn B x y s)).
Proof.
  intros B e s x y Hd Ht Hc. rewrite (handleEnd_active B e s Hd), Ht. cbn [negb].
  rewrite bind_assoc.
  rewrite (bind_known _ _ _ _ _ _ _ _ (getCoordinates_known e s x y Hc)).
  cbn [fst snd app].
  pose proof (drawShape_outcome B x y s) as D.
  destruct ((width (tempCanvas s) =? 0) || (height (tempCanvas s) =? 0)).
  - rewrite (bind_thrown _ _ _ _ _ _ _ _ D). reflexivity.
  - rewrite (bind_known _ _ _ _ _ _ _ _ D).
    rewrite bind_modify. cbn [app].
    destruct (_saveState (set_isDrawing false (shapeDrawn B x y s))). reflexivity.
Qed.

(** The end event of a freehand gesture. *)
Lemma handleEnd_freehand : forall B e s,
  isDrawing s = true -> String.eqb (currentTool s) "freehand" = true ->
  _handleEnd B e s = _saveState (set_isDrawing false s).
Proof.
  intros B e s Hd Ht. rewrite (handleEnd_active B e s Hd), Ht. cbn [negb].
  rewrite bind_ret, bind_modify. reflexivity.
Qed.

Lemma pointOf_completion : forall e s x y,
  pointOf e s = Some (x, y) -> completion (_getCoordinates e s) = Normal (x, y).
Proof.
  intros e s x y H. unfold pointOf in H.
  destruct (completion (_getCoordinates e s)); [congruence|discriminate].
Qed.

(** X14. While a gesture with a shape tool is active, a move event that has
    a position redraws the canvas from the scratch canvas: afterwards the
    path holds the one shape from the start point to the position, and
    every pixel of the canvas is what stroking that path gives on the pixel
    of the scratch canvas at its place, whatever the canvas showed before.
    The scratch canvas, the start point and the stacks stay. *)
Theorem shape_preview : forall B e s x y,
  isDrawing s = true -> currentTool s <> "freehand" ->
  completion (_getCoordinates e s) = Normal (x, y) ->
  width (tempCanvas s) <> 0 -> height (tempCanvas s) <> 0 ->
  let s' := final (_handleMove B e s) in
  returned (_handleMove B e s) = true /\
  path (ctx s') = shapePath (currentTool s) (startX s) (startY s) x y /\
  (width (canvas s') = width (canvas s) /\ height (canvas s') = height (canvas s)) /\
  (forall px py, px < width (canvas s) -> py < height (canvas s) ->
     getPixel (canvas s') px py =
     strokePixel B (ctx s') px py (getPixel (tempCanvas s) px py)) /\
  (lastX s' = x /\ lastY s' = y /\ startX s' = startX s /\ startY s' = startY s) /\
  tempCanvas s' = tempCanvas s /\ history s' = history s /\ isDrawing s' = true.
Proof.
  intros B e s x y Hd Ht Hc Hw Hh s'. subst s'.
  apply String.eqb_neq in Ht.
  rewrite (handleMove_shape B e s x y Hd Ht Hc).
  replace ((width (tempCanvas s) =? 0) || (height (tempCanvas s) =? 0)) with false
    by (symmetry; apply orb_false_iff; split; apply Nat.eqb_neq; assumption).
  cbn [final returned completion].
  split; [reflexivity|]. split; [reflexivity|]. split; [split; reflexivity|].
  split; [|split; [repeat split|split; [reflexivity|split; [reflexivity|exact Hd]]]].
  intros px py Hx Hy.
  change (canvas (set_last x y (shapeDrawn B x y s))) with (canvas (shapeDrawn B x y s)).
  unfold shapeDrawn. cbv zeta. cbn [canvas set_canvas].
  apply getPixel_tabulate; assumption.
Qed.

Lemma handleMove_keeps_gestureBase : forall B e, keeps gestureBase (_handleMove B e).
Proof. frame_auto. Qed.

Lemma moves_keep_gestureBase : forall B moves s,
  gestureBase (run B (map gestureMove moves) s) = gestureBase s.
Proof.
  intros B moves. induction moves as [|e moves IH]; intros s; cbn [map run].
  - reflexivity.
  - rewrite IH. apply (keeps_final _ _ gestureBase (_handleMove B e)).
    apply handleMove_keeps_gestureBase.
Qed.

Lemma shapeDrawn_same_base : forall B x y s s',
  gestureBase s' = gestureBase s ->
  canvas (shapeDrawn B x y s') = canvas (shapeDrawn B x y s) /\
  gestureBase (shapeDrawn B x y s') = gestureBase (shapeDrawn B x y s).
Proof.
  intros B x y s s' H. unfold gestureBase, history in H.
  injection H. intros.
  unfold shapeDrawn, gestureBase, history, ctx_set_path. cbv zeta.
  cbn [canvas ctx currentTool currentColor strokeWidth isDrawing startX startY lastX lastY
       undoStack redoStack maxUndoSteps tempCanvas set_ctx set_canvas
       lineCap lineJoin strokeStyle lineWidth fillStyle path].
  rewrite !width_tabulate, !height_tabulate.
  repeat match goal with E : _ = _ |- _ => rewrite E; clear E end.
  split; reflexivity.
Qed.

Lemma gestureBase_parts : forall s s',
  gestureBase s' = gestureBase s ->
  (width (canvas s') = width (canvas s) /\ height (canvas s') = height (canvas s)) /\
  (currentTool s' = currentTool s /\ isDrawing s' = isDrawing s) /\
  tempCanvas s' = tempCanvas s /\
  (undoStack s' = undoStack s /\ redoStack s' = redoStack s /\
   maxUndoSteps s' = maxUndoSteps s).
Proof.
  intros s s' H. unfold gestureBase, history in H. injection H. intros.
  repeat split; assumption.
Qed.

Lemma handleEnd_same_base : forall B up s s',
  gestureBase s' = gestureBase s ->
  isDrawing s = true -> String.eqb (currentTool s) "freehand" = false ->
  hasPoint up = true ->
  canvas (final (_handleEnd B up s')) = canvas (final (_handleEnd B up s)) /\
  history (final (_handleEnd B up s')) = history (final (_handleEnd B up s)) /\
  completion (_handleEnd B up s') = completion (_handleEnd B up s).
Proof.
  intros B up s s' H Hd Ht Hp.
  destruct (gestureBase_parts s s' H) as ((Hw & Hh) & (Et & Ed) & Etemp & Eu & Er & Em).
  destruct (getCoordinates_hasPoint up s Hp) as (x & y & Hc).
  pose proof (getCoordinates_same_size up s s' Hw Hh) as Hc'. rewrite Hc in Hc'.
  rewrite (handleEnd_shape B up s x y Hd Ht Hc).
  rewrite (handleEnd_shape B up s' x y); [|congruence|congruence|exact Hc'].
  rewrite Etemp, Hw, Hh.
  destruct ((width (tempCanvas s) =? 0) || (height (tempCanvas s) =? 0)).
  - cbn [final completion canvas set_canvas]. unfold history.
    cbn [undoStack redoStack maxUndoSteps set_canvas]. rewrite Eu, Er, Em. auto.
  - destruct (shapeDrawn_same_base B x y s s' H) as [Ec Eb].
    destruct (gestureBase_parts _ _ Eb) as (_ & _ & _ & Eu' & Er' & Em').
    rewrite !saveState_outcome.
    change (canvas (set_isDrawing false (shapeDrawn B x y s')))
      with (canvas (shapeDrawn B x y s')).
    change (canvas (set_isDrawing false (shapeDrawn B x y s)))
      with (canvas (shapeDrawn B x y s)).
    change (undoStack (set_isDrawing false (shapeDrawn B x y s')))
      with (undoStack (shapeDrawn B x y s')).
    change (undoStack (set_isDrawing false (shapeDrawn B x y s)))
      with (undoStack (shapeDrawn B x y s)).
    change (maxUndoSteps (set_isDrawing false (shapeDrawn B x y s')))
      with (maxUndoSteps (shapeDrawn B x y s')).
    change (maxUndoSteps (set_isDrawing false (shapeDrawn B x y s)))
      with (maxUndoSteps (shapeDrawn B x y s)).
    rewrite Ec, Eu', Em'.
    destruct ((width (canvas (shapeDrawn B x y s)) =? 0)
              || (height (canvas (shapeDrawn B x y s)) =? 0)).
    + cbn [final completion]. unfold history.
      change (canvas (set_isDrawing false (shapeDrawn B x y s')))
        with (canvas (shapeDrawn B x y s')).
      change (canvas (set_isDrawing false (shapeDrawn B x y s)))
        with (canvas (shapeDrawn B x y s)).
      cbn [undoStack redoStack maxUndoSteps set_isDrawing].
      rewrite Ec, Eu', Er', Em'. auto.
    + cbn [final completion]. unfold history.
      cbn [canvas undoStack redoStack maxUndoSteps set_isDrawing set_undoStack set_redoStack].
      rewrite Ec, Em'. auto.
Qed.

(** X15. The move events of a gesture with a shape tool leave no trace: the
    end event draws its shape on a fresh copy of the scratch canvas, so that
    the canvas it leaves, the snapshot it commits and the way it completes
    are the same with any move events before it as with none. *)
Theorem moves_leave_no_trace : forall B moves up s,
  isDrawing s = true -> currentTool s <> "freehand" -> hasPoint up = true ->
  let direct := _handleEnd B up s in
  let dragged := _handleEnd B up (run B (map gestureMove moves) s) in
  canvas (final dragged) = canvas (final direct) /\
  history (final dragged) = history (final direct) /\
  completion dragged = completion direct.
Proof.
  intros B moves up s Hd Ht Hp direct dragged. subst direct dragged.
  apply String.eqb_neq in Ht.
  apply handleEnd_same_base; [apply moves_keep_gestureBase|assumption..].
Qed.

(** X16. A gesture with a shape tool draws one shape on the canvas as it was
    when the gesture began. From its start event over any move events to its
    end event, on a canvas that has pixels and a scratch canvas of its size,
    the handlers return, and every pixel of the canvas is then what stroking
    the shape from the start position to the end position gives on the pixel
    the canvas had before the gesture; that canvas is committed, and the
    gesture is over. *)
Theorem shape_gesture : forall B down moves up s p0 p1,
  currentTool s <> "freehand" ->
  pointOf down s = Some p0 -> pointOf up s = Some p1 ->
  width (canvas s) <> 0 -> height (canvas s) <> 0 -> scratchFits s ->
  let s1 := final (_handleStart B down s) in
  let s' := final (_handleEnd B up (run B (map gestureMove moves) s1)) in
  let cx := ctx_set_path
              (shapePath (currentTool s) (fst p0) (snd p0) (fst p1) (snd p1)) (ctx s) in
  returned (_handleStart B down s) = true /\
  completion (_handleEnd B up (run B (map gestureMove moves) s1)) = Normal tt /\
  (width (canvas s') = width (canvas s) /\ height (canvas s') = height (canvas s)) /\
  (forall px py, px < width (canvas s) -> py < height (canvas s) ->
     getPixel (canvas s') px py = strokePixel B cx px py (getPixel (canvas s) px py)) /\
  committed (history s) s'.
Proof.
  intros B down moves up s [x0 y0] [x1 y1] Ht H0 H1 Hw Hh [Fw Fh] s1 s' cx.
  apply pointOf_completion in H0, H1. apply String.eqb_neq in Ht.
  assert (Z : (width (canvas s) =? 0) || (height (canvas s) =? 0) = false)
    by (apply orb_false_iff; split; apply Nat.eqb_neq; assumption).
  assert (E1 : _handleStart B down s =
               mkOutcome
                 (set_tempCanvas
                    (composite B (canvas s)
                       (blank (width (canvas s)) (height (canvas s))))
                    (started x0 y0 s))
                 [] (Normal tt)).
  { rewrite (handleStart_outcome B down s x0 y0 H0), Ht, Z, Fw, Fh. reflexivity. }
  assert (Hp : hasPoint up = true).
  { destruct (hasPoint up) eqn:P; [reflexivity|].
    rewrite (getCoordinates_noPoint up s P) in H1. discriminate. }
  subst s' s1. rewrite E1. cbn [final returned completion].
  match goal with |- context [run B _ ?u] => set (s1 := u) end.
  assert (Hd1 : isDrawing s1 = true) by reflexivity.
  assert (Ht1 : String.eqb (currentTool s1) "freehand" = false) by exact Ht.
  destruct (handleEnd_same_base B up s1 (run B (map gestureMove moves) s1)
              (moves_keep_gestureBase B moves s1) Hd1 Ht1 Hp) as (Ec & Eh & Ek).
  assert (Hc1 : completion (_getCoordinates up s1) = Normal (x1, y1)).
  { rewrite (getCoordinates_same_size up s s1); [exact H1|reflexivity..]. }
  pose proof (handleEnd_shape B up s1 x1 y1 Hd1 Ht1 Hc1) as E2.
  change (tempCanvas s1)
    with (composite B (canvas s) (blank (width (canvas s)) (height (canvas s)))) in E2.
  change (width (composite B (canvas s) (blank (width (canvas s)) (height (canvas s)))))
    with (width (canvas s)) in E2.
  change (height (composite B (canvas s) (blank (width (canvas s)) (height (canvas s)))))
    with (height (canvas s)) in E2.
  rewrite Z, saveState_outcome in E2.
  change (width (canvas (set_isDrawing false (shapeDrawn B x1 y1 s1))))
    with (width (canvas s)) in E2.
  change (height (canvas (set_isDrawing false (shapeDrawn B x1 y1 s1))))
    with (height (canvas s)) in E2.
  rewrite Z in E2.
  split; [reflexivity|]. split; [rewrite Ek, E2; reflexivity|].
  assert (Hh' : history (final (_handleEnd B up (run B (map gestureMove moves) s1))) =
                history (final (_handleEnd B up s1))) by exact Eh.
  unfold committed. unfold history in Hh'. injection Hh' as Hu Hr Hm.
  rewrite Hu, Hr, Hm, Ec, E2. cbn [final].
  split; [split; reflexivity|]. split; [|repeat split].
  intros px py Hx Hy.
  change (canvas (set_redoStack _ (set_undoStack _ (set_isDrawing false ?S))))
    with (canvas S).
  unfold shapeDrawn. cbv zeta. cbn [canvas set_canvas].
  rewrite getPixel_tabulate by assumption.
  change (tempCanvas s1)
    with (composite B (canvas s) (blank (width (canvas s)) (height (canvas s)))).
  rewrite getPixel_composite_blank.
  apply Nat.ltb_lt in Hx, Hy. rewrite Hx, Hy. reflexivity.
Qed.

(** ** Freehand gestures *)

Lemma last_of_cons : forall (A : Type) (l : list A) (a d d' : A),
  last (a :: l) d = last (a :: l) d'.
Proof.
  intros A l. induction l as [|b l IH]; intros a d d'; [reflexivity|].
  change (last (b :: l) d = last (b :: l) d'). apply IH.
Qed.

Lemma freehand_moves : forall B s moves ps,
  Forall2 (fun e p => pointOf e s = Some p) moves ps ->
  forall t,
  isDrawing t = true -> String.eqb (currentTool t) "freehand" = true ->
  width (canvas t) = width (canvas s) -> height (canvas t) = height (canvas s) ->
  let t' := run B (map gestureMove moves) t in
  path (ctx t') = path (ctx t) ++ map lineToPoint ps /\
  (lastX t', lastY t') = last ps (lastX t, lastY t) /\
  (startX t' = startX t /\ startY t' = startY t) /\
  isDrawing t' = true /\ history t' = history t /\ tempCanvas t' = tempCanvas t.
Proof.
  intros B s moves ps F. induction F as [|e [x y] moves ps He F IH]; intros t Hd Ht Hw Hh.
  - cbn. rewrite app_nil_r. repeat split. exact Hd.
  - cbn [map run]. cbv zeta.
    assert (Hc : completion (_getCoordinates e t) = Normal (x, y)).
    { rewrite (getCoordinates_same_size e s t Hw Hh). apply pointOf_completion. exact He. }
    cbn [perform]. rewrite (handleMove_freehand B e t x y Hd Ht Hc). cbn [final].
    match goal with |- context [run B _ ?u] => specialize (IH u) end.
    cbv zeta in IH.
    destruct IH as (I1 & I2 & I3 & I4 & I5 & I6); try assumption.
    rewrite I1, I2, I4, I5, I6.
    cbn [path ctx set_last set_canvas set_ctx ctx_set_path lastX lastY startX startY
         tempCanvas].
    rewrite <- app_assoc. cbn [app map].
    split; [reflexivity|]. split; [|split; [exact I3|auto]].
    destruct ps as [|p ps]; [reflexivity|].
    change (last (p :: ps) (x, y) = last (p :: ps) (lastX t, lastY t)).
    apply last_of_cons.
Qed.

(** X17. A freehand gesture draws one path: after the start event and any
    number of move events that have a position, the path of the context
    begins at the position of the start event and has a line to the position
    of each move event, in their order; the last point is that of the last
    event, and the stacks are untouched. *)
Theorem freehand_path : forall B down moves s p0 ps,
  currentTool s = "freehand" ->
  pointOf down s = Some p0 ->
  Forall2 (fun e p => pointOf e s = Some p) moves ps ->
  let s' := run B (map gestureMove moves) (final (_handleStart B down s)) in
  path (ctx s') = moveTo (fst p0) (snd p0) :: map lineToPoint ps /\
  (startX s', startY s') = p0 /\
  (lastX s', lastY s') = last ps p0 /\
  isDrawing s' = true /\ history s' = history s.
Proof.
  intros B down moves s [x y] ps Ht H0 F s'. subst s'.
  apply pointOf_completion in H0.
  rewrite (handleStart_outcome B down s x y H0).
  assert (Ht' : String.eqb (currentTool s) "freehand" = true)
    by (apply String.eqb_eq; exact Ht).
  rewrite Ht'. cbn [final].
  match goal with |- context [run B _ ?u] =>
    destruct (freehand_moves B s moves ps F u) as (I1 & I2 & (I3 & I3') & I4 & I5 & _) end;
    try reflexivity; try assumption.
  rewrite I1, I2, I3, I3', I4, I5. repeat split.
Qed.

(** X18. With the freehand tool the end event of a gesture draws nothing and
    does not look at its position: it ends the gesture and takes the
    snapshot. A click, a start event followed by an end event, therefore
    changes no pixel and still commits: a copy of the canvas as it was goes
    on the undo stack, and the redo stack is emptied. *)
Theorem freehand_end_draws_nothing : forall B down up s,
  currentTool s = "freehand" ->
  (isDrawing s = true ->
   _handleEnd B up s = _saveState (set_isDrawing false s) /\
   canvas (final (_handleEnd B up s)) = canvas s) /\
  (hasPoint down = true -> width (canvas s) <> 0 -> height (canvas s) <> 0 ->
   let s' := run B [gestureStart down; gestureEnd up] s in
   canvas s' = canvas s /\ committed (history s) s' /\ isDrawing s' = false).
Proof.
  intros B down up s Ht.
  assert (Ht' : String.eqb (currentTool s) "freehand" = true)
    by (apply String.eqb_eq; exact Ht).
  split.
  - intros Hd. rewrite (handleEnd_freehand B up s Hd Ht'). split; [reflexivity|].
    apply (keeps_final _ _ canvas _saveState (set_isDrawing false s) saveState_keeps_canvas).
  - intros Hp Hw Hh s'. subst s'. cbn [run perform].
    destruct (getCoordinates_hasPoint down s Hp) as (x & y & Hc).
    rewrite (handleStart_outcome B down s x y Hc), Ht'. cbn [final].
    rewrite handleEnd_freehand; [|reflexivity|exact Ht'].
    rewrite saveState_outcome.
    cbn [canvas set_isDrawing set_ctx started set_last set_start].
    replace ((width (canvas s) =? 0) || (height (canvas s) =? 0)) with false
      by (symmetry; apply orb_false_iff; split; apply Nat.eqb_neq; assumption).
    cbn [final]. split; [reflexivity|]. split; [|reflexivity].
    unfold committed, history. cbn [fst snd]. repeat split.
Qed.

(** X19. An event without a position, a touch event with neither [touches]
    nor [changedTouches], makes the handlers throw a TypeError. The start
    handler throws after it has set [isDrawing]: the gesture counts as
    active although no point was taken. The move handler and, with a shape
    tool, the end handler throw before they change anything: the gesture
    stays active and nothing is committed. *)
Theorem event_without_position : forall B e s,
  hasPoint e = false ->
  _handleStart B e s = mkOutcome (set_isDrawing true s) [] (Throw TypeError) /\
  (isDrawing s = true -> _handleMove B e s = mkOutcome s [] (Throw TypeError)) /\
  (isDrawing s = true -> currentTool s <> "freehand" ->
   _handleEnd B e s = mkOutcome s [] (Throw TypeError)).
Proof.
  intros B e s Hp. split; [|split].
  - unfold _handleStart. rewrite bind_modify.
    apply bind_thrown. apply getCoordinates_noPoint. exact Hp.
  - intros Hd. unfold _handleMove. rewrite bind_get, Hd. cbn [negb].
    apply bind_thrown. apply getCoordinates_noPoint. exact Hp.
  - intros Hd Ht. apply String.eqb_neq in Ht.
    rewrite (handleEnd_active B e s Hd), Ht. cbn [negb].
    apply bind_thrown. apply bind_thrown. apply getCoordinates_noPoint. exact Hp.
Qed.

(** ** Listeners *)

Lemma attach_listening : forall s, listening (_attachEventListeners (mkPage s [] [] 0)).
Proof. intros s. split; reflexivity. Qed.

Lemma Page_destroy_listeners : forall p,
  canvasListeners (Page_destroy p) =
  removeEventListener "touchcancel" (method handleEnd)
    (removeEventListener "touchend" (method handleEnd)
       (removeEventListener "touchmove" (method handleMove)
          (removeEventListener "touchstart" (method handleStart)
             (removeEventListener "mouseleave" (method handleEnd)
                (removeEventListener "mouseup" (method handleEnd)
                   (removeEventListener "mousemove" (method handleMove)
                      (removeEventListener "mousedown" (method handleStart)
                         (canvasListeners p)))))))) /\
  windowListeners (Page_destroy p) =
  removeEventListener "resize" (method handleResize) (windowListeners p).
Proof. intros p. split; reflexivity. Qed.

Lemma Page_perform_listening : forall B a p, listening p -> listening (Page_perform B a p).
Proof.
  intros B a p [Hc Hw]. destruct a as [ev|ev|op]; [split; assumption..|].
  destruct (isDestroy op) eqn:D.
  - destruct op; try discriminate.
    change (Page_perform B (call callDestroy) p) with (Page_destroy p).
    destruct (Page_destroy_listeners p) as [Ec Ew]. unfold listening.
    rewrite Ec, Ew, Hc, Hw. split; reflexivity.
  - destruct op; try discriminate; split; assumption.
Qed.

Lemma deliver_miss : forall B ev l ls s,
  String.eqb (listener_type l) (event_type ev) = false ->
  deliver B ev (l :: ls) s = deliver B ev ls s.
Proof. intros B ev l ls s H. unfold deliver. cbn [fold_left]. rewrite H. reflexivity. Qed.

Ltac listener_case name :=
  lazymatch goal with
  | |- context [event_type ?ev] =>
      let N := fresh "N" in
      destruct (String.eqb_spec name (event_type ev)) as [E|N];
      [ destruct ev as [t d lw lh]; cbn [event_type event_data layoutWidth layoutHeight] in *;
        subst t; reflexivity
      | rewrite deliver_miss by (apply String.eqb_neq; exact N) ]
  end.

Lemma deliver_attachedToCanvas : forall B ev s,
  deliver B ev attachedToCanvas s = routed B ev s.
Proof.
  intros B ev s. unfold routed, attachedToCanvas. cbn [includes].
  listener_case "mousedown".
  listener_case "mousemove".
  listener_case "mouseup".
  listener_case "mouseleave".
  listener_case "touchstart".
  listener_case "touchmove".
  listener_case "touchend".
  listener_case "touchcancel".
  reflexivity.
Qed.

Lemma deliver_attachedToWindow : forall B ev s,
  deliver B ev attachedToWindow s =
  if String.eqb "resize" (event_type ev)
  then final (_handleResize (layoutWidth ev) (layoutHeight ev) s)
  else s.
Proof. intros B ev s. reflexivity. Qed.

Lemma Page_run_listening : forall B acts p, listening p -> listening (Page_run B acts p).
Proof.
  intros B acts. induction acts as [|a acts IH]; intros p H; cbn [Page_run]; [exact H|].
  apply IH. apply Page_perform_listening. exact H.
Qed.

Lemma Page_new_listening : forall B element ow oh, listening (Page_new B element ow oh).
Proof. intros. apply attach_listening. Qed.

(** X20. The listeners the constructor attaches take every 'mousedown' and
    'touchstart' event at the canvas to [_handleStart], every 'mousemove'
    and 'touchmove' to [_handleMove], every 'mouseup', 'mouseleave',
    'touchend' and 'touchcancel' to [_handleEnd], and every 'resize' event
    at the window to [_handleResize], each once and on the engine; for an
    event of another type the canvas and the window have no listener, and
    the engine stays as it is. This holds after any events and calls. *)
Theorem events_reach_handlers : forall B element offsetWidth offsetHeight acts ev,
  let p := Page_run B acts (Page_new B element offsetWidth offsetHeight) in
  engine (dispatch_canvas B ev p) = routed B ev (engine p) /\
  engine (dispatch_window B ev p) =
    (if String.eqb "resize" (event_type ev)
     then final (_handleResize (layoutWidth ev) (layoutHeight ev) (engine p))
     else engine p).
Proof.
  intros B element ow oh acts ev p.
  destruct (Page_run_listening B acts _ (Page_new_listening B element ow oh)) as [Hc Hw].
  fold p in Hc, Hw. unfold dispatch_canvas, dispatch_window. cbn [engine].
  rewrite Hc, Hw. split; [apply deliver_attachedToCanvas|apply deliver_attachedToWindow].
Qed.

(** X21. [destroy()] detaches nothing. It calls [removeEventListener] with
    the methods themselves, while the listeners are the functions that
    [bind] returned: the canvas keeps its eight listeners and the window its
    one. Afterwards the stacks are empty, [undo()] and [redo()] return
    [false], and the events still reach the handlers: a 'mousedown' begins
    a gesture. *)
Theorem destroy_detaches_nothing : forall B element offsetWidth offsetHeight acts ev,
  let p := Page_run B acts (Page_new B element offsetWidth offsetHeight) in
  let d := Page_destroy p in
  (canvasListeners d = canvasListeners p /\ List.length (canvasListeners p) = 8) /\
  (windowListeners d = windowListeners p /\ List.length (windowListeners p) = 1) /\
  (undoStack (engine d) = [] /\ redoStack (engine d) = [] /\
   canvas (engine d) = canvas (engine p)) /\
  (completion (undo (engine d)) = Normal false /\
   completion (redo (engine d)) = Normal false) /\
  engine (dispatch_canvas B ev d) = routed B ev (engine d) /\
  (event_type ev = "mousedown" -> isDrawing (engine (dispatch_canvas B ev d)) = true).
Proof.
  intros B element ow oh acts ev p d.
  pose proof (Page_run_listening B acts _ (Page_new_listening B element ow oh)) as L.
  fold p in L.
  pose proof (Page_perform_listening B (call callDestroy) p L) as L'.
  change (Page_perform B (call callDestroy) p) with d in L'.
  destruct L as [Hc Hw]. destruct L' as [Hc' Hw'].
  assert (R : engine (dispatch_canvas B ev d) = routed B ev (engine d)).
  { unfold dispatch_canvas. cbn [engine]. rewrite Hc'. apply deliver_attachedToCanvas. }
  split; [split; [congruence|rewrite Hc; reflexivity]|].
  split; [split; [congruence|rewrite Hw; reflexivity]|].
  split; [repeat split|]. split; [split|split].
  - rewrite undo_floor; [reflexivity|]. cbn. lia.
  - rewrite redo_floor; reflexivity.
  - exact R.
  - intros E. rewrite R. unfold routed. rewrite E. cbn [includes String.eqb].
    change (if String.eqb "mousedown" "mousedown" then true else _) with true.
    apply handleStart_active.
Qed.

(** ** Undoing an action *)

Lemma run_keeps : forall X (part : DrawingEngine -> X) B ops s,
  (forall op, In op ops -> keeps part (perform B op)) ->
  part (run B ops s) = part s.
Proof.
  intros X part B ops. induction ops as [|op ops IH]; intros s H; cbn [run]; [reflexivity|].
  rewrite IH by (intros op' Hin; apply H; right; exact Hin).
  apply (keeps_final _ _ part (perform B op) s). apply H. left. reflexivity.
Qed.

(** The engine before the commit of an action has the history and the sizes
    it had before the action. *)
Lemma beforeCommit_keeps : forall B a s,
  history (beforeCommit B a s) = history s /\ sizes (beforeCommit B a s) = sizes s.
Proof.
  intros B a s.
  assert (S1 : forall settings s0,
    history (run B (map settingOp settings) s0) = history s0 /\
    sizes (run B (map settingOp settings) s0) = sizes s0).
  { intros settings s0. split; apply run_keeps; intros op Hin;
      apply in_map_iff in Hin as (x & <- & _);
      [apply perform_keeps_history|apply perform_keeps_sizes]; destruct x; reflexivity. }
  assert (S2 : forall moves s0,
    history (run B (map gestureMove moves) s0) = history s0 /\
    sizes (run B (map gestureMove moves) s0) = sizes s0).
  { intros moves s0. split; apply run_keeps; intros op Hin;
      apply in_map_iff in Hin as (x & <- & _);
      [apply perform_keeps_history|apply perform_keeps_sizes]; reflexivity. }
  destruct a as [settings down moves up|settings]; cbn [beforeCommit].
  - destruct (S2 moves (final (_handleStart B down (run B (map settingOp settings) s))))
      as [H1 H2].
    destruct (S1 settings s) as [H3 H4].
    rewrite H1, H2, <- H3, <- H4. split.
    + apply (keeps_final _ _ history (perform B (gestureStart down))).
      apply perform_keeps_history. reflexivity.
    + apply (keeps_final _ _ sizes (perform B (gestureStart down))).
      apply perform_keeps_sizes. reflexivity.
  - apply S1.
Qed.

(** X22. A committed action can be undone, [clear()] as well as a gesture.
    On an engine a program can hold whose canvas is as its newest snapshot
    shows it, [undo()] after an action that committed returns [true] and
    brings back the canvas as it was before the action, and [redo()] after
    that brings back the canvas as the action left it. *)
Theorem commit_can_be_undone : forall B a s rest top,
  reachable B s ->
  undoStack s = rest ++ [top] -> top = snapshot (canvas s) ->
  returned (performAction B a s) = true ->
  let s' := final (performAction B a s) in
  completion (undo s') = Normal true /\
  canvas (final (undo s')) = canvas s /\
  completion (redo (final (undo s'))) = Normal true /\
  canvas (final (redo (final (undo s')))) = canvas s'.
Proof.
  intros B a s rest top H Eu Et R s'.
  destruct (reachable_bounded B s H) as [Hb Hm]. unfold bounded in Hb.
  pose proof (reachable_wellFormed B s H) as Wf.
  pose proof (reachable_wellFormed B s' (performAction_reachable B a s H)) as Wf'.
  destruct (beforeCommit_keeps B a s) as [Hh Hs].
  pose proof (performAction_commits B a s R) as C. fold s' in C. rewrite Hh in C.
  assert (Hsz : sizes s' = sizes s).
  { subst s'. unfold performAction. rewrite <- Hs.
    apply (keeps_final _ _ sizes (perform B (commitOp a))).
    apply perform_keeps_sizes. destruct a; reflexivity. }
  unfold sizes in Hsz. injection Hsz as Cw Ch _ _.
  destruct C as (Cu & Cr & _). unfold history in Cu. cbn [fst snd] in Cu.
  assert (Ec : exists rest', undoStack s' = rest' ++ [top; snapshot (canvas s')]).
  { rewrite Cu, Eu.
    destruct (maxUndoSteps s <? List.length ((rest ++ [top]) ++ [snapshot (canvas s')])) eqn:L.
    - exists (tl rest).
      apply Nat.ltb_lt in L. rewrite Eu, !length_app in *. cbn [List.length] in *.
      destruct rest as [|r rest]; [cbn [List.length] in *; lia|].
      cbn [app tl]. rewrite <- app_assoc. reflexivity.
    - exists rest. rewrite <- app_assoc. reflexivity. }
  destruct Ec as (rest' & Eu').
  rewrite (undo_step s' rest' top (snapshot (canvas s')) Eu').
  cbn [completion final].
  split; [reflexivity|]. split.
  - cbn [canvas set_ctx set_canvas]. rewrite Et.
    rewrite blit_snapshot by assumption. exact Wf.
  - match goal with |- context [redo ?u] =>
      rewrite (redo_step u [] (snapshot (canvas s'))) end.
    2:{ cbn [redoStack set_ctx set_canvas set_redoStack]. rewrite Cr. reflexivity. }
    cbn [completion final canvas set_ctx set_canvas]. split; [reflexivity|].
    rewrite blit_snapshot; [exact Wf'| |].
    + rewrite width_blit. reflexivity.
    + rewrite height_blit. reflexivity.
Qed.

(** ** Exporting *)

Lemma update_last : forall l a f,
  ExportJs.update (l ++ [a]) (List.length l) f = l ++ [f a].
Proof.
  intros l a f. induction l as [|b l IH]; cbn; [reflexivity|].
  rewrite IH. reflexivity.
Qed.

Lemma filter_others : forall n l,
  Forall (fun c => c < n) l -> filter (fun c => negb (c =? n)) l = l.
Proof.
  intros n l H. induction H as [|c l Hc H IH]; cbn; [reflexivity|].
  replace (c =? n) with false by (symmetry; apply Nat.eqb_neq; lia).
  cbn. rewrite IH. reflexivity.
Qed.

(** The temporary link: made, filled in, appended, clicked and removed. *)
Lemma link_clicked : forall url name d,
  childrenCreated d ->
  let (downloadLink, d1) := ExportJs.createElement d in
  ExportJs.console_log ("Successfully exported: " ++ name)%string
    (ExportJs.removeChild downloadLink
       (ExportJs.click downloadLink
          (ExportJs.appendChild downloadLink
             (ExportJs.set_download downloadLink name
                (ExportJs.set_href downloadLink url d1))))) =
  downloaded url name d.
Proof.
  intros url name d H. unfold ExportJs.createElement.
  unfold ExportJs.set_href, ExportJs.set_download, ExportJs.appendChild, ExportJs.click,
    ExportJs.removeChild, ExportJs.console_log.
  cbn [ExportJs.created ExportJs.bodyChildren ExportJs.downloads ExportJs.consoleLines].
  rewrite !update_last.
  cbn [ExportJs.href ExportJs.download].
  rewrite nth_error_app2 by lia. rewrite Nat.sub_diag. cbn [nth_error].
  cbn [ExportJs.created ExportJs.bodyChildren ExportJs.downloads ExportJs.consoleLines
       ExportJs.href ExportJs.download].
  unfold downloaded. f_equal.
  rewrite (filter_others _ _ H), filter_app, (filter_others _ _ H).
  cbn [filter]. rewrite Nat.eqb_refl. cbn [negb]. rewrite app_nil_r. reflexivity.
Qed.

(** X23. [exportToPNG] and [exportToJPEG] return [true] exactly when
    [toDataURL] gives a data URL, that is, for an origin-clean canvas. They
    then begin one download, of that URL under the given file name or the
    default one, write one line on the console, and leave the children of
    the body as they were: the link they append is removed again. For a
    canvas that is not origin-clean they return [false] and only write the
    error on the console; [getCanvasDataURL] then returns [null]. *)
Theorem export_contract : forall encodeAs canvas filename format quality d,
  childrenCreated d ->
  let png := fileName filename "canvas-drawing.png" in
  let jpg := fileName filename "canvas-drawing.jpg" in
  let q := match quality with Some q => q | None => 0x1.ccccccccccccdp-1%float end in
  (ExportJs.originClean canvas = true ->
   ExportJs.exportToPNG encodeAs canvas filename d =
     (downloaded (encodeAs "image/png" None (ExportJs.bitmap canvas)) png d, true) /\
   ExportJs.exportToJPEG encodeAs canvas filename quality d =
     (downloaded (encodeAs "image/jpeg" (Some q) (ExportJs.bitmap canvas)) jpg d, true) /\
   ExportJs.getCanvasDataURL encodeAs canvas format quality d =
     (d, Some (encodeAs (fileName format "image/png") (Some q) (ExportJs.bitmap canvas)))) /\
  (ExportJs.originClean canvas = false ->
   ExportJs.exportToPNG encodeAs canvas filename d =
     (ExportJs.console_error "Error exporting to PNG:" ExportJs.SecurityError d, false) /\
   ExportJs.exportToJPEG encodeAs canvas filename quality d =
     (ExportJs.console_error "Error exporting to JPEG:" ExportJs.SecurityError d, false) /\
   ExportJs.getCanvasDataURL encodeAs canvas format quality d =
     (ExportJs.console_error "Error getting canvas data URL:" ExportJs.SecurityError d,
      None)).
Proof.
  intros encodeAs canvas filename format quality d H png jpg q. subst png jpg q.
  unfold ExportJs.exportToPNG, ExportJs.exportToJPEG, ExportJs.getCanvasDataURL,
    ExportJs.toDataURL, fileName.
  cbv zeta.
  split; intros E; rewrite E.
  - pose proof (link_clicked (encodeAs "image/png" None (ExportJs.bitmap canvas))
                  match filename with Some f => f | None => "canvas-drawing.png" end
                  d H) as L1.
    pose proof (link_clicked
                  (encodeAs "image/jpeg"
                     (Some match quality with
                           | Some q => q
                           | None => 0x1.ccccccccccccdp-1%float
                           end)
                     (ExportJs.bitmap canvas))
                  match filename with Some f => f | None => "canvas-drawing.jpg" end
                  d H) as L2.
    destruct (ExportJs.createElement d) as [downloadLink d1].
    split; [f_equal; exact L1|]. split; [f_equal; exact L2|reflexivity].
  - repeat split.
Qed.

(** * The engine at work *)

Module Runs.

Import Demo Examples.

Lemma constructor_returns : returned (constructor backend (blank 0 0) 2 2) = true.
Proof. vm_compute. reflexivity. Defined.

Lemma fresh_reachable : reachable backend fresh.
Proof. apply reachable_new. exact constructor_returns. Defined.

(** The new canvas is white, and the stroke left its two end pixels black. *)
Example fresh_canvas : data (canvas fresh) = [white; white; white; white].
Proof. vm_compute. reflexivity. Qed.

Example drawn_canvas : data (canvas drawn) = [black; white; white; black].
Proof. vm_compute. reflexivity. Qed.

(** [setStrokeWidth(0)] and [setStrokeWidth(999)]. *)
Example strokeWidth_zero : strokeWidth (final (setStrokeWidth 0%float fresh)) = 1%float.
Proof. vm_compute. reflexivity. Qed.

Example strokeWidth_999 : strokeWidth (final (setStrokeWidth 999%float fresh)) = 50%float.
Proof. vm_compute. reflexivity. Qed.

(** NaN is stored as NaN. *)
Example strokeWidth_NaN : strokeWidth (final (setStrokeWidth nan fresh)) = nan.
Proof. vm_compute. reflexivity. Qed.

(** A width of 2^31 is out of the range of the attribute, which takes its
    default; 2^32 + 2 gives 2. *)
Example width_out_of_range :
  unsigned_long 300 (Z.to_nat 2147483648) = 300 /\
  unsigned_long 300 (Z.to_nat 4294967298) = 2.
Proof.
  unfold unsigned_long. rewrite !Z2Nat.id by lia. split; reflexivity.
Qed.

(** A second start event in the middle of a rectangle gesture takes the
    preview into the scratch canvas, and the end of the gesture commits it
    with the rectangle. *)
Example restart_keeps_preview :
  let restarted := final (_handleStart backend (at_ 1.5%float 0.5%float) previewing) in
  data (canvas previewing) = [black; white; white; black] /\
  data (tempCanvas previewing) = [white; white; white; white] /\
  data (tempCanvas restarted) = [black; white; white; black] /\
  data (canvas (final (_handleEnd backend (at_ 1.5%float 0.5%float) restarted)))
  = [black; black; white; black].
Proof. vm_compute. repeat split; reflexivity. Qed.

End Runs.

(** The stored width need not be an integer: 2.5 is stored as 2.5. *)
Lemma fraction_stored_unrounded :
  strokeWidth (final (setStrokeWidth 2.5%float Examples.fresh)) = 2.5%float /\
  isInteger 2.5%float = false /\
  ~ stores_integer_in_range 2.5%float Examples.fresh.
Proof.
  split; [vm_compute; reflexivity|]. split; [vm_compute; reflexivity|].
  unfold stores_integer_in_range. intros [H _]. vm_compute in H. discriminate.
Qed.

(** The margins do not show the background: a 2 by 2 canvas made 3 wide has
    transparent pixels in its new column, where the background is white. *)
Lemma margins_are_transparent :
  getPixel (canvas (final (resize 3 2 Examples.fresh))) 2 0 = transparent /\
  fillPixel Demo.backend "#ffffff" transparent = Demo.white /\
  ~ margins_show_background Demo.backend 3 2 Examples.fresh.
Proof.
  split; [vm_compute; reflexivity|]. split; [vm_compute; reflexivity|].
  intros H. specialize (H 2 0 ltac:(lia) ltac:(lia) ltac:(vm_compute; reflexivity)).
  vm_compute in H. discriminate.
Qed.

(** [undo()] does not restore the canvas to the new top of the stack once
    the canvas was resized: after [resize(3, 2)] and a stroke down the new
    column, [undo()] returns [true] and writes the 2 by 2 snapshot of the
    new engine onto the 3 by 2 canvas, which leaves the canvas as it was,
    stroke included. *)
Lemma undo_keeps_stroke_after_resize :
  List.length (undoStack Examples.resizedAndDrawn) = 2 /\
  completion (undo Examples.resizedAndDrawn) = Normal true /\
  option_map data (hd_error (rev (undoStack (final (undo Examples.resizedAndDrawn))))) =
    Some [Demo.white; Demo.white; Demo.white; Demo.white] /\
  data (canvas Examples.resizedAndDrawn) =
    [Demo.white; Demo.white; Demo.black; Demo.white; Demo.white; Demo.black] /\
  canvas (final (undo Examples.resizedAndDrawn)) = canvas Examples.resizedAndDrawn /\
  ~ restores_new_top Examples.resizedAndDrawn.
Proof.
  split; [vm_compute; reflexivity|]. split; [vm_compute; reflexivity|].
  split; [vm_compute; reflexivity|]. split; [vm_compute; reflexivity|].
  split; [vm_compute; reflexivity|].
  intros H.
  assert (L : 1 < List.length (undoStack Examples.resizedAndDrawn))
    by (vm_compute; lia).
  assert (E : undoStack (final (undo Examples.resizedAndDrawn)) =
              [] ++ [snapshot (canvas Examples.fresh)])
    by (vm_compute; reflexivity).
  destruct (H L _ _ E) as (Hw & _).
  vm_compute in Hw. discriminate.
Qed.

(** The initial snapshot does not stay: after the stroke and 49 calls of
    [clear()], 50 commits, the undo stack holds 50 snapshots, and its bottom
    entry is the snapshot of the stroke, not the white one of the new
    engine. *)
Lemma initial_snapshot_evicted :
  option_map data (hd_error (undoStack Examples.fresh)) =
    Some [Demo.white; Demo.white; Demo.white; Demo.white] /\
  List.length (undoStack (run Demo.backend Examples.fiftyCommits Examples.fresh)) = 50 /\
  option_map data
    (hd_error (undoStack (run Demo.backend Examples.fiftyCommits Examples.fresh))) =
    Some [Demo.black; Demo.white; Demo.white; Demo.black] /\
  ~ initial_snapshot_stays Demo.backend Examples.fresh Examples.fiftyCommits.
Proof.
  split; [vm_compute; reflexivity|]. split; [vm_compute; reflexivity|].
  split; [vm_compute; reflexivity|].
  unfold initial_snapshot_stays. intros H. vm_compute in H. discriminate.
Qed.

(** The symmetry of undo and redo at work: the stroke and [clear()], two
    undos, two redos. *)
Lemma undo_redo_symmetry_witness :
  exists s1,
    performActions Demo.backend Examples.strokeThenClear Examples.fresh = Some s1 /\
    canvas (redoTimes 2 (undoTimes 2 s1)) = canvas s1.
Proof.
  eexists. split.
  - vm_compute. reflexivity.
  - apply (undo_redo_symmetry Demo.backend Examples.fresh Examples.strokeThenClear).
    + exact Runs.fresh_reachable.
    + discriminate.
    + vm_compute. reflexivity.
Defined.

(** The history bound at work: after the stroke and 49 calls of [clear()]
    the undo stack is full, and [clear()] as well as the end of a gesture
    drop its oldest snapshot for the new one. *)
Lemma undo_stack_bounded_witness :
  List.length (undoStack Examples.fullStack) = 50 /\
  List.length (undoStack Examples.fullStack) <= maxUndoSteps Examples.fullStack /\
  undoStack (final (clear Demo.backend Examples.fullStack)) =
    tl (undoStack Examples.fullStack)
    ++ [snapshot (canvas (final (clear Demo.backend Examples.fullStack)))] /\
  undoStack (final (_handleEnd Demo.backend (Examples.at_ 1.5%float 0.5%float)
                      Examples.fullStackPressed)) =
    tl (undoStack Examples.fullStackPressed)
    ++ [snapshot (canvas (final (_handleEnd Demo.backend (Examples.at_ 1.5%float 0.5%float)
                                   Examples.fullStackPressed)))] /\
  bounded (final (perform Demo.backend callUndo Examples.fullStack)).
Proof.
  assert (R1 : reachable Demo.backend Examples.fullStack)
    by (apply reachable_run; exact Runs.fresh_reachable).
  assert (R2 : reachable Demo.backend Examples.fullStackPressed)
    by (apply reachable_run; exact R1).
  destruct (undo_stack_bounded Demo.backend Examples.fullStack R1)
    as (_ & H2 & _ & _ & H5 & H6).
  destruct (undo_stack_bounded Demo.backend Examples.fullStackPressed R2)
    as (_ & _ & _ & H4 & _).
  split; [vm_compute; reflexivity|]. split; [exact H2|].
  split; [apply H5; vm_compute; reflexivity|].
  split; [apply H4; vm_compute; reflexivity|].
  apply (H6 Examples.fullStack callUndo). vm_compute. lia.
Defined.

(** [undo()] at work: nothing to undo on the new engine; the stroke undone,
    which brings back the white canvas; and the stroke on the canvas made 3
    wide, which [undo()] leaves in its column, outside the snapshot. *)
Lemma undo_contract_witness :
  undo Examples.fresh =
    mkOutcome Examples.fresh [console_log "Nothing to undo"] (Normal false) /\
  (exists rest previousState currentState,
     undoStack Examples.drawn = rest ++ [previousState; currentState] /\
     completion (undo Examples.drawn) = Normal true /\
     canvas (final (undo Examples.drawn)) = blit previousState (canvas Examples.drawn) /\
     samePixels (canvas (final (undo Examples.drawn))) previousState) /\
  (exists rest previousState currentState,
     undoStack Examples.resizedAndDrawn = rest ++ [previousState; currentState] /\
     completion (undo Examples.resizedAndDrawn) = Normal true /\
     width (canvas (final (undo Examples.resizedAndDrawn))) = 3 /\
     getPixel (canvas (final (undo Examples.resizedAndDrawn))) 2 0 = Demo.black).
Proof.
  destruct (undo_contract Demo.backend (blank 0 0) 2 2 [] Examples.fresh) as (H1 & _).
  destruct (undo_contract Demo.backend (blank 0 0) 2 2 Examples.strokeOps
              (run Demo.backend Examples.strokeOps
                 (final (constructor Demo.backend (blank 0 0) 2 2))))
    as (_ & _ & H3 & H4 & _).
  destruct (undo_contract Demo.backend (blank 0 0) 2 2 [] Examples.resizedAndDrawn)
    as (_ & _ & H5 & _).
  split; [apply H1; vm_compute; lia|]. split.
  - unfold Examples.drawn, Examples.fresh.
    destruct H3 as (rest & a & b & E & C & _ & _ & K & _ & _ & F); [vm_compute; lia|].
    exists rest, a, b. repeat (split; [assumption|]).
    apply F.
    specialize (H4 Runs.constructor_returns eq_refl eq_refl).
    rewrite E in H4. apply Forall_app in H4 as [_ H4].
    inversion H4 as [|? ? Ha _]. exact Ha.
  - destruct H5 as (rest & a & b & E & C & _ & _ & _ & (W & _) & P & _); [vm_compute; lia|].
    exists rest, a, b. split; [exact E|]. split; [exact C|].
    split; [rewrite W; vm_compute; reflexivity|].
    rewrite P.
    assert (Ea : a = snapshot (canvas Examples.fresh)).
    { assert (E' : undoStack Examples.resizedAndDrawn =
                   ([] ++ [snapshot (canvas Examples.fresh)])
                   ++ [snapshot (canvas Examples.resizedAndDrawn)])
        by (vm_compute; reflexivity).
      rewrite E' in E.
      replace (rest ++ [a; b]) with ((rest ++ [a]) ++ [b]) in E
        by (rewrite <- app_assoc; reflexivity).
      apply app_inj_tail_iff in E as [E _].
      apply app_inj_tail_iff in E as [_ E]. symmetry. exact E. }
    rewrite Ea. vm_compute. reflexivity.
Defined.

(** Redo after a commit at work: the stroke undone, then [clear()], then
    [redo()]. *)
Lemma redo_invalidation_witness :
  redo (final (performAction Demo.backend (clearCanvas [])
                 (undoTimes 1 Examples.drawn))) =
  mkOutcome (final (performAction Demo.backend (clearCanvas [])
                      (undoTimes 1 Examples.drawn)))
    [console_log "Nothing to redo"] (Normal false).
Proof.
  destruct (redo_invalidation Demo.backend (clearCanvas []) Examples.drawn 1) as (_ & H).
  apply H; [lia|vm_compute; reflexivity].
Defined.

(** The clamp at work: [setStrokeWidth(999)]. *)
Lemma setStrokeWidth_clamps_witness :
  strokeWidth (final (setStrokeWidth 999%float Examples.fresh)) = 50%float.
Proof.
  destruct (setStrokeWidth_clamps 999%float Examples.fresh) as (_ & _ & _ & H & _).
  apply H. vm_compute. reflexivity.
Defined.

(** [setTool] at work: [setTool('hexagon')] and [setTool('circle')]. *)
Lemma setTool_contract_witness :
  setTool "hexagon" Examples.fresh =
  mkOutcome Examples.fresh
    [console_warn
       "Invalid tool: hexagon. Valid tools are: freehand, rectangle, circle, line"]
    (Normal tt) /\
  currentTool (final (setTool "circle" Examples.fresh)) = "circle".
Proof.
  destruct (setTool_contract "hexagon" Examples.fresh) as (_ & H).
  destruct (setTool_contract "circle" Examples.fresh) as (K & _).
  split; [apply H; discriminate|apply K; auto].
Defined.

(** [resize] at work: the canvas with the stroke made 3 wide keeps the
    stroke, and its new column is transparent; on the canvas that was made 0
    wide the call throws. *)
Lemma resize_contract_witness :
  width (canvas (final (resize 3 2 Examples.drawn))) = 3 /\
  height (canvas (final (resize 3 2 Examples.drawn))) = 2 /\
  getPixel (canvas (final (resize 3 2 Examples.drawn))) 0 0 = Demo.black /\
  getPixel (canvas (final (resize 3 2 Examples.drawn))) 2 0 = transparent /\
  resize 3 2 Cases.withoutPixels =
    mkOutcome Cases.withoutPixels [] (Throw IndexSizeError).
Proof.
  assert (Hw : width (canvas Examples.drawn) <> 0) by (vm_compute; discriminate).
  assert (Hh : height (canvas Examples.drawn) <> 0) by (vm_compute; discriminate).
  destruct (resize_contract 3 2 Examples.drawn) as ((W & H & _) & _ & K).
  destruct (resize_contract 3 2 Cases.withoutPixels) as (_ & T & _).
  destruct (K Hw Hh) as (_ & _ & (Ew & Eh) & _ & P & _).
  split; [rewrite Ew; apply W; lia|]. split; [rewrite Eh; apply H; lia|].
  split; [rewrite P by (vm_compute; lia); vm_compute; reflexivity|].
  split; [rewrite P by (vm_compute; lia); vm_compute; reflexivity|].
  apply T. left. vm_compute. reflexivity.
Defined.

(** The floor of the undo stack at work. After the stroke, an idle end
    event, [undo()] and [redo()], one commit, the bottom entry is the
    snapshot of the new engine. After the stroke and 49 calls of [clear()],
    50 commits, the stack holds the 50 committed snapshots, and one more
    [clear()] drops the oldest of them. *)
Lemma undo_stack_floor_witness :
  undoStack (run Demo.backend Examples.strokeAndMore
               (final (constructor Demo.backend (blank 0 0) 2 2))) <> [] /\
  hd_error (undoStack (run Demo.backend Examples.strokeAndMore
                         (final (constructor Demo.backend (blank 0 0) 2 2)))) =
    Some (snapshot (canvas (final (constructor Demo.backend (blank 0 0) 2 2)))) /\
  undoStack (final (perform Demo.backend callClear
                      (run Demo.backend Examples.fiftyCommits
                         (final (constructor Demo.backend (blank 0 0) 2 2))))) =
    tl (undoStack (run Demo.backend Examples.fiftyCommits
                     (final (constructor Demo.backend (blank 0 0) 2 2))))
    ++ [snapshot (canvas (final (perform Demo.backend callClear
                                   (run Demo.backend Examples.fiftyCommits
                                      (final (constructor Demo.backend (blank 0 0) 2 2))))))] /\
  undoStack (run Demo.backend Examples.fiftyCommits
               (final (constructor Demo.backend (blank 0 0) 2 2))) =
    committedSnapshots Demo.backend Examples.fiftyCommits
      (final (constructor Demo.backend (blank 0 0) 2 2)).
Proof.
  destruct (undo_stack_floor Demo.backend (blank 0 0) 2 2 Examples.strokeAndMore
              Runs.constructor_returns eq_refl) as (_ & H2 & H3 & _).
  destruct (undo_stack_floor Demo.backend (blank 0 0) 2 2 Examples.fiftyCommits
              Runs.constructor_returns eq_refl) as (_ & _ & _ & H4 & H5 & _).
  split; [exact H2|]. split; [apply H3; vm_compute; lia|].
  split; [apply H4; vm_compute; reflexivity|].
  destruct (H5 eq_refl) as (_ & K).
  rewrite K by (vm_compute; lia).
  replace (List.length
             (committedSnapshots Demo.backend Examples.fiftyCommits
                (final (constructor Demo.backend (blank 0 0) 2 2))) - 50)
    with 0 by (vm_compute; reflexivity).
  reflexivity.
Defined.

(** The idle guard at work: a move and an end event on the new engine. *)
Lemma idle_guard_witness :
  _handleMove Demo.backend (Examples.at_ 1.5%float 1.5%float) Examples.fresh =
    mkOutcome Examples.fresh [] (Normal tt) /\
  _handleEnd Demo.backend (Examples.at_ 1.5%float 1.5%float) Examples.fresh =
    mkOutcome Examples.fresh [] (Normal tt).
Proof.
  destruct (idle_guard Demo.backend (Examples.at_ 1.5%float 1.5%float)
              (blank 0 0) 2 2 [] Examples.fresh) as (H & _).
  apply H. vm_compute. reflexivity.
Defined.


(** The depth of undo at work, after the stroke: one call undoes, the 50th in a row does not. *)
Lemma undo_depth_witness :
  completion (undo (undoTimes 0 Examples.drawn)) = Normal true /\
  completion (undo (undoTimes 49 Examples.drawn)) = Normal false.
Proof.
  destruct (undo_depth Demo.backend Examples.drawn 0
              (reachable_run Demo.backend Examples.strokeOps Examples.fresh
                 Runs.fresh_reachable)) as [H1 H2].
  split; [|exact H2].
  rewrite H1. vm_compute. reflexivity.
Defined.

(** The history at work: undo, redo, undo after the stroke. *)
Lemma timeline_stays_witness :
  timeline (run Demo.backend [callUndo; callRedo; callUndo] Examples.drawn) =
  timeline Examples.drawn.
Proof.
  destruct (timeline_stays Demo.backend [callUndo; callRedo; callUndo] Examples.drawn)
    as [H _]; [vm_compute; reflexivity|exact H].
Defined.

(** [redo()] at work, after the stroke was undone. *)
Lemma redo_contract_witness :
  exists rest state,
    redoStack Cases.undone = rest ++ [state] /\
    completion (redo Cases.undone) = Normal true /\
    canvas (final (redo Cases.undone)) = blit state (canvas Cases.undone).
Proof.
  destruct (redo_contract Cases.undone) as [_ H].
  exists [], (snapshot (canvas Examples.drawn)).
  assert (E : redoStack Cases.undone = [] ++ [snapshot (canvas Examples.drawn)])
    by (vm_compute; reflexivity).
  destruct (H _ _ E) as (H1 & _ & _ & _ & H5 & _).
  split; [exact E|]. split; [exact H1|exact H5].
Defined.

(** The constructor at work: a canvas laid out 2 by 2, and one laid out 0 wide. *)
Lemma constructor_contract_witness :
  completion (constructor Demo.backend (blank 0 0) 2 2) = Normal tt /\
  completion (constructor Demo.backend (blank 0 0) 0 2) = Throw IndexSizeError.
Proof.
  destruct (constructor_contract Demo.backend (blank 0 0) 2 2) as [_ H].
  destruct (constructor_contract Demo.backend (blank 0 0) 0 2) as [K _].
  split.
  - apply H; lia.
  - apply K. left. reflexivity.
Defined.

(** [clear()] returns on the new engine. *)
Lemma returns_with_pixels_witness :
  returned (perform Demo.backend callClear Examples.fresh) = true.
Proof.
  apply (returns_with_pixels Demo.backend callClear Examples.fresh Runs.fresh_reachable).
  - vm_compute. lia.
  - vm_compute. lia.
  - reflexivity.
Defined.

(** A canvas made 0 wide stays so, and [clear()] throws on it. *)
Lemma canvas_without_pixels_stays_witness :
  width (canvas (run Demo.backend [callClear; callResize 3 3] Cases.withoutPixels)) = 0 /\
  completion (clear Demo.backend
                (run Demo.backend [callClear; callResize 3 3] Cases.withoutPixels)) =
  Throw IndexSizeError.
Proof.
  assert (Z : width (canvas Cases.withoutPixels) = 0 \/ height (canvas Cases.withoutPixels) = 0)
    by (left; vm_compute; reflexivity).
  destruct (canvas_without_pixels_stays Demo.backend [callClear; callResize 3 3]
              Cases.withoutPixels Z) as ((Hw & _) & _ & _ & Hc & _).
  split; [|exact Hc].
  rewrite Hw. vm_compute. reflexivity.
Defined.

(** The context after the stroke holds the settings. *)
Lemma context_holds_settings_witness : settingsApplied Examples.drawn.
Proof.
  destruct (context_holds_settings Demo.backend Examples.drawn
              (reachable_run Demo.backend Examples.strokeOps Examples.fresh
                 Runs.fresh_reachable)) as [H _].
  exact H.
Defined.

(** The tool in the middle of the rectangle gesture. *)
Lemma tool_is_valid_witness :
  currentTool Examples.previewing = "freehand" \/
  currentTool Examples.previewing = "rectangle" \/
  currentTool Examples.previewing = "circle" \/
  currentTool Examples.previewing = "line".
Proof.
  destruct (tool_is_valid Demo.backend Examples.previewing
              (reachable_run Demo.backend _ Examples.fresh Runs.fresh_reachable)) as [H _].
  exact H.
Defined.

(** The scratch canvas of the engine whose canvas was made 0 wide. *)
Lemma scratch_as_large_as_canvas_witness : scratchFits Cases.withoutPixels.
Proof.
  destruct (scratch_as_large_as_canvas Demo.backend Cases.withoutPixels
              (reachable_run Demo.backend [callResize 0 2] Examples.fresh
                 Runs.fresh_reachable)) as [H _].
  exact H.
Defined.

(** The width of the canvas after the stroke and 49 calls of [clear()]. *)
Lemma size_changes_by_resize_only_witness :
  width (canvas (run Demo.backend Examples.fiftyCommits Examples.fresh)) =
  width (canvas Examples.fresh).
Proof.
  destruct (size_changes_by_resize_only Demo.backend Examples.fiftyCommits Examples.fresh)
    as [H _]; [vm_compute; reflexivity|exact H].
Defined.

(** [setColor] in the middle of the rectangle gesture leaves the canvas. *)
Lemma settings_draw_nothing_witness :
  canvas (final (perform Demo.backend (callSetColor "#ff0000") Examples.previewing)) =
  canvas Examples.previewing.
Proof.
  destruct (settings_draw_nothing Demo.backend (callSetColor "#ff0000") Examples.previewing)
    as (_ & H & _); [reflexivity|exact H].
Defined.

(** [clear()] at work, after the stroke. *)
Lemma clear_contract_witness :
  getPixel (canvas (final (clear Demo.backend Examples.drawn))) 0 0 =
  fillPixel Demo.backend "#ffffff" (getPixel (canvas Examples.drawn) 0 0).
Proof.
  assert (Hw : width (canvas Examples.drawn) <> 0) by (vm_compute; lia).
  assert (Hh : height (canvas Examples.drawn) <> 0) by (vm_compute; lia).
  destruct (clear_contract Demo.backend Examples.drawn Hw Hh) as (_ & _ & H & _).
  apply H; vm_compute; lia.
Defined.

(** The stroke made 1 by 1 and then 2 by 2 again: the top left pixel is
    kept, the bottom right one is gone. *)
Lemma resize_twice_witness :
  getPixel (canvas (final (resize 2 2 (final (resize 1 1 Examples.drawn))))) 0 0 =
  Demo.black /\
  getPixel (canvas (final (resize 2 2 (final (resize 1 1 Examples.drawn))))) 1 1 =
  transparent.
Proof.
  assert (Hw : width (canvas Examples.drawn) <> 0) by (vm_compute; lia).
  assert (Hh : height (canvas Examples.drawn) <> 0) by (vm_compute; lia).
  destruct (resize_twice 1 1 2 2 Examples.drawn Hw Hh
              ltac:(vm_compute; lia) ltac:(vm_compute; lia))
    as (_ & _ & H & _).
  split; (rewrite H by (vm_compute; lia); vm_compute; reflexivity).
Defined.

(** The preview at work: the next move event of the rectangle gesture. *)
Lemma shape_preview_witness :
  path (ctx (final (_handleMove Demo.backend (Examples.at_ 1.5%float 0.5%float)
                      Examples.previewing))) =
  shapePath "rectangle" 0.5%float 0.5%float 1.5%float 0.5%float.
Proof.
  assert (Hd : isDrawing Examples.previewing = true) by (vm_compute; reflexivity).
  assert (Ht : currentTool Examples.previewing <> "freehand") by (vm_compute; discriminate).
  assert (Hc : completion (_getCoordinates (Examples.at_ 1.5%float 0.5%float)
                             Examples.previewing) = Normal (1.5%float, 0.5%float))
    by (vm_compute; reflexivity).
  assert (Hw : width (tempCanvas Examples.previewing) <> 0) by (vm_compute; lia).
  assert (Hh : height (tempCanvas Examples.previewing) <> 0) by (vm_compute; lia).
  destruct (shape_preview Demo.backend (Examples.at_ 1.5%float 0.5%float)
              Examples.previewing _ _ Hd Ht Hc Hw Hh) as (_ & H & _).
  rewrite H. vm_compute. reflexivity.
Defined.

(** The end of the rectangle gesture, with one more move event before it and without. *)
Lemma moves_leave_no_trace_witness :
  canvas (final (_handleEnd Demo.backend (Examples.at_ 1.5%float 0.5%float)
                   (run Demo.backend
                      (map gestureMove [Examples.at_ 0.5%float 1.5%float])
                      Examples.previewing))) =
  canvas (final (_handleEnd Demo.backend (Examples.at_ 1.5%float 0.5%float)
                   Examples.previewing)).
Proof.
  assert (Hd : isDrawing Examples.previewing = true) by (vm_compute; reflexivity).
  assert (Ht : currentTool Examples.previewing <> "freehand") by (vm_compute; discriminate).
  destruct (moves_leave_no_trace Demo.backend [Examples.at_ 0.5%float 1.5%float]
              (Examples.at_ 1.5%float 0.5%float) Examples.previewing Hd Ht eq_refl)
    as (H & _).
  exact H.
Defined.

(** The path of the stroke before its end event. *)
Lemma freehand_path_witness :
  path (ctx (run Demo.backend
               (map gestureMove [Examples.at_ 1.5%float 1.5%float])
               (final (_handleStart Demo.backend (Examples.at_ 0.5%float 0.5%float)
                         Examples.fresh)))) =
  [moveTo 0.5%float 0.5%float; lineTo 1.5%float 1.5%float].
Proof.
  assert (Ht : currentTool Examples.fresh = "freehand") by (vm_compute; reflexivity).
  assert (H0 : pointOf (Examples.at_ 0.5%float 0.5%float) Examples.fresh =
               Some (0.5%float, 0.5%float)) by (vm_compute; reflexivity).
  assert (H1 : pointOf (Examples.at_ 1.5%float 1.5%float) Examples.fresh =
               Some (1.5%float, 1.5%float)) by (vm_compute; reflexivity).
  destruct (freehand_path Demo.backend (Examples.at_ 0.5%float 0.5%float)
              [Examples.at_ 1.5%float 1.5%float] Examples.fresh _
              [(1.5%float, 1.5%float)] Ht H0
              (Forall2_cons _ _ H1 (Forall2_nil _))) as (H & _).
  exact H.
Defined.

(** A click on the new engine. *)
Lemma freehand_end_draws_nothing_witness :
  canvas (run Demo.backend
            [gestureStart (Examples.at_ 0.5%float 0.5%float);
             gestureEnd (Examples.at_ 0.5%float 0.5%float)]
            Examples.fresh) = canvas Examples.fresh.
Proof.
  assert (Ht : currentTool Examples.fresh = "freehand") by (vm_compute; reflexivity).
  assert (Hw : width (canvas Examples.fresh) <> 0) by (vm_compute; lia).
  assert (Hh : height (canvas Examples.fresh) <> 0) by (vm_compute; lia).
  destruct (freehand_end_draws_nothing Demo.backend (Examples.at_ 0.5%float 0.5%float)
              (Examples.at_ 0.5%float 0.5%float) Examples.fresh Ht) as (_ & H).
  destruct (H eq_refl Hw Hh) as (K & _).
  exact K.
Defined.

(** A touch event without a touch as a start event. *)
Lemma event_without_position_witness :
  _handleStart Demo.backend Cases.noTouch Examples.fresh =
  mkOutcome (set_isDrawing true Examples.fresh) [] (Throw TypeError).
Proof.
  destruct (event_without_position Demo.backend Cases.noTouch Examples.fresh eq_refl)
    as (H & _).
  exact H.
Defined.

(** The listeners after [destroy()], and a press of the mouse button then. *)
Lemma destroy_detaches_nothing_witness :
  List.length (canvasListeners (Page_destroy Cases.page)) = 8 /\
  isDrawing (engine (dispatch_canvas Demo.backend Cases.mousedown
                       (Page_destroy Cases.page))) = true.
Proof.
  destruct (destroy_detaches_nothing Demo.backend (blank 0 0) 2 2 [] Cases.mousedown)
    as ((H1 & H2) & _ & _ & _ & _ & H).
  split.
  - change (Page_run Demo.backend [] (Page_new Demo.backend (blank 0 0) 2 2))
      with Cases.page in H1, H2.
    rewrite H1. exact H2.
  - apply H. reflexivity.
Defined.

(** A rectangle gesture on the new engine. *)
Lemma shape_gesture_witness :
  completion (_handleEnd Demo.backend (Examples.at_ 1.5%float 1.5%float)
                (run Demo.backend (map gestureMove [Examples.at_ 0.5%float 1.5%float])
                   (final (_handleStart Demo.backend (Examples.at_ 0.5%float 0.5%float)
                             Cases.rectangleTool)))) = Normal tt.
Proof.
  assert (Ht : currentTool Cases.rectangleTool <> "freehand") by (vm_compute; discriminate).
  assert (H0 : pointOf (Examples.at_ 0.5%float 0.5%float) Cases.rectangleTool =
               Some (0.5%float, 0.5%float)) by (vm_compute; reflexivity).
  assert (H1 : pointOf (Examples.at_ 1.5%float 1.5%float) Cases.rectangleTool =
               Some (1.5%float, 1.5%float)) by (vm_compute; reflexivity).
  assert (Hw : width (canvas Cases.rectangleTool) <> 0) by (vm_compute; lia).
  assert (Hh : height (canvas Cases.rectangleTool) <> 0) by (vm_compute; lia).
  assert (Hf : scratchFits Cases.rectangleTool) by (split; vm_compute; reflexivity).
  destruct (shape_gesture Demo.backend (Examples.at_ 0.5%float 0.5%float)
              [Examples.at_ 0.5%float 1.5%float] (Examples.at_ 1.5%float 1.5%float)
              Cases.rectangleTool _ _ Ht H0 H1 Hw Hh Hf) as (_ & H & _).
  exact H.
Defined.

(** [clear()] after the stroke, undone. *)
Lemma commit_can_be_undone_witness :
  canvas (final (undo (final (performAction Demo.backend (clearCanvas []) Examples.drawn))))
  = canvas Examples.drawn.
Proof.
  assert (Hu : undoStack Examples.drawn =
               [snapshot (canvas Examples.fresh)] ++ [snapshot (canvas Examples.drawn)])
    by (vm_compute; reflexivity).
  assert (R : returned (performAction Demo.backend (clearCanvas []) Examples.drawn) = true)
    by (vm_compute; reflexivity).
  destruct (commit_can_be_undone Demo.backend (clearCanvas []) Examples.drawn _ _
              (reachable_run Demo.backend Examples.strokeOps Examples.fresh
                 Runs.fresh_reachable)
              Hu eq_refl R) as (_ & H & _).
  exact H.
Defined.

(** [exportToPNG(canvas)] at work, on a page without elements. *)
Lemma export_contract_witness :
  ExportJs.exportToPNG (fun type _ _ => ("data:" ++ type)%string)
    (ExportJs.mkCanvasElement (blank 1 1) true) None
    (ExportJs.mkDocument [] [] [] []) =
  (downloaded "data:image/png" "canvas-drawing.png" (ExportJs.mkDocument [] [] [] []),
   true).
Proof.
  destruct (export_contract (fun type _ _ => ("data:" ++ type)%string)
              (ExportJs.mkCanvasElement (blank 1 1) true) None None None
              (ExportJs.mkDocument [] [] [] []) (Forall_nil _)) as [H _].
  destruct (H eq_refl) as (K & _).
  exact K.
Defined.
